(** * bookscraper: the World of Books crawl-and-extract pipeline

    A shallow embedding of [src/worldofbooks_scraper.py]
    (class [WorldOfBooksScraper]) and the properties of its crawl loop,
    item extractor and field parsers.

    Conventions of the embedding.
    - A Python or JavaScript string is a [text]: a list of 8-bit characters
      (the UTF-8 bytes of the string).  The classes [\d] and [\s] and the
      whitespace removed by [strip]/[trim] are their ASCII members.
    - [None]/[null] is [None] of an option type.
    - A Python [float] obtained as [float(lit)] is kept as the decimal
      literal [lit] it was parsed from ([PyFloat lit]).
    - Code that awaits a collaborator (browser, page, database) runs in the
      monad [M] of section Effects: it threads the state of the outside
      world, logs every collaborator call, and returns a value or raises. *)

From Stdlib Require Import List Ascii String ZArith Lia Bool Arith.
Import ListNotations.

Local Open Scope Z_scope.

(** ** Text *)

Definition text := list ascii.

Definition T (s : string) : text := list_ascii_of_string s.

Definition ascii_eqb (a b : ascii) : bool := Ascii.eqb a b.

Definition code (c : ascii) : nat := nat_of_ascii c.

Definition in_range (lo hi : ascii) (c : ascii) : bool :=
  (Nat.leb (code lo) (code c) && Nat.leb (code c) (code hi))%bool.

(** [\d] *)
Definition is_digit (c : ascii) : bool := in_range "0" "9" c.

(** ASCII white space: tab, line feed, vertical tab, form feed, carriage
    return, the separators 28..31 (Python only) and space. *)
Definition js_space (c : ascii) : bool :=
  (in_range (ascii_of_nat 9) (ascii_of_nat 13) c || ascii_eqb c " ")%bool.

Definition py_space (c : ascii) : bool :=
  (js_space c || in_range (ascii_of_nat 28) (ascii_of_nat 31) c)%bool.

Definition to_upper (c : ascii) : ascii :=
  if in_range "a" "z" c then ascii_of_nat (code c - 32) else c.

Definition to_lower (c : ascii) : ascii :=
  if in_range "A" "Z" c then ascii_of_nat (code c + 32) else c.

Fixpoint text_eqb (a b : text) : bool :=
  match a, b with
  | [], [] => true
  | x :: a', y :: b' => (ascii_eqb x y && text_eqb a' b')%bool
  | _, _ => false
  end.

(** Removal of leading characters satisfying [p]. *)
Fixpoint lstrip_by (p : ascii -> bool) (s : text) : text :=
  match s with
  | c :: s' => if p c then lstrip_by p s' else s
  | [] => []
  end.

Definition rstrip_by (p : ascii -> bool) (s : text) : text :=
  rev (lstrip_by p (rev s)).

Definition strip_by (p : ascii -> bool) (s : text) : text :=
  rstrip_by p (lstrip_by p s).

(** [str.strip()] *)
Definition py_strip (s : text) : text := strip_by py_space s.

(** [String.prototype.trim()] *)
Definition js_trim (s : text) : text := strip_by js_space s.

(** [s.split(sep)] for a one-character separator: never empty. *)
Fixpoint split_on (sep : ascii) (s : text) : list text :=
  match s with
  | [] => [[]]
  | c :: s' =>
      if ascii_eqb c sep then [] :: split_on sep s'
      else match split_on sep s' with
           | p :: ps => (c :: p) :: ps
           | [] => [[c]]
           end
  end.

(** Truthiness of a Python string. *)
Definition truthy (s : text) : bool :=
  match s with [] => false | _ => true end.

(** ** [_extract_sku_from_url] *)

Definition _extract_sku_from_url (url : text) : option text :=
  let parts := split_on "/" (strip_by (ascii_eqb "/") url) in
  if (0 <? List.length parts)%nat then
    let potential_sku := last parts [] in
    if (truthy potential_sku && (5 <? List.length potential_sku)%nat)%bool
    then Some potential_sku
    else None
  else None.


(** ** Regular expressions

    The patterns of the source, matched the way [re.search] (Python) and
    [String.prototype.match] (JavaScript) do: leftmost start position,
    then backtracking with greedy quantifiers and ordered alternatives.
    Quantifiers occur in the source only over single character classes. *)

Inductive regex : Type :=
| Lit (c : ascii)                    (* a literal character *)
| Cls (p : ascii -> bool)            (* a character class *)
| Cat (r1 r2 : regex)                (* r1 r2 *)
| Alt (r1 r2 : regex)                (* r1 | r2 *)
| Opt (r : regex)                    (* r? *)
| Star (p : ascii -> bool)           (* [p]* *)
| Plus (p : ascii -> bool)           (* [p]+ *)
| Rep (n : nat) (p : ascii -> bool)  (* [p]{n} *)
| Grp (i : nat) (r : regex).         (* the i-th capture group *)

(** Captures, most recent first. *)
Definition caps := list (nat * text).

Fixpoint group (i : nat) (cs : caps) : option text :=
  match cs with
  | [] => None
  | (j, t) :: cs' => if Nat.eqb i j then Some t else group i cs'
  end.

Section Matcher.
Context {A : Type}.

Definition orelse (x : option A) (y : option A) : option A :=
  match x with Some _ => x | None => y end.

(** Greedy [p]*: the longest run first, then shorter ones. *)
Fixpoint star (p : ascii -> bool) (s : text) (k : text -> option A)
  : option A :=
  match s with
  | c :: s' => if p c then orelse (star p s' k) (k s) else k s
  | [] => k s
  end.

Fixpoint rep (n : nat) (p : ascii -> bool) (s : text)
  (k : text -> option A) : option A :=
  match n with
  | O => k s
  | S n' => match s with
            | c :: s' => if p c then rep n' p s' k else None
            | [] => None
            end
  end.

(** With the flag [i] a character matches a literal or a class when one
    of its two cases does. *)
Definition fold_case (ci : bool) (p : ascii -> bool) (c : ascii) : bool :=
  if ci then (p (to_upper c) || p (to_lower c))%bool else p c.

Fixpoint rx (ci : bool) (r : regex) (s : text) (cs : caps)
  (k : text -> caps -> option A) : option A :=
  match r with
  | Lit c =>
      match s with
      | d :: s' => if fold_case ci (ascii_eqb c) d then k s' cs else None
      | [] => None
      end
  | Cls p =>
      match s with
      | d :: s' => if fold_case ci p d then k s' cs else None
      | [] => None
      end
  | Cat r1 r2 => rx ci r1 s cs (fun s' cs' => rx ci r2 s' cs' k)
  | Alt r1 r2 => orelse (rx ci r1 s cs k) (rx ci r2 s cs k)
  | Opt r1 => orelse (rx ci r1 s cs k) (k s cs)
  | Star p => star (fold_case ci p) s (fun s' => k s' cs)
  | Plus p =>
      match s with
      | d :: s' =>
          if fold_case ci p d
          then star (fold_case ci p) s' (fun s'' => k s'' cs)
          else None
      | [] => None
      end
  | Rep n p => rep n (fold_case ci p) s (fun s' => k s' cs)
  | Grp i r1 =>
      rx ci r1 s cs
        (fun s' cs' =>
           k s' ((i, firstn (List.length s - List.length s') s) :: cs'))
  end.
End Matcher.

(** A match of [r] starting exactly at the head of [s]. *)
Definition match_here (ci : bool) (r : regex) (s : text) : option caps :=
  rx ci r s [] (fun _ cs => Some cs).

(** [re.search(r, s)] / [s.match(r)]: the leftmost match. *)
Fixpoint search (ci : bool) (r : regex) (s : text) : option caps :=
  match match_here ci r s with
  | Some cs => Some cs
  | None => match s with
            | [] => None
            | _ :: s' => search ci r s'
            end
  end.

Fixpoint lits (s : text) : regex :=
  match s with
  | [] => Rep 0 (fun _ => true)
  | [c] => Lit c
  | c :: s' => Cat (Lit c) (lits s')
  end.

(** ** [_extract_price] *)

(** The euro sign, U+20AC, in UTF-8. *)
Definition euro : text :=
  [ascii_of_nat 226; ascii_of_nat 130; ascii_of_nat 172].

(** [r'€?(\d+\.\d{2})'] *)
Definition price_re1 : regex :=
  Cat (Opt (lits euro))
      (Grp 1 (Cat (Plus is_digit) (Cat (Lit ".") (Rep 2 is_digit)))).

(** [r'(\d+)\.?(\d{2})?'] *)
Definition price_re2 : regex :=
  Cat (Grp 1 (Plus is_digit))
      (Cat (Opt (Lit ".")) (Opt (Grp 2 (Rep 2 is_digit)))).

(** The Python float [float(lit)]. *)
Inductive pyfloat : Type := PyFloat (lit : text).

(** [m.group(i)] of a group that took part in the match. *)
Definition group_text (i : nat) (m : caps) : text :=
  match group i m with Some t => t | None => [] end.

(** [x or d] *)
Definition or_default (x : option text) (d : text) : text :=
  match x with
  | Some t => if truthy t then t else d
  | None => d
  end.

Definition _extract_price (price_text : option text) : option pyfloat :=
  match price_text with
  | None => None
  | Some price_text =>
      if negb (truthy price_text) then None else
      match search false price_re1 price_text with
      | Some m => Some (PyFloat (group_text 1 m))
      | None =>
          match search false price_re2 price_text with
          | Some m =>
              let euros := group_text 1 m in
              let cents := or_default (group 2 m) (T "00") in
              Some (PyFloat (euros ++ T "." ++ cents))
          | None => None
          end
      end
  end.

(** ** The fallback identifier: [f"WOB-{hash(url) % 10000000:07d}"]

    [hash] of a [str] is the built-in of the Python runtime, not a function
    of the repository.  In CPython 3.11 it is SipHash-1-3 over the
    characters of the string (one byte each for the ASCII text of a URL),
    keyed with a secret [(k0, k1)] that the interpreter draws when the
    process starts (unless [PYTHONHASHSEED] fixes it; seed 0 is the zero
    key).  The empty string hashes to 0 and a result of -1 is replaced by
    -2. *)

Module PyHash.

Definition w64 (x : Z) : Z := x mod 2 ^ 64.

Definition rotl (x b : Z) : Z :=
  w64 (Z.lor (Z.shiftl x b) (Z.shiftr x (64 - b))).

Definition sipstate := (Z * Z * Z * Z)%type.

Definition half_round (a b c d s t : Z) : Z * Z * Z * Z :=
  let a := w64 (a + b) in
  let c := w64 (c + d) in
  let b := Z.lxor (rotl b s) a in
  let d := Z.lxor (rotl d t) c in
  let a := rotl a 32 in
  (a, b, c, d).

Definition single_round (v : sipstate) : sipstate :=
  let '(v0, v1, v2, v3) := v in
  let '(v0, v1, v2, v3) := half_round v0 v1 v2 v3 13 16 in
  let '(v2, v1, v0, v3) := half_round v2 v1 v0 v3 17 21 in
  (v0, v1, v2, v3).

(** Little-endian value of at most eight bytes. *)
Fixpoint le_bytes (bs : text) : Z :=
  match bs with
  | [] => 0
  | c :: bs' => Z.of_nat (code c) + 256 * le_bytes bs'
  end.

Definition absorb (v : sipstate) (mi : Z) : sipstate :=
  let '(v0, v1, v2, v3) := v in
  let '(v0, v1, v2, v3) := single_round (v0, v1, v2, Z.lxor v3 mi) in
  (Z.lxor v0 mi, v1, v2, v3).

(** The loop over whole 8-byte words; returns the state and the tail of
    fewer than eight bytes.  [n] bounds the number of words. *)
Fixpoint blocks (n : nat) (v : sipstate) (src : text) : sipstate * text :=
  match n with
  | O => (v, src)
  | S n' =>
      if (8 <=? List.length src)%nat
      then blocks n' (absorb v (le_bytes (firstn 8 src))) (skipn 8 src)
      else (v, src)
  end.

Definition siphash13 (k0 k1 : Z) (src : text) : Z :=
  let b := w64 (Z.shiftl (Z.of_nat (List.length src)) 56) in
  let v := (Z.lxor k0 0x736f6d6570736575, Z.lxor k1 0x646f72616e646f6d,
            Z.lxor k0 0x6c7967656e657261, Z.lxor k1 0x7465646279746573) in
  let '(v, tail) := blocks (List.length src) v src in
  let b := Z.lor b (le_bytes tail) in
  let '(v0, v1, v2, v3) := absorb v b in
  let v2 := Z.lxor v2 0xff in
  let v := single_round (single_round (single_round (v0, v1, v2, v3))) in
  let '(v0, v1, v2, v3) := v in
  Z.lxor (Z.lxor v0 v1) (Z.lxor v2 v3).

(** The value as a signed 64-bit [Py_hash_t]. *)
Definition signed64 (x : Z) : Z :=
  if x <? 2 ^ 63 then x else x - 2 ^ 64.

Definition str_hash (k0 k1 : Z) (s : text) : Z :=
  match s with
  | [] => 0
  | _ => let x := signed64 (siphash13 k0 k1 s) in
         if x =? -1 then -2 else x
  end.

End PyHash.

Module PyHashSeed.
(** The key that [PYTHONHASHSEED=seed] fixes: for seed 0 the zero key,
    otherwise the first sixteen bytes of a linear congruential stream. *)
Fixpoint lcg_urandom (n : nat) (x : Z) : text :=
  match n with
  | O => []
  | S n' =>
      let x := (x * 214013 + 2531011) mod 2 ^ 32 in
      ascii_of_nat (Z.to_nat (Z.land (Z.shiftr x 16) 255))
        :: lcg_urandom n' x
  end.

Definition key_of_seed (seed : Z) : Z * Z :=
  if seed =? 0 then (0, 0) else
  let bs := lcg_urandom 16 seed in
  (PyHash.le_bytes (firstn 8 bs), PyHash.le_bytes (skipn 8 bs)).
End PyHashSeed.

(** Decimal output of a non-negative integer. *)
Definition digit_char (d : Z) : ascii := ascii_of_nat (48 + Z.to_nat d).

Fixpoint dec_aux (fuel : nat) (n : Z) (acc : text) : text :=
  match fuel with
  | O => acc
  | S fuel' =>
      let acc' := digit_char (n mod 10) :: acc in
      if n <? 10 then acc' else dec_aux fuel' (n / 10) acc'
  end.

(** [str(n)] / [f"{n}"] for [0 <= n]. *)
Definition str_of_int (n : Z) : text :=
  dec_aux (S (Z.to_nat (Z.log2 n))) n [].

(** The [w] low decimal digits of [n], most significant first. *)
Fixpoint zfill_dec (w : nat) (n : Z) : text :=
  match w with
  | O => []
  | S w' => zfill_dec w' (n / 10) ++ [digit_char (n mod 10)]
  end.

(** [f"{n:07d}"] for [0 <= n]: zero-padded to seven digits, longer when
    [n] needs more. *)
Definition format_07d (n : Z) : text :=
  if n <? 10000000 then zfill_dec 7 n else str_of_int n.

Definition fallback_sku (hash : text -> Z) (url : text) : text :=
  T "WOB-" ++ format_07d (hash url mod 10000000).

(** ** Values exchanged with the page *)

(** JSON-serialisable values, as returned by [page.evaluate] and by
    [JSON.parse]. *)
#[warnings="-register-all"]
Inductive json : Type :=
| JNull
| JBool (b : bool)
| JNum (n : Z)
| JStr (s : text)
| JArr (items : list json)
| JObj (fields : list (text * json)).

(** JavaScript truthiness. *)
Definition js_truthy (v : json) : bool :=
  match v with
  | JNull => false
  | JBool b => b
  | JNum n => negb (n =? 0)
  | JStr s => truthy s
  | JArr _ | JObj _ => true
  end.

(** Python truthiness of the value after its transfer to Python. *)
Definition py_truthy (v : json) : bool :=
  match v with
  | JNull => false
  | JBool b => b
  | JNum n => negb (n =? 0)
  | JStr s => truthy s
  | JArr items => match items with [] => false | _ => true end
  | JObj fields => match fields with [] => false | _ => true end
  end.

Fixpoint assoc_last (k : text) (fs : list (text * json)) : option json :=
  match fs with
  | [] => None
  | (k', v) :: fs' =>
      match assoc_last k fs' with
      | Some v' => Some v'
      | None => if text_eqb k k' then Some v else None
      end
  end.

(** [data.key] in JavaScript: [None] when the access throws (on [null]);
    [undefined] is rendered as [JNull], from which the scripts never
    tell it apart. *)
Definition js_get (data : json) (key : text) : option json :=
  match data with
  | JNull => None
  | JObj fields =>
      Some (match assoc_last key fields with Some v => v | None => JNull end)
  | _ => Some JNull
  end.

(** What the in-page scripts read from the document. *)
Record dom : Type := mkDom {
  (** [href] of each [.grid-view-item__link], in document order *)
  grid_links : list text;
  (** [textContent] of the first [[data-sku], .product-single__sku] *)
  sku_element : option text;
  (** the first [script[type="application/ld+json"]]: absent, or the
      result of [JSON.parse] on its content ([None] when it throws) *)
  json_ld : option (option json);
  (** [document.body.textContent] *)
  body_text : text;
  (** [textContent] of [.product-details-wrapper] *)
  details_text : option text;
  (** [src] of the first [.product__media img] *)
  media_img_src : option text;
  (** result of the binding script of [_extract_binding] *)
  binding_result : json;
  (** result of the script of [_extract_publication_details] *)
  publication_result : json
}.

(** *** The in-page scripts *)

(** The script of [_extract_book_links]. *)
Definition links_script (d : dom) : list text := grid_links d.

Definition is_upper_alpha (c : ascii) : bool := in_range "A" "Z" c.

(** [/SKU:\s*([A-Z0-9-]+)/i] *)
Definition sku_re : regex :=
  Cat (lits (T "SKU:"))
      (Cat (Star js_space)
           (Grp 1 (Plus (fun c => is_upper_alpha c || is_digit c
                                  || ascii_eqb c "-")%bool))).

(** [/ISBN[:\s]*(97[89]\d{10}|\d{9}[0-9X])/i] *)
Definition isbn_re : regex :=
  Cat (lits (T "ISBN"))
      (Cat (Star (fun c => ascii_eqb c ":" || js_space c)%bool)
           (Grp 1 (Alt (Cat (lits (T "97"))
                            (Cat (Cls (fun c => ascii_eqb c "8"
                                                || ascii_eqb c "9")%bool)
                                 (Rep 10 is_digit)))
                       (Cat (Rep 9 is_digit)
                            (Cls (fun c => is_digit c
                                           || ascii_eqb c "X")%bool))))).

Definition from_option (v : option text) : json :=
  match v with Some s => JStr s | None => JNull end.

(** The body of the [try] block over the structured data in the script
    of [_extract_sku]: the value it returns, or [None] when it falls
    through or throws. *)
Definition json_ld_sku (data : json) : option json :=
  match js_get data (T "sku") with
  | None => None
  | Some v =>
      if js_truthy v then Some v else
      match js_get data (T "offers") with
      | None => None
      | Some o =>
          if js_truthy o then
            match js_get o (T "sku") with
            | None => None
            | Some v' => if js_truthy v' then Some v' else None
            end
          else None
      end
  end.

Definition json_ld_isbn (data : json) : option json :=
  match js_get data (T "isbn") with
  | None => None
  | Some v => if js_truthy v then Some v else None
  end.

(** [text.match(re)] followed by [match[1].trim()]. *)
Definition match_group1 (re : regex) (txt : text) : option text :=
  match search true re txt with
  | Some m => Some (js_trim (group_text 1 m))
  | None => None
  end.

(** A chain of strategies: the first that yields a value. *)
Fixpoint first_of (strategies : list (option json)) : json :=
  match strategies with
  | [] => JNull
  | Some v :: _ => v
  | None :: rest => first_of rest
  end.

Definition bind_opt {A B : Type} (x : option A) (f : A -> option B)
  : option B :=
  match x with Some a => f a | None => None end.

(** The script of [_extract_sku]. *)
Definition sku_script (d : dom) : json :=
  first_of
    [ option_map (fun t => JStr (js_trim t)) (sku_element d);
      bind_opt (json_ld d) (fun parsed => bind_opt parsed json_ld_sku);
      option_map JStr (match_group1 sku_re (body_text d)) ].

(** The script of [_extract_isbn]. *)
Definition isbn_script (d : dom) : json :=
  first_of
    [ bind_opt (details_text d)
        (fun txt => option_map JStr (match_group1 isbn_re txt));
      bind_opt (json_ld d) (fun parsed => bind_opt parsed json_ld_isbn);
      option_map JStr (match_group1 isbn_re (body_text d)) ].

Definition image_script (d : dom) : json := from_option (media_img_src d).

(** [re.sub(r'[^0-9X]', '', isbn)] *)
Definition keep_isbn_chars (isbn : text) : text :=
  filter (fun c => is_digit c || ascii_eqb c "X")%bool isbn.

(** ** Effects

    The collaborators of the scraper: the browser session of
    [BaseScraper] ([initialize], [new_page], [navigate], [close]), the page
    objects of the browser-automation library, the database functions
    [get_book_by_sku] and [add_book], the logger and the clock.  None of
    them is part of the repository's sources; each is an operation on an
    abstract state of the outside world that returns normally or raises. *)

(** The answer of a collaborator. *)
Inductive reply (A : Type) : Type :=
| Returns (a : A)    (* the call returns a value *)
| Raises.            (* the call raises an exception *)

Arguments Returns {A} a.
Arguments Raises {A}.

(** The outcome of a piece of the scraper. *)
Inductive outcome (A : Type) : Type :=
| Ret (a : A)        (* normal completion with a value *)
| Raise              (* a Python exception (an [Exception]) *)
| Diverge.           (* the loop bound of the model was exhausted *)

Arguments Ret {A} a.
Arguments Raise {A}.
Arguments Diverge {A}.

Record response : Type := mkResponse { ok : bool; status : Z }.

Definition page := nat.
Definition element := nat.

(** The record built by [scrape_book]. *)
Record book_data : Type := mkBook {
  title : text;
  author : text;
  isbn : option text;
  sku : json;
  wob_price : option pyfloat;
  wob_url : text;
  condition : option text;
  binding : json;
  publisher : json;
  publication_year : json;
  description : option text;
  image_url : json
}.

(** The record after [book_data.update({"category": ..., "subcategory":
    None})], as handed to [add_book]. *)
Record book_row : Type := mkRow {
  data : book_data;
  category : text;
  subcategory : option text
}.

Inductive level : Type := DEBUG | INFO | WARNING | ERROR.

Inductive pause : Type := ItemDelay | PageDelay.

(** The calls that leave the scraper, in the order they are made. *)
Inductive event : Type :=
| Initialize
| Close
| NewPage
| Goto (pg : page) (url : text)
| Navigate (pg : page) (url : text)
| WaitForLoadState (pg : page)
| Evaluate (pg : page)
| QuerySelector (pg : page) (selector : text)
| TextContent (el : element)
| PageClose (pg : page)
| GetBookBySku (sku : text)
| AddBook (row : book_row)
| Sleep (p : pause)
| Log (lvl : level) (msg : string).

Record world (W : Type) : Type := mkWorld {
  (** [WOB_TARGET_URL] of the configuration *)
  target_url : text;
  (** the secret of the interpreter's string hash *)
  hash_key : Z * Z;
  (** [self.initialize()]; the value tells whether [self.browser] and
      [self.context] are set afterwards *)
  w_initialize : W -> reply bool * W;
  w_close : W -> reply unit * W;
  w_new_page : W -> reply (option page) * W;
  w_goto : page -> text -> W -> reply (option response) * W;
  w_navigate : page -> text -> W -> reply (option response) * W;
  w_wait_for_load_state : page -> W -> reply unit * W;
  (** the document a script passed to [page.evaluate] runs against *)
  w_evaluate : page -> W -> reply dom * W;
  w_query_selector : page -> text -> W -> reply (option element) * W;
  w_text_content : element -> W -> reply (option text) * W;
  w_page_close : page -> W -> reply unit * W;
  w_get_book_by_sku : text -> W -> reply (option book_row) * W;
  (** [add_book(book_data)]: the new id, or a falsy value *)
  w_add_book : book_row -> W -> reply (option Z) * W
}.

Arguments target_url {W} _.
Arguments hash_key {W} _.
Arguments w_initialize {W} _ _.
Arguments w_close {W} _ _.
Arguments w_new_page {W} _ _.
Arguments w_goto {W} _ _ _ _.
Arguments w_navigate {W} _ _ _ _.
Arguments w_wait_for_load_state {W} _ _ _.
Arguments w_evaluate {W} _ _ _.
Arguments w_query_selector {W} _ _ _ _.
Arguments w_text_content {W} _ _ _.
Arguments w_page_close {W} _ _ _.
Arguments w_get_book_by_sku {W} _ _ _.
Arguments w_add_book {W} _ _ _.

(** The state of a run: the outside world, the calls made so far (the
    most recent first), and the local variables of [scrape_new_arrivals]
    that outlive an exception. *)
Record state (W : Type) : Type := mkState {
  outside : W;
  trace : list event;
  scraped_count : Z;
  skipped_count : Z;
  page_num : Z
}.

Arguments mkState {W} _ _ _ _ _.
Arguments outside {W} _.
Arguments trace {W} _.
Arguments scraped_count {W} _.
Arguments skipped_count {W} _.
Arguments page_num {W} _.

Definition M (W A : Type) : Type := state W -> outcome A * state W.

Section Monad.
Context {W : Type}.

Definition ret {A : Type} (a : A) : M W A := fun s => (Ret a, s).

Definition bind {A B : Type} (m : M W A) (k : A -> M W B) : M W B :=
  fun s =>
    match m s with
    | (Ret a, s') => k a s'
    | (Raise, s') => (Raise, s')
    | (Diverge, s') => (Diverge, s')
    end.

(** [try: m  except Exception: h] *)
Definition try_except {A : Type} (m : M W A) (h : M W A) : M W A :=
  fun s =>
    match m s with
    | (Raise, s') => h s'
    | r => r
    end.

(** [try: m  finally: f] *)
Definition try_finally {A : Type} (m : M W A) (f : M W unit) : M W A :=
  fun s =>
    match m s with
    | (Diverge, s') => (Diverge, s')
    | (r, s') =>
        match f s' with
        | (Ret _, s'') => (r, s'')
        | (Raise, s'') => (Raise, s'')
        | (Diverge, s'') => (Diverge, s'')
        end
    end.

Definition diverge {A : Type} : M W A := fun s => (Diverge, s).

(** A call to a collaborator: it is recorded, then answered by the
    outside world. *)
Definition answered {A : Type} (r : reply A) : outcome A :=
  match r with Returns a => Ret a | Raises => Raise end.

Definition call {A : Type} (e : event) (op : W -> reply A * W)
  : M W A :=
  fun s =>
    (answered (fst (op (outside s))),
     mkState (snd (op (outside s))) (e :: trace s)
             (scraped_count s) (skipped_count s) (page_num s)).

Definition raise {A : Type} : M W A := fun s => (Raise, s).

Definition emit (e : event) : M W unit :=
  fun s =>
    (Ret tt, mkState (outside s) (e :: trace s)
                     (scraped_count s) (skipped_count s) (page_num s)).

Definition get {A : Type} (f : state W -> A) : M W A :=
  fun s => (Ret (f s), s).

Definition modify (f : state W -> state W) : M W unit :=
  fun s => (Ret tt, f s).
End Monad.

Declare Scope py_scope.
Delimit Scope py_scope with py.
Notation "x <- m ;; k" := (bind m (fun x => k))
  (at level 61, m at next level, right associativity) : py_scope.
Notation "m ;; k" := (bind m (fun _ => k))
  (at level 61, right associativity) : py_scope.
Local Open Scope py_scope.
Local Open Scope string_scope.

(** ** The scraper: [class WorldOfBooksScraper] *)

Definition title_selector : text := T "h1.product__title".
Definition price_selector : text := T ".price-item--regular".

Section Scraper.
Context {W : Type} (wd : world W).

(** *** Collaborator calls *)

Definition initialize : M W bool := call Initialize (w_initialize wd).
Definition close : M W unit := call Close (w_close wd).
Definition new_page : M W (option page) := call NewPage (w_new_page wd).
Definition goto (pg : page) (url : text) : M W (option response) :=
  call (Goto pg url) (w_goto wd pg url).
Definition navigate (pg : page) (url : text) : M W (option response) :=
  call (Navigate pg url) (w_navigate wd pg url).
Definition wait_for_load_state (pg : page) : M W unit :=
  call (WaitForLoadState pg) (w_wait_for_load_state wd pg).
Definition query_selector (pg : page) (selector : text)
  : M W (option element) :=
  call (QuerySelector pg selector) (w_query_selector wd pg selector).
Definition text_content (el : element) : M W (option text) :=
  call (TextContent el) (w_text_content wd el).
Definition page_close (pg : page) : M W unit :=
  call (PageClose pg) (w_page_close wd pg).
Definition get_book_by_sku (sku : text) : M W (option book_row) :=
  call (GetBookBySku sku) (w_get_book_by_sku wd sku).
Definition add_book (row : book_row) : M W (option Z) :=
  call (AddBook row) (w_add_book wd row).
Definition sleep (p : pause) : M W unit := emit (Sleep p).
Definition log (lvl : level) (msg : string) : M W unit :=
  emit (Log lvl msg).

(** [page.evaluate(script)]: the script runs against the document the
    page holds at that moment. *)
Definition evaluate {A : Type} (pg : page) (script : dom -> A) : M W A :=
  d <- call (Evaluate pg) (w_evaluate wd pg) ;; ret (script d).

(** [hash] of the running interpreter. *)
Definition py_hash (s : text) : Z :=
  PyHash.str_hash (fst (hash_key wd)) (snd (hash_key wd)) s.

(** *** [_get_text] *)

Definition _get_text (pg : page) (selector : text) : M W (option text) :=
  try_except
    (el <- query_selector pg selector ;;
     match el with
     | Some el =>
         txt <- text_content el ;;
         ret (match txt with
              | Some t => if truthy t then Some (py_strip t) else None
              | None => None
              end)
     | None =>
         log DEBUG "No element found for selector" ;; ret None
     end)
    (log DEBUG "Error getting text" ;; ret None).

(** *** [_is_book_in_database] *)

Definition _is_book_in_database (sku : text) : M W bool :=
  if negb (truthy sku) then ret false else
  book <- get_book_by_sku sku ;;
  ret (match book with Some _ => true | None => false end).

(** *** [_extract_sku] *)

Definition _extract_sku (pg : page) (url : text) : M W json :=
  let after_url : M W json :=
    found <- try_except
               (sku <- evaluate pg sku_script ;;
                ret (if py_truthy sku then Some sku else None))
               (log WARNING "Error extracting SKU" ;; ret None) ;;
    match found with
    | Some sku => ret sku
    | None =>
        let fallback := fallback_sku py_hash url in
        log WARNING "Using fallback SKU" ;;
        ret (JStr fallback)
    end in
  match _extract_sku_from_url url with
  | Some sku => if truthy sku then ret (JStr sku) else after_url
  | None => after_url
  end.

(** *** [_extract_isbn] *)

(** [re.sub] raises [TypeError] on a value that is not a string. *)
Definition re_sub_isbn (v : json) : M W text :=
  match v with
  | JStr s => ret (keep_isbn_chars s)
  | _ => raise
  end.

Definition _extract_isbn (pg : page) : M W (option text) :=
  try_except
    (v <- evaluate pg isbn_script ;;
     if py_truthy v
     then (cleaned <- re_sub_isbn v ;; ret (Some cleaned))
     else ret None)
    (log WARNING "Error extracting ISBN" ;; ret None).

(** *** [_extract_binding] *)

Definition _extract_binding (pg : page) : M W json :=
  try_except
    (evaluate pg binding_result)
    (log WARNING "Error extracting binding" ;; ret JNull).

(** *** [_extract_publication_details] *)

(** [d.get(key)]: raises [AttributeError] unless [d] is a [dict]. *)
Definition dict_get (d : json) (key : text) : M W json :=
  match d with
  | JObj fields =>
      ret (match assoc_last key fields with Some v => v | None => JNull end)
  | _ => raise
  end.

Definition _extract_publication_details (pg : page) : M W (json * json) :=
  try_except
    (publication_info <- evaluate pg publication_result ;;
     publisher <- dict_get publication_info (T "publisher") ;;
     publication_year <- dict_get publication_info (T "year") ;;
     ret (publisher, publication_year))
    (log WARNING "Error extracting publication details" ;;
     ret (JNull, JNull)).

(** *** [_extract_book_links] *)

Definition _extract_book_links (pg : page) : M W (list text) :=
  try_except
    (evaluate pg links_script)
    (log ERROR "Error extracting book links" ;; ret []).

(** *** [scrape_book] *)

Definition response_ok (r : option response) : bool :=
  match r with Some r => ok r | None => false end.

Definition truthy_opt (x : option text) : bool :=
  match x with Some t => truthy t | None => false end.

(** The [try] block of [scrape_book], with its handler: the extraction
    from the loaded item page. *)
Definition extract_details (book_page : page) (book_url : text)
  : M W (option book_data) :=
  try_except
    (wait_for_load_state book_page ;;
     sku <- _extract_sku book_page book_url ;;
     title <- _get_text book_page title_selector ;;
     if negb (truthy_opt title) then
       log WARNING "No title found" ;;
       page_close book_page ;;
       ret None
     else
       let title := or_default title [] in
       author_text <- _get_text book_page (T ".product-author") ;;
       let author := or_default author_text (T "Unknown") in
       price_text <- _get_text book_page price_selector ;;
       let price := _extract_price price_text in
       isbn <- _extract_isbn book_page ;;
       condition <- _get_text book_page (T ".product-condition-text") ;;
       binding <- _extract_binding book_page ;;
       description <- _get_text book_page (T ".product__description") ;;
       image_url <- evaluate book_page image_script ;;
       pub <- _extract_publication_details book_page ;;
       let book_data :=
         mkBook title author isbn sku price book_url
                condition binding (fst pub) (snd pub)
                description image_url in
       page_close book_page ;;
       ret (Some book_data))
    (log ERROR "Error extracting book details" ;;
     page_close book_page ;;
     ret None).

Definition scrape_book (book_url : text) : M W (option book_data) :=
  log DEBUG "Scraping book" ;;
  book_page <- new_page ;;
  match book_page with
  | None => log ERROR "Failed to create page" ;; ret None
  | Some book_page =>
      response <- navigate book_page book_url ;;
      if negb (response_ok response) then
        log WARNING "Failed to load book page" ;;
        page_close book_page ;;
        ret None
      else extract_details book_page book_url
  end.

(** *** [scrape_new_arrivals] *)

Definition incr_scraped : M W unit :=
  modify (fun s => mkState (outside s) (trace s) (scraped_count s + 1)
                           (skipped_count s) (page_num s)).

Definition incr_skipped : M W unit :=
  modify (fun s => mkState (outside s) (trace s) (scraped_count s)
                           (skipped_count s + 1) (page_num s)).

Definition incr_page_num : M W unit :=
  modify (fun s => mkState (outside s) (trace s) (scraped_count s)
                           (skipped_count s) (page_num s + 1)).

Definition set_locals (scraped skipped pn : Z) : M W unit :=
  modify (fun s => mkState (outside s) (trace s) scraped skipped pn).

(** [book_id] is truthy: an id other than 0. *)
Definition truthy_id (book_id : option Z) : bool :=
  match book_id with Some n => negb (n =? 0)%Z | None => false end.

Definition rare_non_fiction (bd : book_data) : book_row :=
  mkRow bd (T "Rare Non-Fiction") None.

(** The body of [for book_url in book_links] for one link, from the
    dedup check to the end of the iteration. *)
(** The condition [sku and await self._is_book_in_database(sku)] on
    the identifier taken from the URL. *)
Definition already_known (book_url : text) : M W bool :=
  match _extract_sku_from_url book_url with
  | Some sku => if truthy sku then _is_book_in_database sku else ret false
  | None => ret false
  end.

(** The [try] block of the loop body, with its handler: extraction of
    the item and hand-over to [add_book]. *)
Definition attempt_item (book_url : text) : M W unit :=
  try_except
    (book_data <- scrape_book book_url ;;
     match book_data with
     | Some bd =>
         if truthy (title bd) then
           book_id <- add_book (rare_non_fiction bd) ;;
           if truthy_id book_id then
             incr_scraped ;;
             log INFO "Added book"
           else ret tt
         else ret tt
     | None => ret tt
     end)
    (log ERROR "Error processing book").

Definition process_link (book_url : text) : M W unit :=
  known <- already_known book_url ;;
  if known then
    log DEBUG "Book with SKU already exists. Skipping." ;;
    incr_skipped
  else
    sleep ItemDelay ;;
    attempt_item book_url.

(** [for book_url in book_links: ...] *)
Fixpoint item_loop (max_books : Z) (book_links : list text) : M W unit :=
  match book_links with
  | [] => ret tt
  | book_url :: rest =>
      scraped <- get scraped_count ;;
      if (max_books <=? scraped)%Z then ret tt
      else process_link book_url ;; item_loop max_books rest
  end.

Definition contains (c : ascii) (s : text) : bool :=
  existsb (ascii_eqb c) s.

Definition current_page_url (pn : Z) : text :=
  if (1 <? pn)%Z then
    if contains "?" (target_url wd)
    then (target_url wd ++ T "&page=" ++ str_of_int pn)%list
    else (target_url wd ++ T "?page=" ++ str_of_int pn)%list
  else target_url wd.

(** The head of the body of the [while] loop: the listing page of the
    current page number is requested and its item links are read.
    [None]: the loop is left with [break]. *)
Definition load_listing (pg : page) : M W (option (list text)) :=
  pn <- get page_num ;;
  log INFO "Navigating to page" ;;
  response <- goto pg (current_page_url pn) ;;
  match response with
  | None => log ERROR "Goto returned None - aborting" ;; ret None
  | Some r =>
      if negb (ok r) then
        log WARNING "Failed to load page. Stopping." ;; ret None
      else
        log INFO "Page loaded with status" ;;
        wait_for_load_state pg ;;
        log DEBUG "Page fully loaded" ;;
        book_links <- _extract_book_links pg ;;
        match book_links with
        | [] => log INFO "No book links found. Stopping." ;; ret None
        | _ => log INFO "Found books on page" ;; ret (Some book_links)
        end
  end.

(** The end of the body of the [while] loop, taken when the budget is
    not yet reached. *)
Definition turn_page : M W unit :=
  incr_page_num ;;
  log INFO "Moving to next page" ;;
  sleep PageDelay.

(** [while scraped_count < max_books: ...]; [fuel] bounds the number of
    listing pages requested. *)
Fixpoint crawl_loop (fuel : nat) (pg : page) (max_books : Z) : M W unit :=
  match fuel with
  | O => scraped <- get scraped_count ;;
         if (scraped <? max_books)%Z then diverge else ret tt
  | S fuel' =>
      scraped <- get scraped_count ;;
      if negb (scraped <? max_books)%Z then ret tt else
      listing <- load_listing pg ;;
      match listing with
      | None => ret tt
      | Some book_links =>
          item_loop max_books book_links ;;
          scraped <- get scraped_count ;;
          if (scraped <? max_books)%Z then
            turn_page ;;
            crawl_loop fuel' pg max_books
          else ret tt
      end
  end.

(** The [try]/[except]/[finally] statement of [scrape_new_arrivals].
    [Some v]: it was left by [return v]. *)
Definition crawl_session (fuel : nat) (max_books : Z) : M W (option Z) :=
  try_finally
    (try_except
       (log DEBUG "Creating new page" ;;
        pg <- new_page ;;
        match pg with
        | None =>
            log ERROR "Failed to create new page" ;;
            close ;;
            ret (Some 0%Z)
        | Some pg =>
            log DEBUG "Page created successfully" ;;
            crawl_loop fuel pg max_books ;;
            page_close pg ;;
            ret None
        end)
       (log ERROR "Error during scraping" ;; ret None))
    close.

(** The value of the call is the [int] the function returns. *)
Definition scrape_new_arrivals (fuel : nat) (max_books : Z) : M W Z :=
  log INFO "Starting to scrape new arrivals" ;;
  ready <- initialize ;;
  if negb ready then
    log ERROR "Browser or context failed to initialize" ;;
    close ;;
    ret 0%Z
  else
    set_locals 0 0 1 ;;
    early <- crawl_session fuel max_books ;;
    match early with
    | Some v => ret v
    | None =>
        log INFO "Completed scraping" ;;
        get scraped_count
    end.

(** [scrape]: the implementation of the abstract method. *)
Definition scrape (fuel : nat) (max_books : Z) : M W Z :=
  scrape_new_arrivals fuel max_books.

End Scraper.

Local Close Scope string_scope.

(** ** A simulated outside world

    A fixed web site and an in-memory table of books, for running the
    scraper on concrete inputs. *)

Record web_page : Type := mkPage {
  page_dom : dom;
  (** the text of the first element matching a selector *)
  page_text : text -> option text
}.

Record site : Type := mkSite {
  site_target : text;
  (** the page served at a URL, if any *)
  site_page : text -> option web_page;
  (** URLs at which navigation raises (time-out) *)
  site_broken : text -> bool
}.

Record sim : Type := mkSim {
  sim_db : list book_row;            (* the rows of the table *)
  sim_at : list (page * text);       (* the URL each page shows *)
  sim_pages : nat;                   (* pages opened so far *)
  sim_elems : list text              (* text of the element handles *)
}.

Definition sku_is (s : text) (row : book_row) : bool :=
  match sku (data row) with JStr t => text_eqb s t | _ => false end.

Fixpoint shown (pg : page) (at_ : list (page * text)) : option text :=
  match at_ with
  | [] => None
  | (p, u) :: rest => if Nat.eqb p pg then Some u else shown pg rest
  end.

Definition sim_load (st : site) (pg : page) (url : text) (w : sim)
  : reply (option response) * sim :=
  if site_broken st url then (Raises, w) else
  match site_page st url with
  | Some _ =>
      (Returns (Some (mkResponse true 200)),
       mkSim (sim_db w) ((pg, url) :: sim_at w) (sim_pages w) (sim_elems w))
  | None => (Returns (Some (mkResponse false 404)), w)
  end.

Definition sim_current (st : site) (pg : page) (w : sim) : option web_page :=
  match shown pg (sim_at w) with
  | Some url => site_page st url
  | None => None
  end.

Definition sim_world (st : site) (key : Z * Z) : world sim :=
  mkWorld sim
    (site_target st)
    key
    (fun w => (Returns true, w))
    (fun w => (Returns tt, w))
    (fun w => (Returns (Some (sim_pages w)),
               mkSim (sim_db w) (sim_at w) (S (sim_pages w)) (sim_elems w)))
    (sim_load st)
    (sim_load st)
    (fun pg w => (Returns tt, w))
    (fun pg w =>
       match sim_current st pg w with
       | Some p => (Returns (page_dom p), w)
       | None => (Raises, w)
       end)
    (fun pg selector w =>
       match sim_current st pg w with
       | Some p =>
           match page_text p selector with
           | Some t =>
               (Returns (Some (List.length (sim_elems w))),
                mkSim (sim_db w) (sim_at w) (sim_pages w)
                      (sim_elems w ++ [t]))
           | None => (Returns None, w)
           end
       | None => (Raises, w)
       end)
    (fun el w =>
       match nth_error (sim_elems w) el with
       | Some t => (Returns (Some t), w)
       | None => (Raises, w)
       end)
    (fun pg w => (Returns tt, w))
    (fun s w => (Returns (find (sku_is s) (sim_db w)), w))
    (fun row w =>
       match sku (data row) with
       | JStr s =>
           if existsb (sku_is s) (sim_db w) then (Returns None, w)
           else (Returns (Some (Z.of_nat (S (List.length (sim_db w))))),
                 mkSim (sim_db w ++ [row]) (sim_at w) (sim_pages w)
                       (sim_elems w))
       | _ => (Raises, w)
       end).

Definition sim_start (db : list book_row) : state sim :=
  mkState (mkSim db [] 0 []) [] 0 0 1.

(** *** A small shop *)

Definition no_publication : json :=
  JObj [(T "publisher", JNull); (T "year", JNull)].

(** A listing page with the given item links. *)
Definition listing_page (links : list text) : web_page :=
  mkPage (mkDom links None None [] None None JNull no_publication)
         (fun _ => None).

(** An item page: its title and price elements, an optional identifier
    element, and the text of its details container. *)
Definition item_page (title price sku_el details : option text) : web_page :=
  mkPage (mkDom [] sku_el None
                (match details with Some t => t | None => [] end)
                details None JNull no_publication)
         (fun selector =>
            if text_eqb selector title_selector then title
            else if text_eqb selector price_selector then price
            else None).

Fixpoint lookup_page (url : text) (pages : list (text * web_page))
  : option web_page :=
  match pages with
  | [] => None
  | (u, p) :: rest => if text_eqb url u then Some p else lookup_page url rest
  end.

Definition shop (target : text) (pages : list (text * web_page))
  (broken : list text) : site :=
  mkSite target (fun url => lookup_page url pages)
         (fun url => existsb (text_eqb url) broken).

(** A row already in the table, known under the identifier [s]. *)
Definition stored (s : text) : book_row :=
  mkRow (mkBook (T "Walden") (T "Unknown") None (JStr s) None [] None
                JNull JNull JNull None JNull)
        (T "Rare Non-Fiction") None.

(** The state in which page [0] shows [url]. *)
Definition sim_showing (url : text) (db : list book_row) : state sim :=
  mkState (mkSim db [(0%nat, url)] 1 []) [] 0 0 1.

(** *** The shops of the examples *)

Definition shop_target : text :=
  T "https://www.wob.com/en-ie/collections/rare".

Definition moby_url : text :=
  T "https://www.wob.com/en-ie/books/moby-dick/9780142437247".
Definition walden_url : text :=
  T "https://www.wob.com/en-ie/books/walden/9780691096124".
Definition ulysses_url : text :=
  T "https://www.wob.com/en-ie/books/ulysses/9780199535675".
Definition short_url : text := T "https://www.wob.com/p/4711".
Definition two_isbn_url : text := T "https://www.wob.com/en-ie/books/set/1234".

(** Three links on the first listing page, none on the second. *)
Definition three_link_shop : site :=
  shop shop_target
       [(shop_target, listing_page [moby_url; walden_url; ulysses_url]);
        (shop_target ++ T "?page=2", listing_page []);
        (moby_url,
         item_page (Some (T "Moby Dick")) (Some (euro ++ T "9.99")) None None);
        (walden_url,
         item_page (Some (T "Walden")) (Some (T "12.50")) None None);
        (ulysses_url,
         item_page (Some (T "Ulysses")) (Some (T "20")) None None)]
       [].

(** A table that already holds the second of them. *)
Definition walden_known : list book_row := [stored (T "9780691096124")].

(** A shop one of whose item pages times out. *)
Definition flaky_shop : site :=
  shop shop_target
       [(shop_target, listing_page [moby_url; walden_url; ulysses_url]);
        (shop_target ++ T "?page=2", listing_page []);
        (moby_url,
         item_page (Some (T "Moby Dick")) (Some (euro ++ T "9.99")) None None);
        (ulysses_url,
         item_page (Some (T "Ulysses")) (Some (T "20")) None None)]
       [moby_url].

(** A shop one of whose item pages has no title element. *)
Definition untitled_shop : site :=
  shop shop_target
       [(shop_target, listing_page [moby_url]);
        (moby_url, item_page None (Some (euro ++ T "9.99")) None None)]
       [].

(** An item whose link ends in a short segment and whose page names no
    identifier. *)
Definition anonymous_page : web_page :=
  item_page (Some (T "An Untraceable Pamphlet")) None None None.

Definition anonymous_shop : site :=
  shop shop_target [(short_url, anonymous_page)] [].

(** An item whose link ends in a short segment and whose page names an
    identifier that the table already holds. *)
Definition resold_page : web_page :=
  item_page (Some (T "Walden")) (Some (euro ++ T "7.00"))
            (Some (T "9780691096124")) None.

Definition resold_shop : site :=
  shop shop_target
       [(shop_target, listing_page [short_url]);
        (short_url, resold_page)] [].





(** A listing of eight items. *)
Definition eight_links : list text :=
  map (fun n => T "https://www.wob.com/en-ie/books/volume/100000" ++ [n])
      (T "12345678").

Definition eight_link_shop : site :=
  shop shop_target
       ((shop_target, listing_page eight_links)
          :: map (fun u => (u, item_page (Some (T "A Volume"))
                                         (Some (euro ++ T "5.00")) None None))
                 eight_links)
       [].

(** ** Vocabulary of the statements *)

(** *** Text *)

Definition digit (c : ascii) : Prop := is_digit c = true.

(** A decimal literal [e.cc]: digits, a point, two digits. *)
Definition amount (lit : text) : Prop :=
  exists e c1 c2,
    lit = e ++ ["."%char; c1; c2] /\ e <> [] /\ Forall digit e /\
    digit c1 /\ digit c2.




(** The characters [re.sub(r'[^0-9X]', '', _)] leaves. *)
Definition isbn_char (c : ascii) : Prop := digit c \/ c = "X"%char.


(** The final path segment of a URL, as [_extract_sku_from_url] cuts it. *)
Definition last_segment (url : text) : text :=
  last (split_on "/" (strip_by (ascii_eqb "/") url)) [].

(** *** States *)

(** The state after a collaborator call [e] answered by [op]. *)
Definition called {W A : Type} (e : event) (op : W -> reply A * W)
  (s : state W) : state W :=
  mkState (snd (op (outside s))) (e :: trace s)
          (scraped_count s) (skipped_count s) (page_num s).

(** The state after the event [e] that no collaborator answers. *)
Definition logged {W : Type} (e : event) (s : state W) : state W :=
  mkState (outside s) (e :: trace s)
          (scraped_count s) (skipped_count s) (page_num s).

(** The state after [scraped_count += 1]. *)
Definition bump_scraped {W : Type} (s : state W) : state W :=
  mkState (outside s) (trace s) (scraped_count s + 1)
          (skipped_count s) (page_num s).

(** The state after [turn_page]. *)
Definition turned {W : Type} (s : state W) : state W :=
  logged (Sleep PageDelay)
    (logged (Log INFO "Moving to next page")
       (mkState (outside s) (trace s) (scraped_count s) (skipped_count s)
                (page_num s + 1))).

(** The state after the dedup check found the identifier [sku_] of the
    link in the table. *)
Definition after_skip {W : Type} (wd : world W) (sku_ : text) (s : state W)
  : state W :=
  mkState (snd (w_get_book_by_sku wd sku_ (outside s)))
          (Log DEBUG "Book with SKU already exists. Skipping."
             :: GetBookBySku sku_ :: trace s)
          (scraped_count s) (skipped_count s + 1) (page_num s).

(** The state in which the attempt at a link starts: after the dedup
    check and the pause. *)
Definition before_attempt {W : Type} (wd : world W) (url : text)
  (s : state W) : state W :=
  logged (Sleep ItemDelay) (snd (already_known wd url s)).

(** The state in which the [while] loop is entered, when the session and
    the page [pg] could be opened. *)
Definition session_ready {W : Type} (wd : world W) (s : state W) : state W :=
  let s1 := called Initialize (w_initialize wd)
              (logged (Log INFO "Starting to scrape new arrivals") s) in
  mkState (outside s1) (trace s1) 0 0 1.

Definition loop_entry {W : Type} (wd : world W) (s : state W) : state W :=
  logged (Log DEBUG "Page created successfully")
    (called NewPage (w_new_page wd)
       (logged (Log DEBUG "Creating new page") (session_ready wd s))).

(** *** Relations between states *)

Section Vocabulary.
Context {W : Type}.

(** The local counters are unchanged. *)
Definition same_locals (s s' : state W) : Prop :=
  scraped_count s' = scraped_count s /\
  skipped_count s' = skipped_count s /\
  page_num s' = page_num s.

(** From [s] to [s'] only calls accepted by [P] were made. *)
Definition emits (P : event -> bool) (s s' : state W) : Prop :=
  exists evs, trace s' = evs ++ trace s /\ Forall (fun e => P e = true) evs.

Definition quiet (P : event -> bool) (s s' : state W) : Prop :=
  same_locals s s' /\ emits P s s'.

(** [m] stays within the relation [R]. *)
Definition keeps {A : Type} (R : state W -> state W -> Prop) (m : M W A)
  : Prop :=
  forall s, R s (snd (m s)).

(** [m] neither exhausts the loop bound nor leaves the relation [R]. *)
Definition safe {A : Type} (R : state W -> state W -> Prop) (m : M W A)
  : Prop :=
  forall s, fst (m s) <> Diverge /\ R s (snd (m s)).
End Vocabulary.

(** *** Kinds of calls *)

Definition is_add_book (e : event) : bool :=
  match e with AddBook _ => true | _ => false end.

Definition is_lookup (e : event) : bool :=
  match e with GetBookBySku _ => true | _ => false end.

(** The calls made while one item page is scraped: page-level calls and
    log lines. *)
Definition page_call (e : event) : bool :=
  match e with
  | NewPage | Navigate _ _ | WaitForLoadState _ | Evaluate _
  | QuerySelector _ _ | TextContent _ | PageClose _ | Log _ _ => true
  | _ => false
  end.


(** The calls of one attempt at an item, a row handed to [add_book]
    having a title. *)
Definition titled_item_call (e : event) : bool :=
  match e with
  | AddBook row => truthy (title (data row))
  | _ => page_call e
  end.

(** Every row handed to [add_book] has a title. *)
Definition titled_add (e : event) : bool :=
  match e with
  | AddBook row => truthy (title (data row))
  | _ => true
  end.

(** The calls made while a listing page is loaded: page-level calls,
    and the request of the listing itself. *)
Definition listing_call (e : event) : bool :=
  match e with
  | Goto _ _ => true
  | _ => page_call e
  end.

(** *** Conditions on the outside world *)

(** The page offers no identifier: the script of [_extract_sku] fails or
    returns a falsy value. *)
Definition no_page_sku {W : Type} (wd : world W) (pg : page) (s : state W)
  : Prop :=
  match fst (w_evaluate wd pg (outside s)) with
  | Returns d => py_truthy (sku_script d) = false
  | Raises => True
  end.

(** The title element yields nothing, in whatever state it is asked
    for: [_get_text] never returns a non-empty title. *)
Definition no_title {W : Type} (wd : world W) : Prop :=
  forall pg s t,
    fst (_get_text wd pg title_selector s) = Ret (Some t) ->
    truthy t = false.

(** The answer of [add_book] carries no new id: a falsy value, or an
    exception (a duplicate-key error). *)
Definition rejected (r : reply (option Z)) : Prop :=
  match r with
  | Returns book_id => truthy_id book_id = false
  | Raises => True
  end.

(** Listing page [n] never yields item links: it fails to load or is
    empty, whenever it is requested. *)
Definition catalog_ends {W : Type} (wd : world W) (n : Z) : Prop :=
  forall pg s links,
    page_num s = n -> fst (load_listing wd pg s) <> Ret (Some links).

(** [close] does not raise. *)
Definition close_is_safe {W : Type} (wd : world W) : Prop :=
  forall w, fst (w_close wd w) <> Raises.

(** Closing a page does not raise. *)
Definition page_close_is_safe {W : Type} (wd : world W) : Prop :=
  forall pg w, fst (w_page_close wd pg w) <> Raises.

(** The session and the page [pg] can be opened from state [s]. *)
Definition opened {W : Type} (wd : world W) (s : state W) (pg : page)
  : Prop :=
  fst (w_initialize wd
         (outside (logged (Log INFO "Starting to scrape new arrivals") s)))
  = Returns true /\
  fst (w_new_page wd
         (outside (logged (Log DEBUG "Creating new page")
                     (session_ready wd s))))
  = Returns (Some pg).

(** *** The loops *)

(** What the item loop does to the state of a run with budget
    [max_books]. *)
Definition link_rel {W : Type} (max_books : Z) (s s' : state W) : Prop :=
  emits titled_add s s' /\
  page_num s' = page_num s /\
  skipped_count s <= skipped_count s' /\
  scraped_count s <= scraped_count s' /\
  (scraped_count s <= max_books -> scraped_count s' <= max_books).

(** What the pagination loop does to it. *)
Definition run_rel {W : Type} (max_books : Z) (s s' : state W) : Prop :=
  emits titled_add s s' /\
  page_num s <= page_num s' /\
  skipped_count s <= skipped_count s' /\
  scraped_count s <= scraped_count s' /\
  (scraped_count s <= max_books -> scraped_count s' <= max_books).





(** ** Further vocabulary *)

(** *** Prices *)





(** *** Addresses *)

Definition slash : ascii := "/"%char.

Definition no_slash (t : text) : Prop := Forall (fun c => c <> slash) t.


(** *** Decimal numerals *)

(** The number a text of decimal digits denotes. *)
Definition decimal_step (a : Z) (c : ascii) : Z :=
  10 * a + (Z.of_nat (code c) - 48).

Definition decimal_value (t : text) : Z := fold_left decimal_step t 0.

(** *** ISBNs *)







(** *** Item pages *)



(** What every record that [scrape_book] returns satisfies. *)
Definition well_formed (book_url : text) (bd : book_data) : Prop :=
  wob_url bd = book_url /\
  truthy (title bd) = true /\ py_strip (title bd) = title bd /\
  truthy (author bd) = true /\ py_strip (author bd) = author bd /\
  py_truthy (sku bd) = true /\
  match wob_price bd with
  | Some (PyFloat lit) => amount lit
  | None => True
  end /\
  match isbn bd with
  | Some r => Forall isbn_char r
  | None => True
  end.

(** *** A table that cannot be reached *)

(** The world [wd] with a table whose look-up raises. *)
Definition offline_table {W : Type} (wd : world W) : world W :=
  mkWorld W
    (target_url wd) (hash_key wd)
    (w_initialize wd) (w_close wd) (w_new_page wd)
    (w_goto wd) (w_navigate wd) (w_wait_for_load_state wd)
    (w_evaluate wd) (w_query_selector wd) (w_text_content wd)
    (w_page_close wd)
    (fun _ w => (Raises, w))
    (w_add_book wd).

(** *** The calls of a run *)

(** Calls and log lines on a document that is already loaded. *)
Definition field_call (e : event) : bool :=
  match e with
  | WaitForLoadState _ | Evaluate _ | QuerySelector _ _ | TextContent _
  | PageClose _ | Log _ _ => true
  | _ => false
  end.

(** The calls made while a listing page is loaded. *)
Definition listing_step (e : event) : bool :=
  match e with
  | Goto _ _ => true
  | _ => field_call e
  end.

(** The calls of a run that are made outside the loading of a listing
    page and outside the iterations of the item loop. *)
Definition session_call (e : event) : bool :=
  match e with
  | Initialize | Close | NewPage | PageClose _ | Sleep PageDelay
  | Log _ _ => true
  | _ => false
  end.

(** A call that is neither the visit of an item page nor the hand-over
    of a row. *)
Definition plain_call (e : event) : bool :=
  match e with
  | Navigate _ _ | AddBook _ => false
  | _ => true
  end.

(** The calls of an iteration that ends at the dedup check. *)
Definition skip_call (e : event) : bool :=
  match e with
  | GetBookBySku _ | Log _ _ => true
  | _ => false
  end.

(** The look-up the dedup check makes for a link. *)
Definition lookup_of (url : text) : list event :=
  match _extract_sku_from_url url with
  | Some sku_ => [GetBookBySku sku_]
  | None => []
  end.

(** The calls that come directly before the visit of [url], the most
    recent first: the page is opened, after the pause between items,
    after the look-up of the identifier of the link (if it has one).
    [Sleep ItemDelay] is the whole pause of the loop body: the delay is
    drawn, written to the debug log and slept. *)
Definition before_visit (url : text) (earlier : list event) : Prop :=
  exists rest,
    earlier = NewPage :: Log DEBUG "Scraping book" :: Sleep ItemDelay
                :: lookup_of url ++ rest.

(** Every visit of an item page in [evs] is prepared in this way. *)
Fixpoint orderly (evs : list event) : Prop :=
  match evs with
  | [] => True
  | e :: earlier =>
      match e with
      | Navigate _ url => before_visit url earlier
      | _ => True
      end /\ orderly earlier
  end.

(** A row handed to [add_book] is a well-formed record filed under
    "Rare Non-Fiction". *)
Definition stored_row (e : event) : Prop :=
  match e with
  | AddBook row =>
      exists bd, row = rare_non_fiction bd /\ well_formed (wob_url bd) bd
  | _ => True
  end.

(** The end of an attempt: log lines, and the hand-over of such a
    row. *)
Definition hand_over (e : event) : Prop :=
  match e with
  | AddBook _ => stored_row e
  | Log _ _ => True
  | _ => False
  end.

(** From [s] to [s'] the calls made form a sequence accepted by [G]. *)
Definition sends {W : Type} (G : list event -> Prop) (s s' : state W)
  : Prop :=
  exists evs, trace s' = evs ++ trace s /\ G evs.

(** A request of a listing page goes to the address of a page of the
    configured listing. *)
Definition on_target {W : Type} (wd : world W) (e : event) : Prop :=
  match e with
  | Goto _ url => exists n, 1 <= n /\ url = current_page_url wd n
  | _ => True
  end.

(** *** More shops and worlds *)

(** An item page whose identifier element is blank, while its
    structured data and its text name an identifier. *)
Definition blank_sku_page : web_page :=
  mkPage (mkDom [] (Some (T "  "))
                (Some (Some (JObj [(T "sku", JStr (T "WOB-123"))])))
                (T "SKU: WOB-123")
                None None JNull no_publication)
         (fun _ => None).

Definition blank_sku_shop : site :=
  shop shop_target [(short_url, blank_sku_page)] [].

(** The world [wd] with a browser that opens no page. *)
Definition pageless {W : Type} (wd : world W) : world W :=
  mkWorld W
    (target_url wd) (hash_key wd)
    (w_initialize wd) (w_close wd)
    (fun w => (Returns None, w))
    (w_goto wd) (w_navigate wd) (w_wait_for_load_state wd)
    (w_evaluate wd) (w_query_selector wd) (w_text_content wd)
    (w_page_close wd) (w_get_book_by_sku wd) (w_add_book wd).

(** ** The scripts of [_extract_publication_details] and
    [_extract_binding]

    Both read the text of [.product-details-wrapper], the field
    [details_text] of the document. *)

(** [[:\s]] *)
Definition colon_or_space (c : ascii) : bool :=
  (ascii_eqb c ":" || js_space c)%bool.

(** [[^,\n\r.]] *)
Definition name_char (c : ascii) : bool :=
  negb (ascii_eqb c "," || ascii_eqb c (ascii_of_nat 10)
        || ascii_eqb c (ascii_of_nat 13) || ascii_eqb c ".")%bool.

(** [/Publisher[:\s]*([^,\n\r.]+)/i] *)
Definition publisher_re : regex :=
  Cat (lits (T "Publisher"))
      (Cat (Star colon_or_space) (Grp 1 (Plus name_char))).

(** [/Published[:\s]*in[:\s]*(\d{4})/i] *)
Definition published_in_re : regex :=
  Cat (lits (T "Published"))
      (Cat (Star colon_or_space)
           (Cat (lits (T "in"))
                (Cat (Star colon_or_space) (Grp 1 (Rep 4 is_digit))))).

(** [/Publication[:\s]*year[:\s]*(\d{4})/i] *)
Definition publication_year_re : regex :=
  Cat (lits (T "Publication"))
      (Cat (Star colon_or_space)
           (Cat (lits (T "year"))
                (Cat (Star colon_or_space) (Grp 1 (Rep 4 is_digit))))).

(** [/Year[:\s]*(\d{4})/i] *)
Definition year_re : regex :=
  Cat (lits (T "Year"))
      (Cat (Star colon_or_space) (Grp 1 (Rep 4 is_digit))).

(** [a || b] on the results of [String.prototype.match]. *)
Definition or_match (a b : option caps) : option caps :=
  match a with Some _ => a | None => b end.

(** The script of [_extract_publication_details]. *)
Definition publication_script (details : option text) : json :=
  match details with
  | Some txt =>
      let year_match :=
        or_match (search true published_in_re txt)
          (or_match (search true publication_year_re txt)
                    (search true year_re txt)) in
      JObj [(T "publisher", from_option (match_group1 publisher_re txt));
            (T "year", from_option (option_map (group_text 1) year_match))]
  | None => JObj [(T "publisher", JNull); (T "year", JNull)]
  end.

(** [\w] *)
Definition is_word (c : ascii) : bool :=
  (is_digit c || in_range "a" "z" c || in_range "A" "Z" c
   || ascii_eqb c "_")%bool.

(** The literal [term] at the head of [s], whatever the case: what
    follows it. *)
Fixpoint prefix_ci (term s : text) : option text :=
  match term, s with
  | [], _ => Some s
  | t :: term', c :: s' =>
      if fold_case true (ascii_eqb t) c then prefix_ci term' s' else None
  | _ :: _, [] => None
  end.

(** [\b] after a word character: the text ends or goes on with a
    character that is not one. *)
Definition word_end (rest : text) : bool :=
  match rest with
  | [] => true
  | c :: _ => negb (is_word c)
  end.

(** [new RegExp('\\b' + term + '\\b', 'i').test(s)] for a [term] of
    letters and spaces that begins and ends with a letter; [prev_word]
    tells whether the character before [s] is a word character. *)
Fixpoint test_word (term : text) (prev_word : bool) (s : text) : bool :=
  (negb prev_word
   && match prefix_ci term s with
      | Some rest => word_end rest
      | None => false
      end
   || match s with
      | [] => false
      | c :: s' => test_word term (is_word c) s'
      end)%bool.

Definition binding_terms : list text :=
  [T "hardcover"; T "hardback"; T "hard cover"; T "hard back";
   T "paperback"; T "softcover"; T "soft cover"; T "soft back";
   T "leather bound"; T "leatherbound"; T "audio cd"; T "audiobook"].

(** [term.charAt(0).toUpperCase() + term.slice(1).toLowerCase()] *)
Definition capitalise (term : text) : text :=
  match term with
  | [] => []
  | c :: rest => to_upper c :: map to_lower rest
  end.

(** The script of [_extract_binding]. *)
Definition binding_script (details : option text) : json :=
  match details with
  | Some txt =>
      match find (fun term => test_word term false txt) binding_terms with
      | Some term => JStr (capitalise term)
      | None => JNull
      end
  | None => JNull
  end.

(** The document answers the two scripts as they are written. *)
Definition runs_scripts (d : dom) : Prop :=
  binding_result d = binding_script (details_text d) /\
  publication_result d = publication_script (details_text d).

(** An item page with the details [details], on which the two scripts
    run. *)
Definition described_page (details : text) : web_page :=
  mkPage (mkDom [] None None details (Some details) None
                (binding_script (Some details))
                (publication_script (Some details)))
         (fun selector =>
            if text_eqb selector title_selector
            then Some (T "A Described Volume")
            else None).

Definition described_shop (details : text) : site :=
  shop shop_target [(two_isbn_url, described_page details)] [].

(** *** Vocabulary of the statements on them *)

(** A year: four digits. *)
Definition year_text (t : text) : Prop :=
  List.length t = 4%nat /\ Forall digit t.

(** A publisher name as the script cuts it: no comma, period or line
    break, and no white space at either end. *)
Definition publisher_text (t : text) : Prop :=
  Forall (fun c => name_char c = true) t /\ js_trim t = t.


(** [term] stands in [txt] as a whole word, in whatever case:
    [txt = pre ++ w ++ post], where [w] is [term] up to case, [pre] does
    not end and [post] does not begin with a word character. *)
Definition whole_word (term txt : text) : Prop :=
  exists pre w post,
    txt = pre ++ w ++ post /\
    Forall2 (fun t c => fold_case true (ascii_eqb t) c = true) term w /\
    word_end (rev pre) = true /\ word_end post = true.

(** The character before position [length pre] is not a word
    character; [prev_word] tells whether the character before the text
    is one. *)
Definition word_start (prev_word : bool) (pre : text) : Prop :=
  match rev pre with
  | [] => prev_word = false
  | c :: _ => is_word c = false
  end.

(** What the binding script answers on the details [txt]: the first term
    of its list that stands there as a whole word, capitalised, or null
    when none does. *)
Definition binding_of (txt : text) (b : json) : Prop :=
  match b with
  | JStr t =>
      exists earlier term later,
        binding_terms = earlier ++ term :: later /\
        t = capitalise term /\
        whole_word term txt /\
        forall term', In term' earlier -> ~ whole_word term' txt
  | JNull => forall term, In term binding_terms -> ~ whole_word term txt
  | _ => False
  end.

(** * Properties *)

(** ** The matcher *)

Arguments is_digit : simpl never.
Arguments fold_case : simpl never.

Lemma orelse_inv {A : Type} (x y : option A) (a : A) :
  orelse x y = Some a -> x = Some a \/ (x = None /\ y = Some a).
Proof. destruct x; simpl; intros H; [left | right]; auto. Qed.

Lemma rx_Cat {A : Type} ci r1 r2 s cs (k : text -> caps -> option A) :
  rx ci (Cat r1 r2) s cs k = rx ci r1 s cs (fun s' cs' => rx ci r2 s' cs' k).
Proof. reflexivity. Qed.



Lemma star_inv {A : Type} (p : ascii -> bool) (k : text -> option A) :
  forall s r,
    star p s k = Some r ->
    exists ds rest,
      s = ds ++ rest /\ Forall (fun c => p c = true) ds /\ k rest = Some r.
Proof.
  induction s as [|c s IH]; simpl; intros r H.
  - exists [], []. auto.
  - destruct (p c) eqn:Hp.
    + apply orelse_inv in H. destruct H as [H | [_ H]].
      * destruct (IH _ H) as (ds & rest & -> & Hds & Hk).
        exists (c :: ds), rest. repeat split; auto.
      * exists [], (c :: s). auto.
    + exists [], (c :: s). auto.
Qed.


Lemma rep_inv {A : Type} (p : ascii -> bool) (k : text -> option A) :
  forall n s r,
    rep n p s k = Some r ->
    exists ds rest,
      s = ds ++ rest /\ List.length ds = n /\
      Forall (fun c => p c = true) ds /\ k rest = Some r.
Proof.
  induction n as [|n IH]; simpl; intros s r H.
  - exists [], s. auto.
  - destruct s as [|c s]; [discriminate|].
    destruct (p c) eqn:Hp; [|discriminate].
    destruct (IH _ _ H) as (ds & rest & -> & Hl & Hds & Hk).
    exists (c :: ds), rest. simpl. repeat split; auto.
Qed.

Lemma search_inv (ci : bool) (r : regex) :
  forall s m,
    search ci r s = Some m ->
    exists pre s', s = pre ++ s' /\ match_here ci r s' = Some m.
Proof.
  induction s as [|c s IH]; simpl; intros m H.
  - destruct (match_here ci r []) eqn:E; [|discriminate].
    exists [], []. split; [reflexivity | congruence].
  - destruct (match_here ci r (c :: s)) eqn:E.
    + exists [], (c :: s). split; [reflexivity | congruence].
    + destruct (IH _ H) as (pre & s' & -> & Hm).
      exists (c :: pre), s'. auto.
Qed.



(** The text a group captures: what lies between two positions. *)
Lemma firstn_consumed (a b : text) :
  firstn (List.length (a ++ b) - List.length b) (a ++ b) = a.
Proof.
  rewrite length_app.
  replace (List.length a + List.length b - List.length b)%nat
    with (List.length a + 0)%nat by lia.
  rewrite firstn_app_2. simpl. apply app_nil_r.
Qed.

(** ** [_extract_price] *)


Lemma ascii_eqb_eq (c d : ascii) : ascii_eqb c d = true -> c = d.
Proof. apply Ascii.eqb_eq. Qed.

Lemma ascii_eqb_refl (c : ascii) : ascii_eqb c c = true.
Proof. apply Ascii.eqb_refl. Qed.


Lemma amount_here_inv (s : text) (cs m : caps) :
  rx false (Grp 1 (Cat (Plus is_digit) (Cat (Lit ".") (Rep 2 is_digit))))
     s cs (fun _ m => Some m) = Some m ->
  exists e c1 c2 rest,
    s = e ++ "."%char :: c1 :: c2 :: rest /\ e <> [] /\ Forall digit e /\
    digit c1 /\ digit c2 /\ m = (1%nat, e ++ ["."%char; c1; c2]) :: cs.
Proof.
  intros H. destruct s as [|d s]; [discriminate|].
  cbn [rx] in H. unfold fold_case at 1 in H.
  destruct (is_digit d) eqn:Hd; [|discriminate].
  apply star_inv in H. destruct H as (ds & r0 & -> & Hds & H).
  cbn [rx] in H. destruct r0 as [|x r0]; [discriminate|].
  unfold fold_case at 1 in H.
  destruct (ascii_eqb "." x) eqn:Hx; [|discriminate].
  apply ascii_eqb_eq in Hx. subst x.
  cbn [rep] in H. destruct r0 as [|c1 r0]; [discriminate|].
  unfold fold_case at 1 in H.
  destruct (is_digit c1) eqn:H1; [|discriminate].
  destruct r0 as [|c2 r0]; [discriminate|].
  unfold fold_case at 1 in H.
  destruct (is_digit c2) eqn:H2; [|discriminate].
  change (d :: ds ++ "."%char :: c1 :: c2 :: r0)
    with ((d :: ds) ++ ["."%char; c1; c2] ++ r0) in H.
  rewrite app_assoc, firstn_consumed in H.
  exists (d :: ds), c1, c2, r0.
  split; [reflexivity|]. split; [discriminate|].
  split; [constructor; [exact Hd | exact Hds]|].
  split; [exact H1|]. split; [exact H2|]. congruence.
Qed.

Lemma price_re1_inv (s : text) (m : caps) :
  match_here false price_re1 s = Some m ->
  exists p e c1 c2 rest,
    s = p ++ e ++ "."%char :: c1 :: c2 :: rest /\ e <> [] /\ Forall digit e /\
    digit c1 /\ digit c2 /\ m = [(1%nat, e ++ ["."%char; c1; c2])].
Proof.
  unfold match_here, price_re1. cbn [rx lits euro].
  intros H. apply orelse_inv in H. destruct H as [H | [_ H]].
  - destruct s as [|a s]; [discriminate|].
    destruct (fold_case false (ascii_eqb (ascii_of_nat 226)) a) eqn:Ea;
      [|discriminate].
    destruct s as [|b s]; [discriminate|].
    destruct (fold_case false (ascii_eqb (ascii_of_nat 130)) b) eqn:Eb;
      [|discriminate].
    destruct s as [|c s]; [discriminate|].
    destruct (fold_case false (ascii_eqb (ascii_of_nat 172)) c) eqn:Ec;
      [|discriminate].
    apply amount_here_inv in H.
    destruct H as (e & c1 & c2 & rest & -> & ? & ? & ? & ? & ->).
    exists [a; b; c], e, c1, c2, rest. auto 10.
  - apply amount_here_inv in H.
    destruct H as (e & c1 & c2 & rest & -> & ? & ? & ? & ? & ->).
    exists [], e, c1, c2, rest. auto 10.
Qed.





(** The tail [\.?(\d{2})?] of the second pattern. *)
Lemma cents_tail_inv (s : text) (cs m : caps) :
  rx false (Cat (Opt (Lit ".")) (Opt (Grp 2 (Rep 2 is_digit))))
     s cs (fun _ m => Some m) = Some m ->
  m = cs \/
  exists c1 c2, digit c1 /\ digit c2 /\ m = (2%nat, [c1; c2]) :: cs.
Proof.
  assert (G : forall t,
    orelse (rep 2 (fold_case false is_digit) t
              (fun s' => Some ((2%nat,
                 firstn (List.length t - List.length s') t) :: cs)))
           (Some cs) = Some m ->
    m = cs \/
    exists c1 c2, digit c1 /\ digit c2 /\ m = (2%nat, [c1; c2]) :: cs).
  { intros t H. apply orelse_inv in H. destruct H as [H | [_ H]].
    - apply rep_inv in H. destruct H as (ds & rest & -> & Hl & Hds & H).
      rewrite firstn_consumed in H.
      destruct ds as [|c1 [|c2 [|? ?]]]; try discriminate.
      inversion Hds as [|? ? H1 Hds']; subst.
      inversion Hds' as [|? ? H2 _]; subst.
      right. exists c1, c2. repeat split; auto. congruence.
    - left. congruence. }
  cbn [rx]. intros H. apply orelse_inv in H. destruct H as [H | [_ H]].
  - destruct s as [|x s]; [discriminate|].
    destruct (fold_case false (ascii_eqb ".") x); [|discriminate].
    apply G in H. exact H.
  - apply G in H. exact H.
Qed.


Lemma price_re2_inv (s : text) (m : caps) :
  match_here false price_re2 s = Some m ->
  exists e,
    e <> [] /\ Forall digit e /\ group 1 m = Some e /\
    (group 2 m = None \/
     exists c1 c2, digit c1 /\ digit c2 /\ group 2 m = Some [c1; c2]).
Proof.
  unfold match_here, price_re2. rewrite rx_Cat. cbn [rx].
  destruct s as [|d s]; [discriminate|].
  unfold fold_case at 1. destruct (is_digit d) eqn:Hd; [|discriminate].
  intros H. apply star_inv in H. destruct H as (ds & rest & -> & Hds & H).
  change (d :: ds ++ rest) with ((d :: ds) ++ rest) in H.
  rewrite firstn_consumed in H.
  apply cents_tail_inv in H.
  exists (d :: ds).
  split; [discriminate|]. split; [constructor; [exact Hd | exact Hds]|].
  destruct H as [-> | (c1 & c2 & H1 & H2 & ->)]; simpl; split; auto.
  right. exists c1, c2. auto.
Qed.











Lemma extract_price_shape (t : option text) (lit : text) :
  _extract_price t = Some (PyFloat lit) -> amount lit.
Proof.
  unfold _extract_price. destruct t as [t|]; [|discriminate].
  destruct (negb (truthy t)); [discriminate|].
  destruct (search false price_re1 t) as [m|] eqn:E1.
  - intros H. injection H as <-.
    apply search_inv in E1. destruct E1 as (pre & s' & _ & E1).
    apply price_re1_inv in E1.
    destruct E1 as (p & e & c1 & c2 & rest & _ & Hne & He & H1 & H2 & ->).
    exists e, c1, c2. unfold group_text. simpl. auto.
  - destruct (search false price_re2 t) as [m|] eqn:E2; [|discriminate].
    intros H. injection H as <-.
    apply search_inv in E2. destruct E2 as (pre & s' & _ & E2).
    apply price_re2_inv in E2.
    destruct E2 as (e & Hne & He & G1 & G2).
    unfold group_text. rewrite G1.
    destruct G2 as [-> | (c1 & c2 & H1 & H2 & ->)].
    + exists e, "0"%char, "0"%char. simpl. repeat split; auto.
    + exists e, c1, c2. simpl. auto.
Qed.



(** ** [_extract_isbn] *)




(** ** The monad *)

Section SafeRules.
Context {W : Type} (R : state W -> state W -> Prop).
Hypothesis R_refl : forall s, R s s.
Hypothesis R_trans : forall s1 s2 s3, R s1 s2 -> R s2 s3 -> R s1 s3.

Lemma safe_ret {A : Type} (a : A) : safe R (ret a).
Proof. intros s. simpl. split; [discriminate | apply R_refl]. Qed.

Lemma safe_raise {A : Type} : safe R (@raise W A).
Proof. intros s. simpl. split; [discriminate | apply R_refl]. Qed.

Lemma safe_get {A : Type} (f : state W -> A) : safe R (get f).
Proof. intros s. simpl. split; [discriminate | apply R_refl]. Qed.

Lemma safe_bind {A B : Type} (m : M W A) (k : A -> M W B) :
  safe R m -> (forall a, safe R (k a)) -> safe R (bind m k).
Proof.
  intros Hm Hk s. unfold bind.
  destruct (Hm s) as [Hd Hr].
  destruct (m s) as [[a| |] s1]; simpl in *.
  - destruct (Hk a s1) as [Hd' Hr']. split; [exact Hd'|].
    eapply R_trans; eauto.
  - split; [discriminate | exact Hr].
  - contradiction.
Qed.

Lemma safe_try_except {A : Type} (m h : M W A) :
  safe R m -> safe R h -> safe R (try_except m h).
Proof.
  intros Hm Hh s. unfold try_except.
  destruct (Hm s) as [Hd Hr].
  destruct (m s) as [[a| |] s1]; simpl in *.
  - split; [discriminate | exact Hr].
  - destruct (Hh s1) as [Hd' Hr']. split; [exact Hd'|].
    eapply R_trans; eauto.
  - contradiction.
Qed.

Lemma safe_try_finally {A : Type} (m : M W A) (f : M W unit) :
  safe R m -> safe R f -> safe R (try_finally m f).
Proof.
  intros Hm Hf s. unfold try_finally.
  destruct (Hm s) as [Hd Hr].
  destruct (m s) as [[a| |] s1]; simpl in *; try contradiction;
    destruct (Hf s1) as [Hd' Hr'];
    destruct (f s1) as [[[]| |] s2]; simpl in *; try contradiction;
    (split; [discriminate | eapply R_trans; eauto]).
Qed.
End SafeRules.

Section QuietRules.
Context {W : Type} (P : event -> bool).

Lemma same_locals_refl (s : state W) : same_locals s s.
Proof. repeat split. Qed.

Lemma same_locals_trans (s1 s2 s3 : state W) :
  same_locals s1 s2 -> same_locals s2 s3 -> same_locals s1 s3.
Proof.
  unfold same_locals. intros (a & b & c) (a' & b' & c').
  repeat split; congruence.
Qed.

Lemma emits_refl (s : state W) : emits P s s.
Proof. exists []. split; [reflexivity | constructor]. Qed.

Lemma emits_trans (s1 s2 s3 : state W) :
  emits P s1 s2 -> emits P s2 s3 -> emits P s1 s3.
Proof.
  intros (e1 & H1 & F1) (e2 & H2 & F2). exists (e2 ++ e1). split.
  - rewrite H2, H1. apply app_assoc.
  - apply Forall_app. split; assumption.
Qed.

Lemma quiet_refl (s : state W) : quiet P s s.
Proof. split; [apply same_locals_refl | apply emits_refl]. Qed.

Lemma quiet_trans (s1 s2 s3 : state W) :
  quiet P s1 s2 -> quiet P s2 s3 -> quiet P s1 s3.
Proof.
  intros [L1 E1] [L2 E2]. split.
  - eapply same_locals_trans; eauto.
  - eapply emits_trans; eauto.
Qed.

Lemma safe_call {A : Type} (e : event) (op : W -> reply A * W) :
  P e = true -> safe (quiet P) (call e op).
Proof.
  intros He s. unfold call. simpl. split.
  - destruct (fst (op (outside s))); discriminate.
  - split; [repeat split|]. exists [e]. simpl. split; [reflexivity|].
    constructor; [exact He | constructor].
Qed.

Lemma safe_emit (e : event) : P e = true -> safe (quiet P) (@emit W e).
Proof.
  intros He s. unfold emit. simpl. split; [discriminate|].
  split; [repeat split|]. exists [e]. simpl. split; [reflexivity|].
  constructor; [exact He | constructor].
Qed.
End QuietRules.

Lemma emits_weaken {W : Type} (P Q : event -> bool) (s s' : state W) :
  (forall e, P e = true -> Q e = true) -> emits P s s' -> emits Q s s'.
Proof.
  intros H (evs & Ht & F). exists evs. split; [exact Ht|].
  eapply Forall_impl; [|exact F]. exact H.
Qed.

Section ScraperQuiet.
Context {W : Type} (wd : world W) (P : event -> bool).
Hypothesis P_page : forall e, page_call e = true -> P e = true.

Ltac call_ok := apply P_page; reflexivity.

Ltac step :=
  lazymatch goal with
  | |- safe _ (ret _) => apply safe_ret; apply quiet_refl
  | |- safe _ raise => apply safe_raise; apply quiet_refl
  | |- safe _ (get _) => apply safe_get; apply quiet_refl
  | |- safe _ (bind _ _) =>
      apply safe_bind; [apply quiet_trans | | intros ?]
  | |- safe _ (try_except _ _) =>
      apply safe_try_except; [apply quiet_trans | |]
  | |- safe _ (call _ _) => apply safe_call; call_ok
  | |- safe _ (emit _) => apply safe_emit; call_ok
  | |- safe _ (match ?x with _ => _ end) => destruct x
  | |- safe _ (if ?b then _ else _) => destruct b
  end.

Lemma evaluate_quiet {A : Type} (pg : page) (script : dom -> A) :
  safe (quiet P) (evaluate wd pg script).
Proof. unfold evaluate. repeat step. Qed.

Lemma get_text_quiet (pg : page) (selector : text) :
  safe (quiet P) (_get_text wd pg selector).
Proof.
  unfold _get_text, query_selector, text_content, log. repeat step.
Qed.

Lemma extract_sku_quiet (pg : page) (url : text) :
  safe (quiet P) (_extract_sku wd pg url).
Proof.
  unfold _extract_sku, log.
  assert (H : safe (quiet P)
    (found <- try_except
               (sku <- evaluate wd pg sku_script ;;
                ret (if py_truthy sku then Some sku else None))
               (emit (Log WARNING "Error extracting SKU") ;; ret None) ;;
     match found with
     | Some sku => ret sku
     | None =>
         emit (Log WARNING "Using fallback SKU") ;;
         ret (JStr (fallback_sku (py_hash wd) url))
     end)%py).
  { step; [step; [step; [apply evaluate_quiet | repeat step] | repeat step]
          | repeat step]. }
  destruct (_extract_sku_from_url url) as [sku|];
    [destruct (truthy sku); [step | exact H] | exact H].
Qed.

Lemma extract_isbn_quiet (pg : page) :
  safe (quiet P) (_extract_isbn wd pg).
Proof.
  unfold _extract_isbn, re_sub_isbn, log.
  step; [step; [apply evaluate_quiet | repeat step] | repeat step].
Qed.

Lemma extract_binding_quiet (pg : page) :
  safe (quiet P) (_extract_binding wd pg).
Proof.
  unfold _extract_binding, log.
  step; [apply evaluate_quiet | repeat step].
Qed.

Lemma extract_publication_quiet (pg : page) :
  safe (quiet P) (_extract_publication_details wd pg).
Proof.
  unfold _extract_publication_details, dict_get, log.
  step; [step; [apply evaluate_quiet | repeat step] | repeat step].
Qed.

Lemma extract_book_links_quiet (pg : page) :
  safe (quiet P) (_extract_book_links wd pg).
Proof.
  unfold _extract_book_links, log.
  step; [apply evaluate_quiet | repeat step].
Qed.

Lemma extract_details_quiet (pg : page) (url : text) :
  safe (quiet P) (extract_details wd pg url).
Proof.
  unfold extract_details, page_close, wait_for_load_state, log.
  repeat (step
          || apply evaluate_quiet || apply get_text_quiet
          || apply extract_sku_quiet || apply extract_isbn_quiet
          || apply extract_binding_quiet
          || apply extract_publication_quiet).
Qed.

(** What [scrape_book] does with the response to its navigation. *)
Lemma after_navigate_quiet (pg : page) (url : text) (r : option response) :
  safe (quiet P)
    (if negb (response_ok r)
     then (log WARNING "Failed to load book page" ;;
           page_close wd pg ;; ret None)%py
     else extract_details wd pg url).
Proof.
  unfold page_close, log. repeat (step || apply extract_details_quiet).
Qed.

Lemma scrape_book_quiet (url : text) :
  safe (quiet P) (scrape_book wd url).
Proof.
  unfold scrape_book, new_page, navigate, log.
  repeat (apply after_navigate_quiet || step).
Qed.
End ScraperQuiet.

(** ** C8: the ISBN extractor *)


Lemma keep_isbn_chars_only (t : text) : Forall isbn_char (keep_isbn_chars t).
Proof.
  unfold keep_isbn_chars. apply Forall_forall. intros c Hc.
  apply filter_In in Hc. destruct Hc as [_ Hc].
  apply orb_true_iff in Hc. destruct Hc as [Hc | Hc].
  - left. exact Hc.
  - right. apply ascii_eqb_eq in Hc. exact Hc.
Qed.


Lemma extract_isbn_chars {W : Type} (wd : world W) (pg : page)
  (s : state W) (r : text) :
  fst (_extract_isbn wd pg s) = Ret (Some r) -> Forall isbn_char r.
Proof.
  cbv [_extract_isbn try_except bind evaluate call ret].
  destruct (fst (w_evaluate wd pg (outside s))) as [d|]; simpl;
    [|discriminate].
  destruct (py_truthy (isbn_script d)); simpl; [|discriminate].
  destruct (isbn_script d); simpl; try discriminate.
  intros H. injection H as <-. apply keep_isbn_chars_only.
Qed.




(** ** C3: the fallback identifier *)




Lemma extract_sku_fallback {W : Type} (wd : world W) (pg : page)
  (url : text) (s : state W) :
  _extract_sku_from_url url = None ->
  no_page_sku wd pg s ->
  fst (_extract_sku wd pg url s) = Ret (JStr (fallback_sku (py_hash wd) url)).
Proof.
  intros Hurl Hpage. unfold no_page_sku in Hpage.
  cbv [_extract_sku]. rewrite Hurl.
  cbv [try_except bind evaluate call ret log emit].
  destruct (fst (w_evaluate wd pg (outside s))) as [d|]; simpl.
  - rewrite Hpage. reflexivity.
  - reflexivity.
Qed.




(** ** Running the monad *)

Lemma bind_ret {W A B : Type} (m : M W A) (k : A -> M W B)
  (s s1 : state W) (a : A) :
  m s = (Ret a, s1) -> bind m k s = k a s1.
Proof. intros H. unfold bind. rewrite H. reflexivity. Qed.

Lemma bind_ret_inv {W A B : Type} (m : M W A) (k : A -> M W B)
  (s s' : state W) (b : B) :
  bind m k s = (Ret b, s') ->
  exists a s1, m s = (Ret a, s1) /\ k a s1 = (Ret b, s').
Proof.
  unfold bind. destruct (m s) as [[a| |] s1]; intros H; try discriminate.
  exists a, s1. auto.
Qed.

Lemma try_except_ret_inv {W A : Type} (m h : M W A)
  (s s' : state W) (a : A) :
  try_except m h s = (Ret a, s') ->
  m s = (Ret a, s') \/ exists s1, m s = (Raise, s1) /\ h s1 = (Ret a, s').
Proof.
  unfold try_except. destruct (m s) as [[x| |] s1]; intros H.
  - left. exact H.
  - right. exists s1. auto.
  - discriminate.
Qed.

Lemma pair_eta {A B : Type} (p : A * B) : p = (fst p, snd p).
Proof. destruct p; reflexivity. Qed.

(** ** [_extract_sku_from_url] *)

Lemma extract_sku_from_url_some (url sku_ : text) :
  _extract_sku_from_url url = Some sku_ <->
  sku_ = last_segment url /\ (5 < List.length sku_)%nat.
Proof.
  unfold _extract_sku_from_url, last_segment.
  set (parts := split_on "/" (strip_by (ascii_eqb "/") url)).
  assert (Hparts : (0 <? List.length parts)%nat = true).
  { unfold parts. generalize (strip_by (ascii_eqb "/") url). intros t.
    destruct t as [|c t]; simpl; [reflexivity|].
    destruct (ascii_eqb c "/"); [reflexivity|].
    destruct (split_on "/" t); reflexivity. }
  rewrite Hparts.
  destruct (truthy (last parts [])) eqn:Et;
    destruct (5 <? List.length (last parts []))%nat eqn:El; simpl; split;
    try discriminate.
  - intros H. injection H as <-. split; [reflexivity|].
    apply Nat.ltb_lt. exact El.
  - reflexivity || (intros [-> _]; reflexivity).
  - intros [-> H]. apply Nat.ltb_lt in H. congruence.
  - intros [-> H].
    destruct (last parts []); [simpl in H; lia | discriminate].
  - intros [-> H]. apply Nat.ltb_lt in H. congruence.
Qed.


Lemma extract_sku_from_url_truthy (url sku_ : text) :
  _extract_sku_from_url url = Some sku_ -> truthy sku_ = true.
Proof.
  intros H. apply extract_sku_from_url_some in H. destruct H as [_ H].
  destruct sku_; [simpl in H; lia | reflexivity].
Qed.

(** ** C4: a link the dedup check knows *)

(** C4.  When the identifier taken from the link is found in the table,
    the iteration makes the look-up and writes a log line and nothing
    else, so no page is opened or navigated; the skip counter goes up by
    one, the accepted counter stays, and the loop goes on with the next
    link. *)
Theorem known_item_is_skipped {W : Type} (wd : world W) (max_books : Z)
  (book_url sku_ : text) (rest : list text) (row : book_row)
  (s : state W) :
  scraped_count s < max_books ->
  _extract_sku_from_url book_url = Some sku_ ->
  fst (w_get_book_by_sku wd sku_ (outside s)) = Returns (Some row) ->
  process_link wd book_url s = (Ret tt, after_skip wd sku_ s) /\
  trace (after_skip wd sku_ s)
  = Log DEBUG "Book with SKU already exists. Skipping."
      :: GetBookBySku sku_ :: trace s /\
  skipped_count (after_skip wd sku_ s) = skipped_count s + 1 /\
  scraped_count (after_skip wd sku_ s) = scraped_count s /\
  item_loop wd max_books (book_url :: rest) s
  = item_loop wd max_books rest (after_skip wd sku_ s).
Proof.
  intros Hbudget Hurl Hfound.
  assert (Hstep : process_link wd book_url s = (Ret tt, after_skip wd sku_ s)).
  { unfold process_link, already_known. rewrite Hurl.
    rewrite (extract_sku_from_url_truthy _ _ Hurl).
    unfold _is_book_in_database.
    rewrite (extract_sku_from_url_truthy _ _ Hurl).
    cbv [negb bind get_book_by_sku call ret log emit incr_skipped modify].
    rewrite Hfound. reflexivity. }
  split; [exact Hstep|].
  split; [reflexivity|]. split; [reflexivity|]. split; [reflexivity|].
  cbn [item_loop]. cbv [bind get].
  replace (max_books <=? scraped_count s) with false
    by (symmetry; apply Z.leb_gt; exact Hbudget).
  fold (@bind W unit unit). rewrite Hstep. reflexivity.
Qed.

Lemma known_item_is_skipped_witness :
  process_link (sim_world three_link_shop (0, 0)) walden_url
    (sim_start walden_known)
  = (Ret tt,
     after_skip (sim_world three_link_shop (0, 0)) (T "9780691096124")
       (sim_start walden_known)) /\
  skipped_count
    (after_skip (sim_world three_link_shop (0, 0)) (T "9780691096124")
       (sim_start walden_known)) = 1.
Proof.
  destruct (known_item_is_skipped (sim_world three_link_shop (0, 0)) 10
              walden_url (T "9780691096124") [ulysses_url]
              (stored (T "9780691096124")) (sim_start walden_known))
    as (Hstep & _ & Hskip & _).
  - reflexivity.
  - reflexivity.
  - reflexivity.
  - split; [exact Hstep | exact Hskip].
Defined.

Lemma bind_emit {W B : Type} (e : event) (k : unit -> M W B) (s : state W) :
  bind (emit e) k s = k tt (logged e s).
Proof. reflexivity. Qed.

Lemma bind_call {W A B : Type} (e : event) (op : W -> reply A * W)
  (k : A -> M W B) (s : state W) :
  bind (call e op) k s
  = match fst (op (outside s)) with
    | Returns a => k a (called e op s)
    | Raises => (Raise, called e op s)
    end.
Proof.
  unfold bind, call, called. destruct (fst (op (outside s))); reflexivity.
Qed.

Lemma bind_log {W B : Type} (lvl : level) (msg : string)
  (k : unit -> M W B) (s : state W) :
  bind (log lvl msg) k s = k tt (logged (Log lvl msg) s).
Proof. reflexivity. Qed.

Lemma call_run {W A : Type} (e : event) (op : W -> reply A * W)
  (s : state W) :
  call e op s = (answered (fst (op (outside s))), called e op s).
Proof. reflexivity. Qed.

(** ** One item *)

Section ItemFacts.
Context {W : Type} (wd : world W).

Lemma scrape_book_page_calls (url : text) (s : state W) :
  fst (scrape_book wd url s) <> Diverge /\
  quiet page_call s (snd (scrape_book wd url s)).
Proof. exact (scrape_book_quiet wd page_call (fun e H => H) url s). Qed.


(** [attempt_item], case by case. *)
Lemma attempt_item_run (url : text) (s : state W) :
  attempt_item wd url s
  = match scrape_book wd url s with
    | (Ret (Some bd), s1) =>
        if truthy (title bd) then
          let s2 := called (AddBook (rare_non_fiction bd))
                      (w_add_book wd (rare_non_fiction bd)) s1 in
          match fst (w_add_book wd (rare_non_fiction bd) (outside s1)) with
          | Returns book_id =>
              if truthy_id book_id
              then (Ret tt, logged (Log INFO "Added book") (bump_scraped s2))
              else (Ret tt, s2)
          | Raises =>
              (Ret tt, logged (Log ERROR "Error processing book") s2)
          end
        else (Ret tt, s1)
    | (Ret None, s1) => (Ret tt, s1)
    | (Raise, s1) => (Ret tt, logged (Log ERROR "Error processing book") s1)
    | (Diverge, s1) => (Diverge, s1)
    end.
Proof.
  unfold attempt_item, try_except. unfold bind at 1.
  destruct (scrape_book wd url s) as [[[bd|]| |] s1]; try reflexivity.
  destruct (truthy (title bd)); [|reflexivity].
  unfold add_book. rewrite bind_call. cbv zeta.
  destruct (fst (w_add_book wd (rare_non_fiction bd) (outside s1)))
    as [book_id|]; [|reflexivity].
  destruct (truthy_id book_id); reflexivity.
Qed.

(** No failure of the extractor or of [add_book] leaves the attempt. *)
Lemma attempt_item_returns (url : text) (s : state W) :
  fst (attempt_item wd url s) = Ret tt.
Proof.
  rewrite attempt_item_run.
  destruct (scrape_book_page_calls url s) as [Hd _].
  destruct (scrape_book wd url s) as [[[bd|]| |] s1]; simpl in *;
    try reflexivity; [|contradiction].
  destruct (truthy (title bd)); [|reflexivity].
  destruct (fst (w_add_book wd (rare_non_fiction bd) (outside s1)))
    as [book_id|]; [|reflexivity].
  destruct (truthy_id book_id); reflexivity.
Qed.

Lemma attempt_item_counters (url : text) (s : state W) :
  scraped_count s <= scraped_count (snd (attempt_item wd url s))
                  <= scraped_count s + 1 /\
  skipped_count (snd (attempt_item wd url s)) = skipped_count s /\
  page_num (snd (attempt_item wd url s)) = page_num s.
Proof.
  rewrite attempt_item_run.
  destruct (scrape_book_page_calls url s) as [_ [(Hs & Hk & Hp) _]].
  destruct (scrape_book wd url s) as [[[bd|]| |] s1]; simpl in *;
    try (rewrite Hs, Hk, Hp; repeat split; lia).
  destruct (truthy (title bd));
    [|simpl; rewrite Hs, Hk, Hp; repeat split; lia].
  destruct (fst (w_add_book wd (rare_non_fiction bd) (outside s1)))
    as [book_id|]; [destruct (truthy_id book_id)|];
    simpl; rewrite Hs, Hk, Hp; repeat split; lia.
Qed.

Lemma attempt_item_emits (url : text) (s : state W) :
  emits titled_item_call s (snd (attempt_item wd url s)).
Proof.
  rewrite attempt_item_run.
  destruct (scrape_book_quiet wd titled_item_call
              (fun e H => ltac:(destruct e; try discriminate; reflexivity))
              url s) as [_ [_ He]].
  assert (Hlog : forall l m (s0 : state W),
             emits titled_item_call s s0 ->
             emits titled_item_call s (logged (Log l m) s0)).
  { intros l m s0 (evs & Ht & Hf). exists (Log l m :: evs). simpl.
    rewrite Ht. split; [reflexivity|]. constructor; [reflexivity | exact Hf]. }
  destruct (scrape_book wd url s) as [[[bd|]| |] s1]; simpl in *;
    try exact He; [|apply Hlog; exact He].
  destruct (truthy (title bd)) eqn:Et; [|exact He].
  assert (Hadd : emits titled_item_call s
                   (called (AddBook (rare_non_fiction bd))
                      (w_add_book wd (rare_non_fiction bd)) s1)).
  { destruct He as (evs & Ht & Hf).
    exists (AddBook (rare_non_fiction bd) :: evs). simpl.
    rewrite Ht. split; [reflexivity|]. constructor; [exact Et | exact Hf]. }
  destruct (fst (w_add_book wd (rare_non_fiction bd) (outside s1)))
    as [book_id|]; [destruct (truthy_id book_id)|]; simpl.
  - apply Hlog. exact Hadd.
  - exact Hadd.
  - apply Hlog. exact Hadd.
Qed.


End ItemFacts.

(** ** C10: a link without an identifier *)



(** ** The loop body *)

Section LinkFacts.
Context {W : Type} (wd : world W).

Lemma is_book_in_database_quiet (P : event -> bool) (sku_ : text) :
  (forall e, is_lookup e = true -> P e = true) ->
  safe (quiet P) (_is_book_in_database wd sku_).
Proof.
  intros HP. unfold _is_book_in_database, get_book_by_sku.
  destruct (negb (truthy sku_)).
  - apply safe_ret, quiet_refl.
  - apply safe_bind; [apply quiet_trans | | intros book].
    + apply safe_call. apply HP. reflexivity.
    + apply safe_ret, quiet_refl.
Qed.

Lemma already_known_quiet (P : event -> bool) (url : text) :
  (forall e, is_lookup e = true -> P e = true) ->
  safe (quiet P) (already_known wd url).
Proof.
  intros HP. unfold already_known.
  destruct (_extract_sku_from_url url) as [sku_|];
    [destruct (truthy sku_)|];
    try (apply safe_ret, quiet_refl).
  apply is_book_in_database_quiet. exact HP.
Qed.

Lemma already_known_locals (url : text) (s : state W) :
  same_locals s (snd (already_known wd url s)).
Proof.
  destruct (already_known_quiet is_lookup url (fun e H => H) s)
    as [_ [H _]].
  exact H.
Qed.

(** The iteration of a link the dedup check lets pass. *)
Lemma process_link_attempt (url : text) (s : state W) :
  fst (already_known wd url s) = Ret false ->
  process_link wd url s = attempt_item wd url (before_attempt wd url s).
Proof.
  intros H. unfold process_link, before_attempt.
  rewrite (bind_ret _ _ s (snd (already_known wd url s)) false)
    by (rewrite <- H; apply pair_eta).
  unfold sleep. rewrite bind_emit. reflexivity.
Qed.

Lemma item_loop_step (max_books : Z) (url : text) (rest : list text)
  (s : state W) :
  scraped_count s < max_books ->
  fst (process_link wd url s) = Ret tt ->
  item_loop wd max_books (url :: rest) s
  = item_loop wd max_books rest (snd (process_link wd url s)).
Proof.
  intros Hb Hr. cbn [item_loop]. unfold bind at 1, get.
  replace (max_books <=? scraped_count s) with false
    by (symmetry; apply Z.leb_gt; exact Hb).
  rewrite (bind_ret _ _ s (snd (process_link wd url s)) tt)
    by (rewrite <- Hr; apply pair_eta).
  reflexivity.
Qed.

End LinkFacts.

(** ** C9: failures of one item *)



(** ** C1: a record the persistence layer rejects *)

(** C1, as the code has it.  When [add_book] rejects the extracted
    record (it returns no new id, or raises), the iteration ends
    normally, the accepted counter is not incremented, and the loop goes
    on with the next link; the skip counter is left as it was: it counts
    the hits of the dedup check only. *)
Theorem rejected_record_is_not_counted {W : Type} (wd : world W)
  (max_books : Z) (url : text) (rest : list text) (s : state W)
  (bd : book_data) :
  scraped_count s < max_books ->
  fst (already_known wd url s) = Ret false ->
  fst (scrape_book wd url (before_attempt wd url s)) = Ret (Some bd) ->
  rejected (fst (w_add_book wd (rare_non_fiction bd)
                   (outside (snd (scrape_book wd url
                                    (before_attempt wd url s)))))) ->
  fst (process_link wd url s) = Ret tt /\
  scraped_count (snd (process_link wd url s)) = scraped_count s /\
  skipped_count (snd (process_link wd url s)) = skipped_count s /\
  page_num (snd (process_link wd url s)) = page_num s /\
  item_loop wd max_books (url :: rest) s
  = item_loop wd max_books rest (snd (process_link wd url s)).
Proof.
  intros Hb Hk Hbook Hrej.
  assert (Hret : fst (process_link wd url s) = Ret tt)
    by (rewrite (process_link_attempt wd url s Hk);
        apply attempt_item_returns).
  split; [exact Hret|].
  assert (Hloc : same_locals s (snd (process_link wd url s))).
  { rewrite (process_link_attempt wd url s Hk), attempt_item_run.
    pose proof (already_known_locals wd url s) as (L1 & L2 & L3).
    destruct (scrape_book_page_calls wd url (before_attempt wd url s))
      as [_ [(Q1 & Q2 & Q3) _]].
    simpl in Q1, Q2, Q3.
    destruct (scrape_book wd url (before_attempt wd url s))
      as [[[bd'|]| |] s1]; simpl in Hbook; try discriminate.
    injection Hbook as ->. simpl in Hrej, Q1, Q2, Q3.
    destruct (truthy (title bd)).
    - unfold rejected in Hrej. cbv zeta.
      destruct (fst (w_add_book wd (rare_non_fiction bd) (outside s1)))
        as [book_id|].
      + rewrite Hrej. repeat split; simpl; congruence.
      + repeat split; simpl; congruence.
    - repeat split; simpl; congruence. }
  destruct Hloc as (H1 & H2 & H3).
  split; [exact H1|]. split; [exact H2|]. split; [exact H3|].
  apply item_loop_step; assumption.
Qed.

Lemma rejected_record_is_not_counted_witness :
  fst (process_link (sim_world resold_shop (0, 0)) short_url
         (sim_start walden_known)) = Ret tt /\
  scraped_count (snd (process_link (sim_world resold_shop (0, 0)) short_url
                        (sim_start walden_known))) = 0 /\
  skipped_count (snd (process_link (sim_world resold_shop (0, 0)) short_url
                        (sim_start walden_known))) = 0.
Proof.
  assert (Hbook :
    exists bd,
      fst (scrape_book (sim_world resold_shop (0, 0)) short_url
             (before_attempt (sim_world resold_shop (0, 0)) short_url
                (sim_start walden_known))) = Ret (Some bd)).
  { eexists. vm_compute. reflexivity. }
  destruct Hbook as [bd Hbook].
  destruct (rejected_record_is_not_counted (sim_world resold_shop (0, 0))
              10 short_url [] (sim_start walden_known) bd)
    as (Hret & Hs & Hk & _).
  - reflexivity.
  - reflexivity.
  - exact Hbook.
  - revert Hbook. vm_compute. intros H. injection H as <-. reflexivity.
  - split; [exact Hret|]. split; [exact Hs | exact Hk].
Defined.

(** C1, as stated, fails: the table holds the identifier that the item
    page names, [add_book] returns no id, and the skip counter stays at
    0 instead of going to 1. *)
Lemma rejected_record_is_not_a_skip :
  In (AddBook (rare_non_fiction
                 (mkBook (T "Walden") (T "Unknown") None
                         (JStr (T "9780691096124"))
                         (Some (PyFloat (T "7.00"))) short_url None
                         JNull JNull JNull None JNull)))
     (trace (snd (process_link (sim_world resold_shop (0, 0)) short_url
                    (sim_start walden_known)))) /\
  fst (w_add_book (sim_world resold_shop (0, 0))
         (rare_non_fiction
            (mkBook (T "Walden") (T "Unknown") None
                    (JStr (T "9780691096124"))
                    (Some (PyFloat (T "7.00"))) short_url None
                    JNull JNull JNull None JNull))
         (mkSim walden_known [] 0 []))
  = Returns None /\
  skipped_count (sim_start walden_known) = 0 /\
  skipped_count (snd (process_link (sim_world resold_shop (0, 0)) short_url
                        (sim_start walden_known))) = 0 /\
  skipped_count (snd (process_link (sim_world resold_shop (0, 0)) short_url
                        (sim_start walden_known)))
  <> skipped_count (sim_start walden_known) + 1.
Proof.
  split; [vm_compute; tauto|].
  split; [vm_compute; reflexivity|].
  split; [reflexivity|].
  assert (H : skipped_count
                (snd (process_link (sim_world resold_shop (0, 0)) short_url
                        (sim_start walden_known))) = 0)
    by (vm_compute; reflexivity).
  split; [exact H|]. rewrite H. discriminate.
Qed.

(** ** C5: records without a title *)

Ltac inv_bind H :=
  let a := fresh "a" in
  let s := fresh "s" in
  let E := fresh "E" in
  apply bind_ret_inv in H; destruct H as (a & s & E & H).

Lemma ret_inv {W A : Type} (a b : A) (s s' : state W) :
  ret a s = (Ret b, s') -> a = b.
Proof. unfold ret. intros H. congruence. Qed.

Section TitleFacts.
Context {W : Type} (wd : world W).

(** A record comes out of the extraction only with the non-empty title
    that [_get_text] found. *)
Lemma extract_details_titled (pg : page) (url : text) (s s' : state W)
  (bd : book_data) :
  extract_details wd pg url s = (Ret (Some bd), s') ->
  truthy (title bd) = true /\
  exists s0, fst (_get_text wd pg title_selector s0) = Ret (Some (title bd)).
Proof.
  unfold extract_details. intros H.
  apply try_except_ret_inv in H. destruct H as [H | (s1 & _ & H)].
  - inv_bind H. inv_bind H. inv_bind H.
    rename a1 into found, E1 into Etitle.
    destruct found as [t|]; simpl in H.
    + destruct (truthy t) eqn:Et; simpl in H.
      * do 9 (inv_bind H). apply ret_inv in H. injection H as <-.
        simpl. split; [exact Et|].
        match type of Etitle with
        | _get_text _ _ _ ?sx = _ => exists sx
        end.
        rewrite Etitle. reflexivity.
      * inv_bind H. inv_bind H. apply ret_inv in H. discriminate.
    + inv_bind H. inv_bind H. apply ret_inv in H. discriminate.
  - inv_bind H. inv_bind H. apply ret_inv in H. discriminate.
Qed.

Lemma scrape_book_titled (url : text) (s s' : state W) (bd : book_data) :
  scrape_book wd url s = (Ret (Some bd), s') ->
  truthy (title bd) = true /\
  exists pg s0,
    fst (_get_text wd pg title_selector s0) = Ret (Some (title bd)).
Proof.
  unfold scrape_book. intros H.
  inv_bind H. inv_bind H. destruct a0 as [pg|].
  - inv_bind H. destruct (negb (response_ok a0)).
    + inv_bind H. inv_bind H. apply ret_inv in H. discriminate.
    + apply extract_details_titled in H. destruct H as [Ht [s3 Hs]].
      split; [exact Ht|]. exists pg, s3. exact Hs.
  - inv_bind H. apply ret_inv in H. discriminate.
Qed.

(** Without a title, no record. *)
Lemma scrape_book_no_title (url : text) (s : state W) :
  no_title wd ->
  fst (scrape_book wd url s) = Ret None \/ fst (scrape_book wd url s) = Raise.
Proof.
  intros Hno.
  destruct (scrape_book_page_calls wd url s) as [Hd _].
  destruct (scrape_book wd url s) as [[[bd|]| |] s'] eqn:E; simpl in *;
    auto; [|contradiction].
  exfalso. apply scrape_book_titled in E.
  destruct E as [Ht (pg & s0 & Hs)].
  rewrite (Hno pg s0 (title bd) Hs) in Ht. discriminate.
Qed.
End TitleFacts.

(** ** The loops *)

Lemma emits_logged {W : Type} (P : event -> bool) (e : event)
  (s s0 : state W) :
  P e = true -> emits P s s0 -> emits P s (logged e s0).
Proof.
  intros He (evs & Ht & Hf). exists (e :: evs). simpl. rewrite Ht.
  split; [reflexivity|]. constructor; assumption.
Qed.

Lemma quiet_titled {W : Type} (P : event -> bool) (s s' : state W) :
  (forall e, P e = true -> is_add_book e = false) ->
  quiet P s s' -> emits titled_add s s'.
Proof.
  intros HP [_ He]. eapply emits_weaken; [|exact He].
  intros e H. apply HP in H. destruct e; try reflexivity. discriminate.
Qed.

Section LoopFacts.
Context {W : Type} (wd : world W) (max_books : Z).

Lemma link_rel_refl (s : state W) : link_rel max_books s s.
Proof.
  split; [apply emits_refl|].
  split; [reflexivity|]. split; [lia|]. split; [lia | auto].
Qed.

Lemma link_rel_trans (s1 s2 s3 : state W) :
  link_rel max_books s1 s2 -> link_rel max_books s2 s3 ->
  link_rel max_books s1 s3.
Proof.
  intros (E1 & P1 & K1 & S1 & B1) (E2 & P2 & K2 & S2 & B2).
  split; [eapply emits_trans; eauto|].
  split; [lia|]. split; [lia|]. split; [lia | auto].
Qed.

Lemma run_rel_refl (s : state W) : run_rel max_books s s.
Proof.
  split; [apply emits_refl|].
  split; [reflexivity|]. split; [lia|]. split; [lia | auto].
Qed.

Lemma run_rel_trans (s1 s2 s3 : state W) :
  run_rel max_books s1 s2 -> run_rel max_books s2 s3 ->
  run_rel max_books s1 s3.
Proof.
  intros (E1 & P1 & K1 & S1 & B1) (E2 & P2 & K2 & S2 & B2).
  split; [eapply emits_trans; eauto|].
  split; [lia|]. split; [lia|]. split; [lia | auto].
Qed.

Lemma link_rel_run (s s' : state W) :
  link_rel max_books s s' -> run_rel max_books s s'.
Proof.
  intros (E1 & P1 & K1 & S1 & B1).
  split; [exact E1|].
  split; [lia|]. split; [lia|]. split; [lia | auto].
Qed.

(** A step that leaves the counters alone and hands no row over. *)
Lemma quiet_run (P : event -> bool) (s s' : state W) :
  (forall e, P e = true -> is_add_book e = false) ->
  quiet P s s' -> link_rel max_books s s'.
Proof.
  intros HP Hq. split; [eapply quiet_titled; eauto|].
  destruct Hq as [(H1 & H2 & H3) _].
  split; [lia|]. split; [lia|]. split; lia.
Qed.

Lemma lookup_not_add (e : event) : is_lookup e = true -> is_add_book e = false.
Proof. destruct e; simpl; congruence. Qed.

Lemma process_link_safe (url : text) (s : state W) :
  fst (process_link wd url s) <> Diverge.
Proof.
  unfold process_link, bind at 1.
  destruct (already_known_quiet wd is_lookup url (fun e H => H) s)
    as [Hd _].
  destruct (already_known wd url s) as [[[|]| |] s0]; simpl in *;
    try discriminate; [|contradiction].
  unfold sleep. rewrite bind_emit, attempt_item_returns. discriminate.
Qed.

Lemma process_link_rel (url : text) (s : state W) :
  scraped_count s < max_books ->
  link_rel max_books s (snd (process_link wd url s)).
Proof.
  intros Hb. unfold process_link, bind at 1.
  destruct (already_known_quiet wd is_lookup url (fun e H => H) s)
    as [_ Hq].
  pose proof (quiet_titled is_lookup _ _ lookup_not_add Hq) as E0.
  destruct Hq as [(L1 & L2 & L3) _].
  destruct (already_known wd url s) as [[[|]| |] s0]; simpl in *.
  - split; [apply emits_logged; [reflexivity | exact E0]|].
    simpl. split; [lia|]. split; [lia|]. split; lia.
  - unfold sleep. rewrite bind_emit.
    pose proof (attempt_item_counters wd url (logged (Sleep ItemDelay) s0))
      as (Hc & Hk & Hp).
    pose proof (attempt_item_emits wd url (logged (Sleep ItemDelay) s0))
      as He.
    simpl in Hc, Hk, Hp.
    split.
    + apply (emits_trans _ s (logged (Sleep ItemDelay) s0)).
      * apply emits_logged; [reflexivity | exact E0].
      * eapply emits_weaken; [|exact He].
        intros e H. destruct e; try reflexivity. exact H.
    + split; [lia|]. split; [lia|]. split; lia.
  - split; [exact E0|]. split; [lia|]. split; [lia|]. split; lia.
  - split; [exact E0|]. split; [lia|]. split; [lia|]. split; lia.
Qed.

Lemma item_loop_safe (links : list text) :
  forall s, fst (item_loop wd max_books links s) <> Diverge.
Proof.
  induction links as [|url rest IH]; intros s; [discriminate|].
  cbn [item_loop]. unfold bind at 1, get.
  destruct (max_books <=? scraped_count s); [discriminate|].
  unfold bind. pose proof (process_link_safe url s) as Hd.
  destruct (process_link wd url s) as [[[]| |] s1]; simpl in *;
    [apply IH | discriminate | contradiction].
Qed.

Lemma item_loop_rel (links : list text) :
  forall s, link_rel max_books s (snd (item_loop wd max_books links s)).
Proof.
  induction links as [|url rest IH]; intros s; [apply link_rel_refl|].
  cbn [item_loop]. unfold bind at 1, get.
  destruct (max_books <=? scraped_count s) eqn:Eb; [apply link_rel_refl|].
  apply Z.leb_gt in Eb.
  unfold bind. pose proof (process_link_rel url s Eb) as Hr.
  destruct (process_link wd url s) as [[[]| |] s1]; simpl in *;
    try exact Hr.
  eapply link_rel_trans; [exact Hr | apply IH].
Qed.
End LoopFacts.

Section KeepRules.
Context {W : Type} (R : state W -> state W -> Prop).
Hypothesis R_refl : forall s, R s s.
Hypothesis R_trans : forall s1 s2 s3, R s1 s2 -> R s2 s3 -> R s1 s3.

Lemma keeps_ret {A : Type} (a : A) : keeps R (ret a).
Proof. intros s. apply R_refl. Qed.

Lemma keeps_get {A : Type} (f : state W -> A) : keeps R (get f).
Proof. intros s. apply R_refl. Qed.

Lemma keeps_bind {A B : Type} (m : M W A) (k : A -> M W B) :
  keeps R m -> (forall a, keeps R (k a)) -> keeps R (bind m k).
Proof.
  intros Hm Hk s. unfold bind. specialize (Hm s).
  destruct (m s) as [[a| |] s1]; simpl in *; try exact Hm.
  eapply R_trans; [exact Hm | apply Hk].
Qed.

Lemma keeps_try_except {A : Type} (m h : M W A) :
  keeps R m -> keeps R h -> keeps R (try_except m h).
Proof.
  intros Hm Hh s. unfold try_except. specialize (Hm s).
  destruct (m s) as [[a| |] s1]; simpl in *; try exact Hm.
  eapply R_trans; [exact Hm | apply Hh].
Qed.

Lemma keeps_try_finally {A : Type} (m : M W A) (f : M W unit) :
  keeps R m -> keeps R f -> keeps R (try_finally m f).
Proof.
  intros Hm Hf s. unfold try_finally. specialize (Hm s).
  destruct (m s) as [[a| |] s1]; simpl in *; try exact Hm;
    specialize (Hf s1); destruct (f s1) as [[[]| |] s2]; simpl in *;
    eapply R_trans; eauto.
Qed.

End KeepRules.

Section RunFacts.
Context {W : Type} (wd : world W) (max_books : Z).

Lemma run_rel_called {A : Type} (e : event) (op : W -> reply A * W)
  (s : state W) :
  is_add_book e = false -> run_rel max_books s (called e op s).
Proof.
  intros He. split.
  - exists [e]. split; [reflexivity|]. constructor; [|constructor].
    destruct e; try reflexivity. discriminate.
  - simpl. split; [lia|]. split; [lia|]. split; [lia | auto].
Qed.

Lemma keeps_call_run {A : Type} (e : event) (op : W -> reply A * W) :
  is_add_book e = false -> keeps (run_rel max_books) (call e op).
Proof. intros He s. apply run_rel_called. exact He. Qed.

Lemma keeps_log_run (lvl : level) (msg : string) :
  keeps (run_rel max_books) (@log W lvl msg).
Proof.
  intros s. split.
  - exists [Log lvl msg]. split; [reflexivity | repeat constructor].
  - simpl. split; [lia|]. split; [lia|]. split; [lia | auto].
Qed.

Lemma listing_not_add (e : event) :
  listing_call e = true -> is_add_book e = false.
Proof. destruct e; simpl; congruence. Qed.

Lemma load_listing_quiet (pg : page) :
  safe (quiet listing_call) (load_listing wd pg).
Proof.
  unfold load_listing, goto, wait_for_load_state, log.
  apply safe_bind; [apply quiet_trans | apply safe_get, quiet_refl
                   | intros pn].
  apply safe_bind; [apply quiet_trans | apply safe_emit; reflexivity
                   | intros _].
  apply safe_bind; [apply quiet_trans | apply safe_call; reflexivity
                   | intros response].
  destruct response as [r|].
  - destruct (negb (ok r)).
    + apply safe_bind; [apply quiet_trans | apply safe_emit; reflexivity
                       | intros _].
      apply safe_ret, quiet_refl.
    + apply safe_bind; [apply quiet_trans | apply safe_emit; reflexivity
                       | intros _].
      apply safe_bind; [apply quiet_trans | apply safe_call; reflexivity
                       | intros _].
      apply safe_bind; [apply quiet_trans | apply safe_emit; reflexivity
                       | intros _].
      apply safe_bind; [apply quiet_trans | | intros links].
      * apply extract_book_links_quiet.
        intros e He. destruct e; try discriminate; reflexivity.
      * destruct links;
          (apply safe_bind; [apply quiet_trans | apply safe_emit; reflexivity
                            | intros _]);
          apply safe_ret, quiet_refl.
  - apply safe_bind; [apply quiet_trans | apply safe_emit; reflexivity
                     | intros _].
    apply safe_ret, quiet_refl.
Qed.

Lemma turn_page_run (s : state W) : turn_page s = (Ret tt, turned s).
Proof. reflexivity. Qed.

Lemma run_rel_turned (s : state W) : run_rel max_books s (turned s).
Proof.
  split.
  - exists [Sleep PageDelay; Log INFO "Moving to next page"].
    split; [reflexivity | repeat constructor].
  - simpl. split; [lia|]. split; [lia|]. split; [lia | auto].
Qed.

Lemma crawl_loop_rel (pg : page) (fuel : nat) :
  keeps (run_rel max_books) (crawl_loop wd fuel pg max_books).
Proof.
  induction fuel as [|fuel IH]; cbn [crawl_loop].
  - apply keeps_bind; [apply run_rel_trans | apply keeps_get, run_rel_refl
                      | intros scraped].
    destruct (scraped <? max_books); intros s; apply run_rel_refl.
  - apply keeps_bind; [apply run_rel_trans | apply keeps_get, run_rel_refl
                      | intros scraped].
    destruct (negb (scraped <? max_books)); [apply keeps_ret, run_rel_refl|].
    apply keeps_bind; [apply run_rel_trans | | intros listing].
    + intros s. apply link_rel_run.
      apply (quiet_run max_books listing_call _ _ listing_not_add).
      apply load_listing_quiet.
    + destruct listing as [links|]; [|apply keeps_ret, run_rel_refl].
      apply keeps_bind; [apply run_rel_trans | | intros _].
      * intros s. apply link_rel_run, item_loop_rel.
      * apply keeps_bind; [apply run_rel_trans
                          | apply keeps_get, run_rel_refl | intros sc].
        destruct (sc <? max_books); [|apply keeps_ret, run_rel_refl].
        apply keeps_bind; [apply run_rel_trans | | intros _; exact IH].
        intros s. rewrite turn_page_run. apply run_rel_turned.
Qed.

Lemma crawl_session_rel (fuel : nat) :
  keeps (run_rel max_books) (crawl_session wd fuel max_books).
Proof.
  unfold crawl_session, new_page, close, page_close.
  apply keeps_try_finally; [apply run_rel_trans | |
                            apply keeps_call_run; reflexivity].
  apply keeps_try_except; [apply run_rel_trans | |].
  - apply keeps_bind; [apply run_rel_trans | apply keeps_log_run
                      | intros _].
    apply keeps_bind; [apply run_rel_trans
                      | apply keeps_call_run; reflexivity | intros pg].
    destruct pg as [pg|].
    + apply keeps_bind; [apply run_rel_trans | apply keeps_log_run
                        | intros _].
      apply keeps_bind; [apply run_rel_trans | apply crawl_loop_rel
                        | intros _].
      apply keeps_bind; [apply run_rel_trans
                        | apply keeps_call_run; reflexivity | intros _].
      apply keeps_ret, run_rel_refl.
    + apply keeps_bind; [apply run_rel_trans | apply keeps_log_run
                        | intros _].
      apply keeps_bind; [apply run_rel_trans
                        | apply keeps_call_run; reflexivity | intros _].
      apply keeps_ret, run_rel_refl.
  - apply keeps_bind; [apply run_rel_trans | apply keeps_log_run
                      | intros _].
    apply keeps_ret, run_rel_refl.
Qed.
End RunFacts.

Section Returns.
Context {W : Type} (wd : world W).

(** On a loaded page without a title the extraction returns [None]. *)
Lemma extract_details_no_title (pg : page) (url : text) (s : state W) :
  no_title wd -> page_close_is_safe wd ->
  fst (extract_details wd pg url s) = Ret None.
Proof.
  intros Hno Hclose.
  assert (Hhandler : forall s0,
    fst ((log ERROR "Error extracting book details" ;;
          page_close wd pg ;; ret (@None book_data))%py s0) = Ret None).
  { intros s0. rewrite bind_log. unfold page_close. rewrite bind_call.
    specialize (Hclose pg (outside (logged (Log ERROR
                  "Error extracting book details") s0))).
    destruct (fst (w_page_close wd pg _)); [reflexivity | contradiction]. }
  unfold extract_details, try_except.
  match goal with
  | |- fst (match ?body s with _ => _ end) = _ =>
      destruct (body s) as [[[bd|]| |] s1] eqn:E
  end.
  - exfalso. revert E. intros E.
    assert (E' : extract_details wd pg url s = (Ret (Some bd), s1)).
    { unfold extract_details, try_except. rewrite E. reflexivity. }
    apply extract_details_titled in E'. destruct E' as [Ht [s0 Hs]].
    rewrite (Hno pg s0 (title bd) Hs) in Ht. discriminate.
  - reflexivity.
  - apply Hhandler.
  - exfalso.
    destruct (extract_details_quiet wd page_call (fun e H => H) pg url s)
      as [Hd _].
    apply Hd. unfold extract_details, try_except. rewrite E. reflexivity.
Qed.
End Returns.

Section RunEmits.
Context {W : Type} (wd : world W).

Lemma keeps_call_titled {A : Type} (e : event) (op : W -> reply A * W) :
  is_add_book e = false -> keeps (emits titled_add) (call e op).
Proof.
  intros He s. exists [e]. split; [reflexivity|].
  constructor; [|constructor]. destruct e; try reflexivity. discriminate.
Qed.

Lemma keeps_log_titled (lvl : level) (msg : string) :
  keeps (emits titled_add) (@log W lvl msg).
Proof.
  intros s. exists [Log lvl msg]. split; [reflexivity | repeat constructor].
Qed.

(** Every row that a run hands to [add_book] has a title. *)
Lemma scrape_new_arrivals_titled (fuel : nat) (max_books : Z) :
  keeps (emits titled_add) (scrape_new_arrivals wd fuel max_books).
Proof.
  unfold scrape_new_arrivals, initialize, close, set_locals.
  apply keeps_bind; [apply emits_trans | apply keeps_log_titled | intros _].
  apply keeps_bind; [apply emits_trans
                    | apply keeps_call_titled; reflexivity | intros ready].
  destruct (negb ready).
  - apply keeps_bind; [apply emits_trans | apply keeps_log_titled
                      | intros _].
    apply keeps_bind; [apply emits_trans
                      | apply keeps_call_titled; reflexivity | intros _].
    apply keeps_ret, emits_refl.
  - apply keeps_bind; [apply emits_trans | | intros _].
    + intros s. exists []. split; [reflexivity | constructor].
    + apply keeps_bind; [apply emits_trans | | intros early].
      * intros s. apply (crawl_session_rel wd max_books fuel s).
      * destruct early.
        -- apply keeps_ret, emits_refl.
        -- apply keeps_bind; [apply emits_trans | apply keeps_log_titled
                             | intros _].
           apply keeps_get, emits_refl.
Qed.
End RunEmits.

(** C5.  An item page from which no title is extracted gives no record:
    [scrape_book] returns [None], or an exception of its page calls
    escapes to the caller; the extraction from a loaded page returns
    [None] when closing the page does not raise.  A record that
    [scrape_book] returns has a non-empty title, and every row that a run
    hands to [add_book] has one. *)
Theorem untitled_record_is_discarded :
  (forall (W : Type) (wd : world W) (url : text) (s : state W),
      no_title wd ->
      fst (scrape_book wd url s) = Ret None \/
      fst (scrape_book wd url s) = Raise) /\
  (forall (W : Type) (wd : world W) (pg : page) (url : text) (s : state W),
      no_title wd -> page_close_is_safe wd ->
      fst (extract_details wd pg url s) = Ret None) /\
  (forall (W : Type) (wd : world W) (url : text) (s s' : state W)
          (bd : book_data),
      scrape_book wd url s = (Ret (Some bd), s') ->
      truthy (title bd) = true) /\
  (forall (W : Type) (wd : world W) (fuel : nat) (max_books : Z)
          (s : state W),
      emits titled_add s (snd (scrape_new_arrivals wd fuel max_books s))).
Proof.
  split; [|split; [|split]].
  - intros W wd url s Hno. apply scrape_book_no_title. exact Hno.
  - intros W wd pg url s Hno Hclose.
    apply extract_details_no_title; assumption.
  - intros W wd url s s' bd H.
    apply (scrape_book_titled wd url s s' bd H).
  - intros W wd fuel max_books s. apply scrape_new_arrivals_titled.
Qed.

Lemma untitled_shop_pages (url : text) (p : web_page) :
  site_page untitled_shop url = Some p -> page_text p title_selector = None.
Proof.
  unfold untitled_shop, shop. cbn [site_page lookup_page].
  destruct (text_eqb url shop_target).
  - intros H. injection H as <-. reflexivity.
  - destruct (text_eqb url moby_url); [|discriminate].
    intros H. injection H as <-. reflexivity.
Qed.

Lemma untitled_shop_no_title : no_title (sim_world untitled_shop (0, 0)).
Proof.
  intros pg s t.
  cbv [_get_text try_except bind query_selector text_content call log
       emit ret].
  cbn [w_query_selector sim_world].
  destruct (sim_current untitled_shop pg (outside s)) as [p|] eqn:E.
  - assert (Hp : page_text p title_selector = None).
    { unfold sim_current in E.
      destruct (shown pg (sim_at (outside s))) as [url|]; [|discriminate].
      apply (untitled_shop_pages url p E). }
    rewrite Hp. simpl. discriminate.
  - simpl. discriminate.
Qed.

Lemma untitled_record_is_discarded_witness :
  (fst (scrape_book (sim_world untitled_shop (0, 0)) moby_url (sim_start []))
   = Ret None \/
   fst (scrape_book (sim_world untitled_shop (0, 0)) moby_url (sim_start []))
   = Raise) /\
  fst (extract_details (sim_world untitled_shop (0, 0)) 0%nat moby_url
         (sim_showing moby_url [])) = Ret None /\
  truthy (T "Moby Dick") = true /\
  emits titled_add (sim_start [])
    (snd (scrape_new_arrivals (sim_world untitled_shop (0, 0)) 2 10
            (sim_start []))).
Proof.
  destruct untitled_record_is_discarded as (Hnone & Hdetails & Htitled & Hrun).
  split; [|split; [|split]].
  - apply Hnone. exact untitled_shop_no_title.
  - apply Hdetails.
    + exact untitled_shop_no_title.
    + intros pg w. simpl. discriminate.
  - assert (E : exists s',
              scrape_book (sim_world three_link_shop (0, 0)) moby_url
                (sim_start [])
              = (Ret (Some (mkBook (T "Moby Dick") (T "Unknown") None
                              (JStr (T "9780142437247"))
                              (Some (PyFloat (T "9.99"))) moby_url None
                              JNull JNull JNull None JNull)), s')).
    { eexists. vm_compute. reflexivity. }
    destruct E as [s' E].
    exact (Htitled _ _ _ _ _ _ E).
  - apply Hrun.
Defined.

(** ** C6: the budget *)

Lemma try_finally_ret_inv {W A : Type} (m : M W A) (f : M W unit)
  (s s' : state W) (a : A) :
  try_finally m f s = (Ret a, s') ->
  exists s1, m s = (Ret a, s1) /\ f s1 = (Ret tt, s').
Proof.
  unfold try_finally. destruct (m s) as [[x| |] s1]; intros H;
    try discriminate;
    destruct (f s1) as [[[]| |] s2] eqn:Ef; try discriminate.
  injection H as H1 H2. subst. exists s1. auto.
Qed.

Section Budget.
Context {W : Type} (wd : world W) (max_books : Z).

(** The only [return] inside the [try] statement returns 0. *)
Lemma crawl_session_early (fuel : nat) (s s' : state W) (v : Z) :
  crawl_session wd fuel max_books s = (Ret (Some v), s') -> v = 0.
Proof.
  unfold crawl_session. intros H.
  apply try_finally_ret_inv in H. destruct H as (s1 & H & _).
  apply try_except_ret_inv in H. destruct H as [H | (s2 & _ & H)].
  - inv_bind H. inv_bind H. destruct a0 as [pg|].
    + do 3 (inv_bind H). apply ret_inv in H. discriminate.
    + do 2 (inv_bind H). apply ret_inv in H. congruence.
  - inv_bind H. apply ret_inv in H. discriminate.
Qed.

(** The value returned is a count between 0 and the budget. *)
Lemma scrape_new_arrivals_bound (fuel : nat) (s : state W) (n : Z) :
  0 <= max_books ->
  fst (scrape_new_arrivals wd fuel max_books s) = Ret n ->
  0 <= n <= max_books.
Proof.
  intros Hmax H.
  destruct (scrape_new_arrivals wd fuel max_books s) as [r s'] eqn:E.
  simpl in H. subst r. unfold scrape_new_arrivals in E.
  inv_bind E. inv_bind E. destruct (negb a0).
  - do 2 (inv_bind E). apply ret_inv in E. lia.
  - inv_bind E. inv_bind E.
    pose proof (crawl_session_rel wd max_books fuel s2) as Hrel.
    rewrite E3 in Hrel. simpl in Hrel.
    destruct Hrel as (_ & _ & _ & Hmono & Hbound).
    assert (H0 : scraped_count s2 = 0).
    { unfold set_locals, modify in E2. injection E2 as _ <-. reflexivity. }
    destruct a2 as [v|].
    + apply ret_inv in E. subst n.
      rewrite (crawl_session_early fuel s2 s3 v E3). lia.
    + inv_bind E. unfold get in E. injection E as <- _.
      unfold log, emit in E4. injection E4 as _ <-. simpl. lia.
Qed.

Lemma load_listing_locals (pg : page) (s : state W) :
  same_locals s (snd (load_listing wd pg s)).
Proof. apply (load_listing_quiet wd pg s). Qed.


End Budget.

Section BudgetRun.
Context {W : Type} (wd : world W) (max_books : Z).

End BudgetRun.


Lemma pair_fst {A B : Type} (p : A * B) (a : A) :
  fst p = a -> p = (a, snd p).
Proof. intros <-. apply pair_eta. Qed.


(** ** C2: what a run returns *)

Lemma try_except_log_no_raise {W A : Type} (m : M W A) (lvl : level)
  (msg : string) (a : A) (s : state W) :
  fst (try_except m (log lvl msg ;; ret a)%py s) <> Raise.
Proof.
  unfold try_except. destruct (m s) as [[x| |] s1]; simpl; discriminate.
Qed.

Section RunOutcome.
Context {W : Type} (wd : world W) (max_books : Z).

Lemma crawl_session_no_raise (fuel : nat) (s : state W) :
  close_is_safe wd -> fst (crawl_session wd fuel max_books s) <> Raise.
Proof.
  intros Hclose. unfold crawl_session, try_finally.
  match goal with
  | |- fst (match ?body s with _ => _ end) <> _ =>
      pose proof (try_except_log_no_raise
                    (log DEBUG "Creating new page" ;;
                     pg <- new_page wd ;;
                     match pg with
                     | None =>
                         log ERROR "Failed to create new page" ;;
                         close wd ;; ret (Some 0)
                     | Some pg =>
                         log DEBUG "Page created successfully" ;;
                         crawl_loop wd fuel pg max_books ;;
                         page_close wd pg ;; ret None
                     end)%py
                    ERROR "Error during scraping" None s) as Hbody;
      destruct (body s) as [[x| |] s1]
  end; simpl in Hbody; try contradiction; try discriminate.
  unfold close. rewrite call_run.
  pose proof (Hclose (outside s1)) as Hc.
  destruct (fst (w_close wd (outside s1))); [|contradiction].
  simpl. discriminate.
Qed.

(** A run raises only when [initialize] does (or [close]). *)
Lemma scrape_new_arrivals_raise (fuel : nat) (s : state W) :
  close_is_safe wd ->
  fst (scrape_new_arrivals wd fuel max_books s) = Raise ->
  fst (w_initialize wd
         (outside (logged (Log INFO "Starting to scrape new arrivals") s)))
  = Raises.
Proof.
  intros Hclose. unfold scrape_new_arrivals, initialize.
  rewrite bind_log, bind_call.
  destruct (fst (w_initialize wd _)) as [ready|]; [|reflexivity].
  intros H. exfalso. destruct ready; cbn [negb] in H.
  - rewrite (bind_ret _ _ _ (session_ready wd s) tt) in H by reflexivity.
    unfold bind at 1 in H.
    pose proof (crawl_session_no_raise fuel (session_ready wd s) Hclose)
      as Hs.
    destruct (crawl_session wd fuel max_books (session_ready wd s))
      as [[[v|]| |] s1]; simpl in *; try discriminate.
    contradiction.
  - rewrite bind_log in H. unfold close in H. rewrite bind_call in H.
    match type of H with
    | context [w_close wd ?w] =>
        pose proof (Hclose w) as Hc; destruct (fst (w_close wd w))
    end; [discriminate | contradiction].
Qed.

Lemma scrape_new_arrivals_unready (fuel : nat) (s : state W) :
  close_is_safe wd ->
  fst (w_initialize wd
         (outside (logged (Log INFO "Starting to scrape new arrivals") s)))
  = Returns false ->
  fst (scrape_new_arrivals wd fuel max_books s) = Ret 0.
Proof.
  intros Hclose Hinit. unfold scrape_new_arrivals, initialize.
  rewrite bind_log, bind_call, Hinit. cbn [negb].
  rewrite bind_log. unfold close. rewrite bind_call.
  match goal with
  | |- context [w_close wd ?w] =>
      pose proof (Hclose w) as Hc; destruct (fst (w_close wd w))
  end; [reflexivity | contradiction].
Qed.

(** The pagination loop ends when the catalog does. *)
Lemma crawl_loop_terminates (pg : page) (n : Z) :
  catalog_ends wd n ->
  forall fuel s,
    page_num s <= n ->
    n < page_num s + Z.of_nat fuel ->
    fst (crawl_loop wd fuel pg max_books s) <> Diverge.
Proof.
  intros Hend. induction fuel as [|fuel IH]; intros s Hlo Hhi; [lia|].
  cbn [crawl_loop]. unfold bind at 1, get.
  destruct (scraped_count s <? max_books); [|discriminate].
  cbn [negb]. unfold bind at 1.
  pose proof (load_listing_quiet wd pg s) as [Hd [(_ & _ & Lp) _]].
  pose proof (Hend pg s) as Hends.
  destruct (load_listing wd pg s) as [[[links|]| |] s1]; simpl in *;
    try discriminate; [|contradiction].
  assert (Hn : page_num s <> n) by (intros E; apply (Hends links E); reflexivity).
  unfold bind at 1.
  pose proof (item_loop_safe wd max_books links s1) as Hsafe.
  pose proof (item_loop_rel wd max_books links s1) as (_ & Hp & _).
  destruct (item_loop wd max_books links s1) as [[[]| |] s2]; simpl in *;
    try discriminate; [|contradiction].
  unfold bind at 1, get.
  destruct (scraped_count s2 <? max_books); [|discriminate].
  rewrite (bind_ret _ _ _ (turned s2) tt) by reflexivity.
  apply IH; simpl; lia.
Qed.

Lemma crawl_session_terminates (n : Z) (fuel : nat) (s : state W) :
  catalog_ends wd n ->
  page_num s <= n ->
  n < page_num s + Z.of_nat fuel ->
  fst (crawl_session wd fuel max_books s) <> Diverge.
Proof.
  intros Hend Hlo Hhi.
  assert (Hbody : forall A (m : M W A) (h : M W A) (f : M W unit) s0,
             fst (m s0) <> Diverge ->
             (forall s1, fst (h s1) <> Diverge) ->
             (forall s1, fst (f s1) <> Diverge) ->
             fst (try_finally (try_except m h) f s0) <> Diverge).
  { intros A m h f s0 Hm Hh Hf. unfold try_finally, try_except.
    destruct (m s0) as [[x| |] s1]; simpl in *; try contradiction.
    - specialize (Hf s1). destruct (f s1) as [[[]| |] s2]; simpl in *;
        try discriminate. contradiction.
    - specialize (Hh s1). destruct (h s1) as [[y| |] s2]; simpl in *;
        try contradiction;
        specialize (Hf s2); destruct (f s2) as [[[]| |] s3]; simpl in *;
        try discriminate; contradiction. }
  unfold crawl_session. apply Hbody.
  - rewrite bind_log. unfold new_page. rewrite bind_call.
    destruct (fst (w_new_page wd _)) as [[pg|]|]; try discriminate.
    + rewrite bind_log. unfold bind at 1.
      match goal with
      | |- context [crawl_loop wd fuel pg max_books ?s0] =>
          pose proof (crawl_loop_terminates pg n Hend fuel s0 Hlo Hhi) as Hl;
          destruct (crawl_loop wd fuel pg max_books s0) as [[[]| |] s1]
      end; simpl in *; try discriminate; [|contradiction].
      unfold page_close. rewrite bind_call.
      destruct (fst (w_page_close wd pg _)); discriminate.
    + rewrite bind_log. unfold close. rewrite bind_call.
      destruct (fst (w_close wd _)); discriminate.
  - intros s1. discriminate.
  - intros s1. unfold close. rewrite call_run.
    destruct (fst (w_close wd (outside s1))); discriminate.
Qed.

Lemma scrape_new_arrivals_terminates (n : Z) (fuel : nat) (s : state W) :
  catalog_ends wd n ->
  1 <= n ->
  n <= Z.of_nat fuel ->
  fst (scrape_new_arrivals wd fuel max_books s) <> Diverge.
Proof.
  intros Hend Hlo Hhi. unfold scrape_new_arrivals, initialize.
  rewrite bind_log, bind_call.
  destruct (fst (w_initialize wd _)) as [[|]|]; cbn [negb];
    try discriminate.
  - rewrite (bind_ret _ _ _ (session_ready wd s) tt) by reflexivity.
    unfold bind at 1.
    pose proof (crawl_session_terminates n fuel (session_ready wd s) Hend
                  ltac:(unfold session_ready; cbn [page_num]; lia)
                  ltac:(unfold session_ready; cbn [page_num]; lia)) as Hs.
    destruct (crawl_session wd fuel max_books (session_ready wd s))
      as [[[v|]| |] s1]; simpl in *; try discriminate.
    contradiction.
  - rewrite bind_log. unfold close. rewrite bind_call.
    destruct (fst (w_close wd _)); discriminate.
Qed.

(** When the session and the page are open, the value returned is the
    accepted counter. *)
Lemma scrape_new_arrivals_value (fuel : nat) (pg : page) (s : state W)
  (v : Z) :
  opened wd s pg ->
  fst (scrape_new_arrivals wd fuel max_books s) = Ret v ->
  v = scraped_count (snd (scrape_new_arrivals wd fuel max_books s)).
Proof.
  intros [Hinit Hpage]. unfold scrape_new_arrivals, initialize.
  rewrite bind_log, bind_call, Hinit. cbn [negb].
  rewrite (bind_ret _ _ _ (session_ready wd s) tt) by reflexivity.
  unfold bind at 1 3.
  destruct (crawl_session wd fuel max_books (session_ready wd s))
    as [[[v'|]| |] s1] eqn:E; simpl; try discriminate.
  - exfalso. unfold crawl_session in E.
    apply try_finally_ret_inv in E. destruct E as (s2 & E & _).
    apply try_except_ret_inv in E. destruct E as [E | (s3 & _ & E)].
    + rewrite bind_log in E. unfold new_page in E.
      rewrite bind_call, Hpage in E.
      do 3 (inv_bind E). apply ret_inv in E. discriminate.
    + inv_bind E. apply ret_inv in E. discriminate.
  - intros H. injection H as <-. reflexivity.
Qed.
End RunOutcome.

(** C2, as the code has it.  A run returns one integer: the accepted
    count, between 0 and the budget (0 when the browser session is not
    ready); the skip count is kept and logged, not returned.  Failures
    inside the crawl never make the run raise: it raises only when
    [initialize] raises (or [close] does).  On a catalog that ends at
    some listing page the run does return. *)
Theorem run_returns_accepted_count :
  (forall (W : Type) (wd : world W) (fuel : nat) (max_books : Z)
          (s : state W),
      close_is_safe wd ->
      fst (scrape_new_arrivals wd fuel max_books s) = Raise ->
      fst (w_initialize wd
             (outside (logged (Log INFO "Starting to scrape new arrivals")
                         s)))
      = Raises) /\
  (forall (W : Type) (wd : world W) (fuel : nat) (max_books n : Z)
          (s : state W),
      0 < max_books ->
      close_is_safe wd ->
      fst (w_initialize wd
             (outside (logged (Log INFO "Starting to scrape new arrivals")
                         s)))
      <> Raises ->
      catalog_ends wd n ->
      1 <= n <= Z.of_nat fuel ->
      exists v : Z,
        fst (scrape_new_arrivals wd fuel max_books s) = Ret v /\
        0 <= v <= max_books) /\
  (forall (W : Type) (wd : world W) (fuel : nat) (max_books : Z)
          (pg : page) (s : state W) (v : Z),
      opened wd s pg ->
      fst (scrape_new_arrivals wd fuel max_books s) = Ret v ->
      v = scraped_count (snd (scrape_new_arrivals wd fuel max_books s))) /\
  (forall (W : Type) (wd : world W) (fuel : nat) (max_books : Z)
          (s : state W),
      close_is_safe wd ->
      fst (w_initialize wd
             (outside (logged (Log INFO "Starting to scrape new arrivals")
                         s)))
      = Returns false ->
      fst (scrape_new_arrivals wd fuel max_books s) = Ret 0).
Proof.
  split; [|split; [|split]].
  - intros W wd fuel max_books s Hclose H.
    apply (scrape_new_arrivals_raise wd max_books fuel s Hclose H).
  - intros W wd fuel max_books n s Hmax Hclose Hinit Hend [Hlo Hhi].
    pose proof (scrape_new_arrivals_terminates wd max_books n fuel s
                  Hend Hlo Hhi) as Hterm.
    pose proof (scrape_new_arrivals_raise wd max_books fuel s Hclose)
      as Hraise.
    pose proof (scrape_new_arrivals_bound wd max_books fuel s) as Hbound.
    destruct (fst (scrape_new_arrivals wd fuel max_books s)) as [v| |].
    + exists v. split; [reflexivity|]. apply Hbound; [lia | reflexivity].
    + exfalso. apply Hinit. apply Hraise. reflexivity.
    + contradiction.
  - intros W wd fuel max_books pg s v Hopen H.
    apply (scrape_new_arrivals_value wd max_books fuel pg s v Hopen H).
  - intros W wd fuel max_books s Hclose Hinit.
    apply (scrape_new_arrivals_unready wd max_books fuel s Hclose Hinit).
Qed.

Lemma eight_link_shop_ends : catalog_ends (sim_world eight_link_shop (0, 0)) 2.
Proof.
  intros pg s links Hpn.
  unfold load_listing. unfold bind at 1, get. rewrite Hpn.
  rewrite bind_log. unfold goto. rewrite bind_call.
  cbn [w_goto sim_world outside logged].
  replace (current_page_url (sim_world eight_link_shop (0, 0)) 2)
    with (shop_target ++ T "?page=2") by (vm_compute; reflexivity).
  unfold sim_load.
  replace (site_broken eight_link_shop (shop_target ++ T "?page=2"))
    with false by (vm_compute; reflexivity).
  replace (site_page eight_link_shop (shop_target ++ T "?page=2"))
    with (@None web_page) by (vm_compute; reflexivity).
  cbn [fst snd ok negb]. rewrite bind_log. discriminate.
Qed.

Lemma run_returns_accepted_count_witness :
  exists v : Z,
    fst (scrape_new_arrivals (sim_world eight_link_shop (0, 0)) 2 10
           (sim_start [])) = Ret v /\
    0 <= v <= 10.
Proof.
  destruct run_returns_accepted_count as (_ & Hreturns & _ & _).
  apply (Hreturns sim (sim_world eight_link_shop (0, 0)) 2%nat 10 2
           (sim_start [])).
  - lia.
  - intros w. simpl. discriminate.
  - simpl. discriminate.
  - exact eight_link_shop_ends.
  - simpl. lia.
Defined.

(** C2, as stated, fails: the value returned does not carry the skip
    count.  No reading of the returned value gives the skip count of
    every run: two runs over the same three links with budget 2 both
    return 2; one of them skipped a known item, the other none. *)
Lemma return_value_hides_skips :
  ~ exists skipped_of : outcome Z -> Z,
      forall db : list book_row,
        skipped_of
          (fst (scrape_new_arrivals (sim_world three_link_shop (0, 0)) 3 2
                  (sim_start db)))
        = skipped_count
            (snd (scrape_new_arrivals (sim_world three_link_shop (0, 0)) 3 2
                    (sim_start db))).
Proof.
  intros [skipped_of H].
  pose proof (H walden_known) as H1. pose proof (H []) as H0.
  assert (V1 : fst (scrape_new_arrivals (sim_world three_link_shop (0, 0))
                      3 2 (sim_start walden_known)) = Ret 2)
    by (vm_compute; reflexivity).
  assert (V0 : fst (scrape_new_arrivals (sim_world three_link_shop (0, 0))
                      3 2 (sim_start [])) = Ret 2)
    by (vm_compute; reflexivity).
  assert (K1 : skipped_count
                 (snd (scrape_new_arrivals (sim_world three_link_shop (0, 0))
                         3 2 (sim_start walden_known))) = 1)
    by (vm_compute; reflexivity).
  assert (K0 : skipped_count
                 (snd (scrape_new_arrivals (sim_world three_link_shop (0, 0))
                         3 2 (sim_start []))) = 0)
    by (vm_compute; reflexivity).
  rewrite V1, K1 in H1. rewrite V0, K0 in H0. congruence.
Qed.

(** * Further properties *)

(** ** [_extract_price]: which number is taken *)












(** ** [_extract_sku_from_url]: the last segment of the address *)


Lemma lstrip_by_app (p : ascii -> bool) (a b : text) :
  lstrip_by p (a ++ b)
  = match lstrip_by p a with
    | [] => lstrip_by p b
    | x => x ++ b
    end.
Proof.
  induction a as [|c a IH]; simpl; [reflexivity|].
  destruct (p c); [exact IH | reflexivity].
Qed.




Lemma split_on_nonempty (sep : ascii) (s : text) : split_on sep s <> [].
Proof.
  destruct s as [|c s]; simpl; [discriminate|].
  destruct (ascii_eqb c sep); [discriminate|].
  destruct (split_on sep s); discriminate.
Qed.



Lemma split_on_parts (sep : ascii) (s : text) :
  Forall (Forall (fun c => c <> sep)) (split_on sep s).
Proof.
  induction s as [|c s IH]; simpl.
  - repeat constructor.
  - destruct (ascii_eqb c sep) eqn:E.
    + constructor; [constructor | exact IH].
    + destruct (split_on sep s) as [|p ps].
      * repeat constructor. intros ->. rewrite ascii_eqb_refl in E.
        discriminate.
      * inversion IH as [|? ? Hp Hps]; subst.
        constructor; [|exact Hps].
        constructor; [|exact Hp].
        intros ->. rewrite ascii_eqb_refl in E. discriminate.
Qed.





(** X4.  The identifier taken from an address holds no slash and has
    more than five characters. *)
Theorem extract_sku_from_url_segment (url sku_ : text) :
  _extract_sku_from_url url = Some sku_ ->
  no_slash sku_ /\ (5 < List.length sku_)%nat.
Proof.
  intros H. apply extract_sku_from_url_some in H. destruct H as [-> Hlen].
  split; [|exact Hlen].
  unfold last_segment. change "/"%char with slash.
  pose proof (split_on_parts slash (strip_by (ascii_eqb slash) url))
    as Hparts.
  pose proof (split_on_nonempty slash (strip_by (ascii_eqb slash) url))
    as Hne.
  destruct (exists_last Hne) as (ps & p & E).
  rewrite E in *. rewrite last_last.
  apply Forall_app in Hparts. destruct Hparts as [_ Hp].
  inversion Hp; assumption.
Qed.

Lemma extract_sku_from_url_segment_witness :
  no_slash (T "walden-9780000000002") /\
  (5 < List.length (T "walden-9780000000002"))%nat.
Proof.
  apply (extract_sku_from_url_segment
           (T "https://shop.example/books/walden-9780000000002/")).
  reflexivity.
Defined.

(** ** Decimal output: page addresses and fallback identifiers *)

Lemma digit_char_value (d : Z) :
  0 <= d < 10 -> Z.of_nat (code (digit_char d)) - 48 = d.
Proof.
  intros H.
  assert (C : d = 0 \/ d = 1 \/ d = 2 \/ d = 3 \/ d = 4 \/ d = 5 \/ d = 6
              \/ d = 7 \/ d = 8 \/ d = 9) by lia.
  repeat (destruct C as [-> | C]; [reflexivity|]). subst. reflexivity.
Qed.

Lemma dec_aux_value (fuel : nat) :
  forall n acc,
    0 <= n < 10 ^ Z.of_nat fuel ->
    fold_left decimal_step (dec_aux fuel n acc) 0
    = fold_left decimal_step acc n.
Proof.
  induction fuel as [|fuel IH]; intros n acc Hn.
  - simpl in Hn. assert (n = 0) by lia. subst. reflexivity.
  - cbn [dec_aux].
    pose proof (Z.mod_pos_bound n 10 ltac:(lia)) as Hm.
    pose proof (Z.div_mod n 10 ltac:(lia)) as Hdm.
    destruct (n <? 10) eqn:E.
    + apply Z.ltb_lt in E. cbn [fold_left]. unfold decimal_step at 2.
      rewrite digit_char_value by exact Hm.
      rewrite Z.mod_small by lia. reflexivity.
    + apply Z.ltb_ge in E.
      rewrite IH.
      * cbn [fold_left]. unfold decimal_step at 2.
        rewrite digit_char_value by exact Hm.
        f_equal. lia.
      * rewrite Nat2Z.inj_succ, Z.pow_succ_r in Hn by lia.
        split; [apply Z.div_pos; lia|].
        apply Z.div_lt_upper_bound; lia.
Qed.

Lemma str_of_int_value (n : Z) : 0 <= n -> decimal_value (str_of_int n) = n.
Proof.
  intros Hn. unfold decimal_value, str_of_int.
  rewrite dec_aux_value; [reflexivity|].
  split; [exact Hn|].
  rewrite Nat2Z.inj_succ, Z2Nat.id by apply Z.log2_nonneg.
  destruct (Z.eq_dec n 0) as [-> | Hz]; [reflexivity|].
  pose proof (Z.log2_spec n ltac:(lia)) as [_ Hlt].
  eapply Z.lt_le_trans; [exact Hlt|].
  apply Z.pow_le_mono_l. pose proof (Z.log2_nonneg n). lia.
Qed.

Lemma decimal_value_snoc (t : text) (c : ascii) :
  decimal_value (t ++ [c])
  = 10 * decimal_value t + (Z.of_nat (code c) - 48).
Proof.
  unfold decimal_value. rewrite fold_left_app. reflexivity.
Qed.

Lemma zfill_dec_value (w : nat) :
  forall n, 0 <= n -> decimal_value (zfill_dec w n) = n mod 10 ^ Z.of_nat w.
Proof.
  induction w as [|w IH]; intros n Hn.
  - simpl. rewrite Z.mod_1_r. reflexivity.
  - cbn [zfill_dec]. rewrite decimal_value_snoc.
    rewrite digit_char_value by (apply Z.mod_pos_bound; lia).
    rewrite IH by (apply Z.div_pos; lia).
    rewrite Nat2Z.inj_succ, Z.pow_succ_r by lia.
    rewrite Z.rem_mul_r by lia. lia.
Qed.

Lemma format_07d_value (n : Z) : 0 <= n -> decimal_value (format_07d n) = n.
Proof.
  intros Hn. unfold format_07d. destruct (n <? 10000000) eqn:E.
  - apply Z.ltb_lt in E. rewrite zfill_dec_value by exact Hn.
    apply Z.mod_small. change (10 ^ Z.of_nat 7) with 10000000. lia.
  - apply str_of_int_value. exact Hn.
Qed.

(** X5.  Two addresses get the same fallback identifier exactly when
    their hashes agree modulo ten million. *)
Theorem fallback_sku_collision (hash : text -> Z) (u1 u2 : text) :
  fallback_sku hash u1 = fallback_sku hash u2 <->
  hash u1 mod 10000000 = hash u2 mod 10000000.
Proof.
  unfold fallback_sku. split.
  - intros H. apply app_inv_head in H.
    apply (f_equal decimal_value) in H.
    rewrite !format_07d_value in H
      by (apply Z.mod_pos_bound; lia).
    exact H.
  - intros ->. reflexivity.
Qed.

(** X6.  Different page numbers have different listing addresses: the
    crawl never asks twice for the same page under two numbers. *)
Theorem current_page_url_distinct {W : Type} (wd : world W) (n m : Z) :
  1 <= n -> 1 <= m -> n <> m ->
  current_page_url wd n <> current_page_url wd m.
Proof.
  intros Hn Hm Hnm H. apply Hnm. clear Hnm.
  unfold current_page_url in H.
  assert (Hlen : forall sep k,
            sep <> [] -> target_url wd <> (target_url wd ++ sep ++ k)%list).
  { intros sep k Hsep E. apply (f_equal (@List.length ascii)) in E.
    rewrite !length_app in E. destruct sep; [contradiction|].
    simpl in E. lia. }
  assert (Hnum : forall sep,
            (target_url wd ++ sep ++ str_of_int n)%list
            = (target_url wd ++ sep ++ str_of_int m)%list -> n = m).
  { intros sep E. apply app_inv_head in E. apply app_inv_head in E.
    apply (f_equal decimal_value) in E.
    rewrite !str_of_int_value in E by lia. exact E. }
  destruct (1 <? n) eqn:En; destruct (1 <? m) eqn:Em.
  - destruct (contains "?" (target_url wd)); eapply Hnum; exact H.
  - exfalso.
    destruct (contains "?" (target_url wd));
      symmetry in H; revert H; apply Hlen; discriminate.
  - exfalso.
    destruct (contains "?" (target_url wd));
      revert H; apply Hlen; discriminate.
  - apply Z.ltb_ge in En, Em. lia.
Qed.

Lemma current_page_url_distinct_witness :
  current_page_url (sim_world three_link_shop (PyHashSeed.key_of_seed 0)) 2
  <> current_page_url (sim_world three_link_shop (PyHashSeed.key_of_seed 0)) 3.
Proof.
  apply current_page_url_distinct; lia.
Defined.

(** ** [_extract_isbn]: structured data and the check digit *)



Ltac ascii_cases c :=
  destruct c as [[] [] [] [] [] [] [] []];
  try discriminate; try reflexivity.


















(** ** The field extractors *)

Lemma lstrip_by_idem (p : ascii -> bool) (s : text) :
  lstrip_by p (lstrip_by p s) = lstrip_by p s.
Proof.
  induction s as [|c s IH]; simpl; [reflexivity|].
  destruct (p c) eqn:E; [exact IH|]. simpl. rewrite E. reflexivity.
Qed.

Lemma rstrip_by_idem (p : ascii -> bool) (s : text) :
  rstrip_by p (rstrip_by p s) = rstrip_by p s.
Proof.
  unfold rstrip_by. rewrite rev_involutive, lstrip_by_idem. reflexivity.
Qed.

Lemma lstrip_rstrip (p : ascii -> bool) (s : text) :
  lstrip_by p s = s -> lstrip_by p (rstrip_by p s) = rstrip_by p s.
Proof.
  destruct s as [|c s]; [reflexivity|].
  simpl. destruct (p c) eqn:E.
  - intros H. exfalso.
    assert (Hl : forall t, (List.length (lstrip_by p t) <= List.length t)%nat).
    { induction t as [|x t IH]; simpl; [lia|].
      destruct (p x); simpl; lia. }
    specialize (Hl s). rewrite H in Hl. simpl in Hl. lia.
  - intros _. unfold rstrip_by. cbn [rev]. rewrite lstrip_by_app.
    destruct (lstrip_by p (rev s)) as [|y ys].
    + simpl. rewrite E. simpl. rewrite E. reflexivity.
    + rewrite rev_app_distr. simpl. rewrite E. reflexivity.
Qed.

Lemma strip_by_idem (p : ascii -> bool) (s : text) :
  strip_by p (strip_by p s) = strip_by p s.
Proof.
  unfold strip_by.
  rewrite (lstrip_rstrip p (lstrip_by p s) (lstrip_by_idem p s)).
  apply rstrip_by_idem.
Qed.

Section FieldFacts.
Context {W : Type} (wd : world W).

Lemma get_text_cases (pg : page) (selector : text) (s : state W) :
  exists r,
    fst (_get_text wd pg selector s) = Ret r /\
    match r with
    | Some t => exists t0, truthy t0 = true /\ t = py_strip t0
    | None => True
    end.
Proof.
  cbv [_get_text try_except bind query_selector text_content call ret log
       emit answered].
  destruct (fst (w_query_selector wd pg selector (outside s)))
    as [[el|]|]; cbn [fst snd outside].
  - destruct (fst (w_text_content wd el _)) as [[t|]|]; cbn [fst snd].
    + destruct (truthy t) eqn:Et.
      * exists (Some (py_strip t)). split; [reflexivity|]. exists t. auto.
      * exists None. auto.
    + exists None. auto.
    + exists None. auto.
  - exists None. auto.
  - exists None. auto.
Qed.

Lemma get_text_stripped_inv (pg : page) (selector : text) (s s' : state W)
  (t : text) :
  _get_text wd pg selector s = (Ret (Some t), s') -> py_strip t = t.
Proof.
  intros H. destruct (get_text_cases pg selector s) as (r & Hr & Hc).
  rewrite H in Hr. injection Hr as <-. destruct Hc as (t0 & _ & ->).
  apply strip_by_idem.
Qed.

Lemma extract_sku_cases (pg : page) (url : text) (s : state W) :
  exists v,
    fst (_extract_sku wd pg url s) = Ret v /\ py_truthy v = true.
Proof.
  assert (Hafter : forall s0,
    exists v,
      fst ((found <- try_except
                 (sku <- evaluate wd pg sku_script ;;
                  ret (if py_truthy sku then Some sku else None))
                 (log WARNING "Error extracting SKU" ;; ret None) ;;
            match found with
            | Some sku => ret sku
            | None =>
                log WARNING "Using fallback SKU" ;;
                ret (JStr (fallback_sku (py_hash wd) url))
            end)%py s0) = Ret v /\ py_truthy v = true).
  { intros s0.
    cbv [try_except bind evaluate call ret log emit answered].
    destruct (fst (w_evaluate wd pg (outside s0))) as [d|]; cbn [fst snd].
    - destruct (py_truthy (sku_script d)) eqn:Ev.
      + exists (sku_script d). auto.
      + eexists. split; reflexivity.
    - eexists. split; reflexivity. }
  unfold _extract_sku.
  destruct (_extract_sku_from_url url) as [sku_|]; [|apply Hafter].
  destruct (truthy sku_) eqn:Et; [|apply Hafter].
  exists (JStr sku_). split; [reflexivity | exact Et].
Qed.

Lemma extract_isbn_returns (pg : page) (s : state W) :
  exists r, fst (_extract_isbn wd pg s) = Ret r.
Proof.
  cbv [_extract_isbn try_except bind evaluate call ret log emit answered
       re_sub_isbn raise].
  destruct (fst (w_evaluate wd pg (outside s))) as [d|]; cbn [fst snd].
  - destruct (py_truthy (isbn_script d)).
    + destruct (isbn_script d); eexists; reflexivity.
    + eexists; reflexivity.
  - eexists; reflexivity.
Qed.

Lemma extract_binding_returns (pg : page) (s : state W) :
  exists r, fst (_extract_binding wd pg s) = Ret r.
Proof.
  cbv [_extract_binding try_except bind evaluate call ret log emit answered].
  destruct (fst (w_evaluate wd pg (outside s))) as [d|]; cbn [fst snd];
    eexists; reflexivity.
Qed.

Lemma extract_publication_returns (pg : page) (s : state W) :
  exists r, fst (_extract_publication_details wd pg s) = Ret r.
Proof.
  cbv [_extract_publication_details try_except bind evaluate call ret log
       emit answered dict_get raise].
  destruct (fst (w_evaluate wd pg (outside s))) as [d|]; cbn [fst snd].
  - destruct (publication_result d); eexists; reflexivity.
  - eexists; reflexivity.
Qed.

Lemma extract_book_links_returns (pg : page) (s : state W) :
  exists r, fst (_extract_book_links wd pg s) = Ret r.
Proof.
  cbv [_extract_book_links try_except bind evaluate call ret log emit
       answered].
  destruct (fst (w_evaluate wd pg (outside s))) as [d|]; cbn [fst snd];
    eexists; reflexivity.
Qed.

(** X9.  No field extractor raises: whatever the page answers, and also
    when it raises, each of them returns a value. *)
Theorem field_extractors_return (pg : page) (selector url : text)
  (s : state W) :
  (exists r, fst (_get_text wd pg selector s) = Ret r) /\
  (exists r, fst (_extract_sku wd pg url s) = Ret r) /\
  (exists r, fst (_extract_isbn wd pg s) = Ret r) /\
  (exists r, fst (_extract_binding wd pg s) = Ret r) /\
  (exists r, fst (_extract_publication_details wd pg s) = Ret r) /\
  (exists r, fst (_extract_book_links wd pg s) = Ret r).
Proof.
  split; [|split; [|split; [|split; [|split]]]].
  - destruct (get_text_cases pg selector s) as (r & Hr & _). eauto.
  - destruct (extract_sku_cases pg url s) as (r & Hr & _). eauto.
  - apply extract_isbn_returns.
  - apply extract_binding_returns.
  - apply extract_publication_returns.
  - apply extract_book_links_returns.
Qed.


(** X11.  The identifier [_extract_sku] returns is never empty, null or
    zero. *)
Theorem extract_sku_truthy (pg : page) (url : text) (s : state W) :
  exists v,
    fst (_extract_sku wd pg url s) = Ret v /\ py_truthy v = true.
Proof. apply extract_sku_cases. Qed.

End FieldFacts.



(** ** [scrape_book]: the record and the page *)

Lemma or_default_truthy (x : option text) (d : text) :
  truthy d = true -> truthy (or_default x d) = true.
Proof.
  intros Hd. unfold or_default. destruct x as [t|]; [|exact Hd].
  destruct (truthy t) eqn:Et; [exact Et | exact Hd].
Qed.

Lemma or_default_stripped (x : option text) (d : text) :
  match x with Some t => py_strip t = t | None => True end ->
  py_strip d = d ->
  py_strip (or_default x d) = or_default x d.
Proof.
  intros Hx Hd. unfold or_default. destruct x as [t|]; [|exact Hd].
  destruct (truthy t); [exact Hx | exact Hd].
Qed.

Lemma page_close_inv {W : Type} (wd : world W) (pg : page)
  (s s' : state W) (u : unit) :
  page_close wd pg s = (Ret u, s') ->
  s' = called (PageClose pg) (w_page_close wd pg) s.
Proof.
  unfold page_close. rewrite call_run. intros H. injection H as _ <-.
  reflexivity.
Qed.

Section RecordFacts.
Context {W : Type} (wd : world W).

Lemma extract_details_record (pg : page) (url : text) (s s' : state W)
  (bd : book_data) :
  extract_details wd pg url s = (Ret (Some bd), s') -> well_formed url bd.
Proof.
  unfold extract_details. intros H.
  apply try_except_ret_inv in H. destruct H as [H | (s1 & _ & H)].
  - inv_bind H. inv_bind H. inv_bind H.
    rename a0 into sku_, E0 into Esku, a1 into found, E1 into Etitle.
    destruct found as [t|]; simpl in H.
    + destruct (truthy t) eqn:Et; simpl in H.
      * inv_bind H. rename a0 into author_, E0 into Eauthor.
        inv_bind H. rename a0 into price_, E0 into Eprice.
        inv_bind H. rename a0 into isbn_, E0 into Eisbn.
        do 6 (inv_bind H). apply ret_inv in H. injection H as <-.
        unfold well_formed. cbn [wob_url title author sku wob_price isbn].
        split; [reflexivity|]. split; [exact Et|].
        split; [exact (get_text_stripped_inv wd _ _ _ _ _ Etitle)|].
        split; [apply or_default_truthy; reflexivity|].
        split.
        { apply or_default_stripped; [|reflexivity].
          destruct author_ as [t'|]; [|exact I].
          exact (get_text_stripped_inv wd _ _ _ _ _ Eauthor). }
        split.
        { destruct (extract_sku_cases wd pg url s0) as (v & Hv & Htr).
          rewrite Esku in Hv. injection Hv as <-. exact Htr. }
        split.
        { destruct (_extract_price price_) as [[lit]|] eqn:Ep; [|exact I].
          exact (extract_price_shape _ _ Ep). }
        destruct isbn_ as [r|]; [|exact I].
        apply (extract_isbn_chars wd pg s4). rewrite Eisbn. reflexivity.
      * inv_bind H. inv_bind H. apply ret_inv in H. discriminate.
    + inv_bind H. inv_bind H. apply ret_inv in H. discriminate.
  - inv_bind H. inv_bind H. apply ret_inv in H. discriminate.
Qed.

Lemma extract_details_closes (pg : page) (url : text) (s s' : state W)
  (r : option book_data) :
  extract_details wd pg url s = (Ret r, s') ->
  exists s0, s' = called (PageClose pg) (w_page_close wd pg) s0.
Proof.
  assert (Hend : forall (v : option book_data) s1,
            (page_close wd pg ;; ret v)%py s1 = (Ret r, s') ->
            exists s0, s' = called (PageClose pg) (w_page_close wd pg) s0).
  { intros v s1 H. inv_bind H. apply page_close_inv in E.
    injection H as _ <-. eauto. }
  unfold extract_details. intros H.
  apply try_except_ret_inv in H. destruct H as [H | (s1 & _ & H)].
  - inv_bind H. inv_bind H. inv_bind H.
    destruct (negb (truthy_opt a1)).
    + inv_bind H. exact (Hend _ _ H).
    + do 8 (inv_bind H). exact (Hend _ _ H).
  - inv_bind H. exact (Hend _ _ H).
Qed.

Lemma scrape_book_well_formed (url : text) (s s' : state W)
  (bd : book_data) :
  scrape_book wd url s = (Ret (Some bd), s') -> well_formed url bd.
Proof.
  unfold scrape_book. intros H.
  inv_bind H. inv_bind H. destruct a0 as [pg|].
  - inv_bind H. destruct (negb (response_ok a0)).
    + inv_bind H. inv_bind H. apply ret_inv in H. discriminate.
    + exact (extract_details_record pg url _ _ bd H).
  - inv_bind H. apply ret_inv in H. discriminate.
Qed.

(** X13.  Every record [scrape_book] returns carries the address it was
    asked for, a non-empty stripped title, a non-empty stripped author
    ("Unknown" when the page names none), a truthy identifier, a price
    that is null or a number with two decimals, and an ISBN that is null
    or made of digits and X. *)
Theorem scrape_book_record (url : text) (s : state W) (bd : book_data) :
  fst (scrape_book wd url s) = Ret (Some bd) -> well_formed url bd.
Proof.
  intros H. apply pair_fst in H.
  exact (scrape_book_well_formed url s _ bd H).
Qed.

(** X14.  When [scrape_book] has opened a page and returns, with a
    record or without, closing that page was the last thing it did. *)
Theorem scrape_book_closes_page (url : text) (s : state W) (pg : page)
  (r : option book_data) :
  fst (w_new_page wd (outside s)) = Returns (Some pg) ->
  fst (scrape_book wd url s) = Ret r ->
  exists s0,
    snd (scrape_book wd url s)
    = called (PageClose pg) (w_page_close wd pg) s0.
Proof.
  intros Hpg H. apply pair_fst in H. revert H.
  generalize (snd (scrape_book wd url s)). intros s' H.
  unfold scrape_book, new_page in H.
  rewrite bind_log, bind_call in H. cbn [outside logged] in H.
  rewrite Hpg in H.
  inv_bind H. destruct (negb (response_ok a)).
  - inv_bind H. inv_bind H. apply page_close_inv in E1.
    injection H as _ <-. eauto.
  - exact (extract_details_closes pg url _ _ r H).
Qed.

(** X15.  When the navigation of the item page raises, [scrape_book]
    raises at once: the page it opened is left open. *)
Theorem scrape_book_navigation_failure (url : text) (s : state W)
  (pg : page) :
  fst (w_new_page wd (outside s)) = Returns (Some pg) ->
  fst (w_navigate wd pg url (snd (w_new_page wd (outside s)))) = Raises ->
  fst (scrape_book wd url s) = Raise /\
  trace (snd (scrape_book wd url s))
  = Navigate pg url :: NewPage :: Log DEBUG "Scraping book" :: trace s.
Proof.
  intros Hpg Hnav.
  unfold scrape_book, new_page, navigate.
  rewrite bind_log, bind_call. cbn [outside logged]. rewrite Hpg.
  rewrite bind_call. cbn [outside called logged]. rewrite Hnav.
  split; reflexivity.
Qed.

(** X16.  A failure of the dedup look-up is not contained: the item
    loop raises at that link and the links after it are not tried. *)
Theorem lookup_failure_ends_item_loop (max_books : Z) (url sku_ : text)
  (rest : list text) (s : state W) :
  scraped_count s < max_books ->
  _extract_sku_from_url url = Some sku_ ->
  fst (w_get_book_by_sku wd sku_ (outside s)) = Raises ->
  item_loop wd max_books (url :: rest) s
  = (Raise, called (GetBookBySku sku_) (w_get_book_by_sku wd sku_) s).
Proof.
  intros Hlt Hu Hdb.
  cbn [item_loop]. unfold bind at 1, get.
  replace (max_books <=? scraped_count s) with false
    by (symmetry; apply Z.leb_gt; exact Hlt).
  unfold process_link, already_known. rewrite Hu.
  rewrite (extract_sku_from_url_truthy url sku_ Hu).
  unfold _is_book_in_database.
  rewrite (extract_sku_from_url_truthy url sku_ Hu). cbn [negb].
  unfold get_book_by_sku.
  cbv [bind call answered]. rewrite Hdb. reflexivity.
Qed.
End RecordFacts.

Lemma scrape_book_record_witness :
  well_formed moby_url
    (mkBook (T "Moby Dick") (T "Unknown") None (JStr (T "9780142437247"))
            (Some (PyFloat (T "9.99"))) moby_url None JNull JNull JNull
            None JNull).
Proof.
  apply (scrape_book_record (sim_world three_link_shop (0, 0)) moby_url
           (sim_start [])).
  reflexivity.
Defined.

Lemma scrape_book_closes_page_witness :
  exists s0,
    snd (scrape_book (sim_world untitled_shop (0, 0)) moby_url (sim_start []))
    = called (PageClose 0%nat)
        (w_page_close (sim_world untitled_shop (0, 0)) 0%nat) s0.
Proof.
  apply (scrape_book_closes_page (sim_world untitled_shop (0, 0)) moby_url
           (sim_start []) 0%nat None).
  - reflexivity.
  - reflexivity.
Defined.

Lemma scrape_book_navigation_failure_witness :
  fst (scrape_book (sim_world flaky_shop (0, 0)) moby_url (sim_start []))
  = Raise /\
  trace (snd (scrape_book (sim_world flaky_shop (0, 0)) moby_url
                (sim_start [])))
  = [Navigate 0%nat moby_url; NewPage; Log DEBUG "Scraping book"].
Proof.
  apply (scrape_book_navigation_failure (sim_world flaky_shop (0, 0))
           moby_url (sim_start []) 0%nat).
  - reflexivity.
  - reflexivity.
Defined.

Lemma lookup_failure_ends_item_loop_witness :
  item_loop (offline_table (sim_world three_link_shop (0, 0))) 10
    [moby_url; walden_url; ulysses_url] (sim_start [])
  = (Raise,
     called (GetBookBySku (T "9780142437247"))
       (w_get_book_by_sku (offline_table (sim_world three_link_shop (0, 0)))
          (T "9780142437247"))
       (sim_start [])).
Proof.
  apply (lookup_failure_ends_item_loop
           (offline_table (sim_world three_link_shop (0, 0))) 10
           moby_url (T "9780142437247") [walden_url; ulysses_url]
           (sim_start [])).
  - reflexivity.
  - reflexivity.
  - reflexivity.
Defined.

(** ** The session *)

Section SessionFacts.
Context {W : Type} (wd : world W).

Lemma try_finally_close {A : Type} (m : M W A) (s : state W) :
  fst (try_finally m (close wd) s) <> Diverge ->
  exists s1,
    snd (try_finally m (close wd) s) = called Close (w_close wd) s1.
Proof.
  unfold try_finally, close. intros H.
  destruct (m s) as [[a| |] s1]; [| |contradiction];
    rewrite call_run in *;
    destruct (fst (w_close wd (outside s1))); simpl; eauto.
Qed.

Lemma crawl_session_closes (fuel : nat) (max_books : Z) (s : state W) :
  fst (crawl_session wd fuel max_books s) <> Diverge ->
  exists s1,
    snd (crawl_session wd fuel max_books s) = called Close (w_close wd) s1.
Proof. unfold crawl_session. apply try_finally_close. Qed.

(** X17.  Once [initialize] has returned, a run that ends has closed
    the browser session on its way out, however it ends: [close] is its
    last call, followed at most by the closing log line. *)
Theorem session_is_closed (fuel : nat) (max_books : Z) (s : state W) :
  fst (w_initialize wd (outside s)) <> Raises ->
  fst (scrape_new_arrivals wd fuel max_books s) <> Diverge ->
  exists tr,
    trace (snd (scrape_new_arrivals wd fuel max_books s)) = Close :: tr \/
    trace (snd (scrape_new_arrivals wd fuel max_books s))
    = Log INFO "Completed scraping" :: Close :: tr.
Proof.
  intros Hinit. unfold scrape_new_arrivals, initialize.
  rewrite bind_log, bind_call. cbn [outside logged].
  destruct (fst (w_initialize wd (outside s))) as [ready|];
    [|contradiction].
  destruct ready; cbn [negb].
  - match goal with
    | |- context [bind (set_locals 0 0 1) ?k ?s0] =>
        rewrite (bind_ret (set_locals 0 0 1) k s0
                   (mkState (outside s0) (trace s0) 0 0 1) tt)
          by reflexivity;
        set (s1 := mkState (outside s0) (trace s0) 0 0 1)
    end.
    pose proof (crawl_session_closes fuel max_books s1) as Hc.
    destruct (crawl_session wd fuel max_books s1) as [[[v|]| |] s2] eqn:E;
      simpl in Hc.
    + rewrite (bind_ret _ _ _ _ _ E). intros _.
      destruct (Hc ltac:(discriminate)) as (s3 & ->). eexists. left.
      reflexivity.
    + rewrite (bind_ret _ _ _ _ _ E). intros _.
      destruct (Hc ltac:(discriminate)) as (s3 & ->). eexists. right.
      reflexivity.
    + unfold bind. rewrite E. intros _.
      destruct (Hc ltac:(discriminate)) as (s3 & ->). eexists. left.
      reflexivity.
    + unfold bind. rewrite E. simpl. intros Hd. contradiction.
  - intros _. rewrite bind_log. unfold close. rewrite bind_call.
    destruct (fst (w_close wd _)); eexists; left; reflexivity.
Qed.

(** X18.  When the first listing page cannot be loaded or shows no
    link, the run ends at once: it closes the page and the session and
    returns 0, without a look-up or a visit. *)
Theorem empty_first_listing (fuel : nat) (max_books : Z) (s : state W)
  (pg : page) :
  opened wd s pg ->
  close_is_safe wd -> page_close_is_safe wd ->
  fst (load_listing wd pg (loop_entry wd s)) = Ret None ->
  scrape_new_arrivals wd (S fuel) max_books s
  = (Ret 0,
     logged (Log INFO "Completed scraping")
       (called Close (w_close wd)
          (called (PageClose pg) (w_page_close wd pg)
             (if 0 <? max_books
              then snd (load_listing wd pg (loop_entry wd s))
              else loop_entry wd s)))).
Proof.
  intros [Hinit Hpage] Hclose Hpclose Hload.
  pose proof (load_listing_locals wd pg (loop_entry wd s)) as (Hsc & _ & _).
  unfold scrape_new_arrivals, initialize.
  rewrite bind_log, bind_call, Hinit. cbn [negb].
  rewrite (bind_ret _ _ _ (session_ready wd s) tt) by reflexivity.
  assert (Hloop : crawl_loop wd (S fuel) pg max_books (loop_entry wd s)
                  = (Ret tt,
                     if 0 <? max_books
                     then snd (load_listing wd pg (loop_entry wd s))
                     else loop_entry wd s)).
  { cbn [crawl_loop]. unfold bind at 1, get.
    change (scraped_count (loop_entry wd s)) with 0.
    destruct (0 <? max_books); [|reflexivity]. cbn [negb].
    apply pair_fst in Hload.
    rewrite (bind_ret _ _ _ _ None Hload). reflexivity. }
  set (s1 := if 0 <? max_books
             then snd (load_listing wd pg (loop_entry wd s))
             else loop_entry wd s) in *.
  assert (Hs1 : scraped_count s1 = 0).
  { unfold s1. destruct (0 <? max_books); [exact Hsc | reflexivity]. }
  assert (Hsession : crawl_session wd (S fuel) max_books (session_ready wd s)
                     = (Ret None,
                        called Close (w_close wd)
                          (called (PageClose pg) (w_page_close wd pg) s1))).
  { unfold crawl_session, try_finally, try_except.
    rewrite bind_log. unfold new_page. rewrite bind_call, Hpage.
    rewrite bind_log.
    change (logged (Log DEBUG "Page created successfully") _)
      with (loop_entry wd s).
    rewrite (bind_ret _ _ _ _ tt Hloop).
    unfold page_close. rewrite bind_call.
    pose proof (Hpclose pg (outside s1)) as Hp.
    destruct (fst (w_page_close wd pg (outside s1))) as [[]|];
      [|contradiction].
    cbn [ret]. unfold close. rewrite call_run.
    pose proof (Hclose (outside (called (PageClose pg)
                                   (w_page_close wd pg) s1))) as Hc.
    destruct (fst (w_close wd _)) as [[]|]; [|contradiction].
    reflexivity. }
  rewrite (bind_ret _ _ _ _ None Hsession).
  rewrite bind_log. unfold get. cbn [scraped_count logged called].
  rewrite Hs1. reflexivity.
Qed.
End SessionFacts.

Lemma session_is_closed_witness :
  exists tr,
    trace (snd (scrape_new_arrivals (sim_world three_link_shop (0, 0)) 3 5
                  (sim_start []))) = Close :: tr \/
    trace (snd (scrape_new_arrivals (sim_world three_link_shop (0, 0)) 3 5
                  (sim_start [])))
    = Log INFO "Completed scraping" :: Close :: tr.
Proof.
  apply (session_is_closed (sim_world three_link_shop (0, 0)) 3 5
           (sim_start [])).
  - discriminate.
  - vm_compute. discriminate.
Defined.

Lemma empty_first_listing_witness :
  fst (scrape_new_arrivals (sim_world anonymous_shop (0, 0)) 1 5
         (sim_start [])) = Ret 0.
Proof.
  refine (f_equal fst
            (empty_first_listing (sim_world anonymous_shop (0, 0)) 0 5
               (sim_start []) 0%nat _ _ _ _)).
  - split; reflexivity.
  - intros w. discriminate.
  - intros pg w. discriminate.
  - reflexivity.
Defined.

(** ** The calls of a run, in order *)

Section FieldQuiet.
Context {W : Type} (wd : world W) (P : event -> bool).
Hypothesis P_field : forall e, field_call e = true -> P e = true.

Ltac field_ok := apply P_field; reflexivity.

Ltac fstep :=
  lazymatch goal with
  | |- safe _ (ret _) => apply safe_ret; apply quiet_refl
  | |- safe _ raise => apply safe_raise; apply quiet_refl
  | |- safe _ (get _) => apply safe_get; apply quiet_refl
  | |- safe _ (bind _ _) =>
      apply safe_bind; [apply quiet_trans | | intros ?]
  | |- safe _ (try_except _ _) =>
      apply safe_try_except; [apply quiet_trans | |]
  | |- safe _ (call _ _) => apply safe_call; field_ok
  | |- safe _ (emit _) => apply safe_emit; field_ok
  | |- safe _ (match ?x with _ => _ end) => destruct x
  | |- safe _ (if ?b then _ else _) => destruct b
  end.

Lemma evaluate_fields {A : Type} (pg : page) (script : dom -> A) :
  safe (quiet P) (evaluate wd pg script).
Proof. unfold evaluate. repeat fstep. Qed.

Lemma get_text_fields (pg : page) (selector : text) :
  safe (quiet P) (_get_text wd pg selector).
Proof.
  unfold _get_text, query_selector, text_content, log. repeat fstep.
Qed.

Lemma extract_sku_fields (pg : page) (url : text) :
  safe (quiet P) (_extract_sku wd pg url).
Proof.
  unfold _extract_sku, log.
  assert (H : safe (quiet P)
    (found <- try_except
               (sku <- evaluate wd pg sku_script ;;
                ret (if py_truthy sku then Some sku else None))
               (emit (Log WARNING "Error extracting SKU") ;; ret None) ;;
     match found with
     | Some sku => ret sku
     | None =>
         emit (Log WARNING "Using fallback SKU") ;;
         ret (JStr (fallback_sku (py_hash wd) url))
     end)%py).
  { fstep; [fstep; [fstep; [apply evaluate_fields | repeat fstep]
                   | repeat fstep]
           | repeat fstep]. }
  destruct (_extract_sku_from_url url) as [sku|];
    [destruct (truthy sku); [fstep | exact H] | exact H].
Qed.

Lemma extract_isbn_fields (pg : page) :
  safe (quiet P) (_extract_isbn wd pg).
Proof.
  unfold _extract_isbn, re_sub_isbn, log.
  fstep; [fstep; [apply evaluate_fields | repeat fstep] | repeat fstep].
Qed.

Lemma extract_binding_fields (pg : page) :
  safe (quiet P) (_extract_binding wd pg).
Proof.
  unfold _extract_binding, log.
  fstep; [apply evaluate_fields | repeat fstep].
Qed.

Lemma extract_publication_fields (pg : page) :
  safe (quiet P) (_extract_publication_details wd pg).
Proof.
  unfold _extract_publication_details, dict_get, log.
  fstep; [fstep; [apply evaluate_fields | repeat fstep] | repeat fstep].
Qed.

Lemma extract_book_links_fields (pg : page) :
  safe (quiet P) (_extract_book_links wd pg).
Proof.
  unfold _extract_book_links, log.
  fstep; [apply evaluate_fields | repeat fstep].
Qed.

Lemma extract_details_fields (pg : page) (url : text) :
  safe (quiet P) (extract_details wd pg url).
Proof.
  unfold extract_details, page_close, wait_for_load_state, log.
  repeat (fstep
          || apply evaluate_fields || apply get_text_fields
          || apply extract_sku_fields || apply extract_isbn_fields
          || apply extract_binding_fields
          || apply extract_publication_fields).
Qed.

Lemma after_navigate_fields (pg : page) (url : text) (r : option response) :
  safe (quiet P)
    (if negb (response_ok r)
     then (log WARNING "Failed to load book page" ;;
           page_close wd pg ;; ret None)%py
     else extract_details wd pg url).
Proof.
  unfold page_close, log. repeat (fstep || apply extract_details_fields).
Qed.
End FieldQuiet.

Lemma load_listing_steps {W : Type} (wd : world W) (pg : page) :
  safe (quiet listing_step) (load_listing wd pg).
Proof.
  unfold load_listing, goto, wait_for_load_state, log.
  apply safe_bind; [apply quiet_trans | apply safe_get, quiet_refl
                   | intros pn].
  apply safe_bind; [apply quiet_trans | apply safe_emit; reflexivity
                   | intros _].
  apply safe_bind; [apply quiet_trans | apply safe_call; reflexivity
                   | intros response].
  destruct response as [r|].
  - destruct (negb (ok r)).
    + apply safe_bind; [apply quiet_trans | apply safe_emit; reflexivity
                       | intros _].
      apply safe_ret, quiet_refl.
    + apply safe_bind; [apply quiet_trans | apply safe_emit; reflexivity
                       | intros _].
      apply safe_bind; [apply quiet_trans | apply safe_call; reflexivity
                       | intros _].
      apply safe_bind; [apply quiet_trans | apply safe_emit; reflexivity
                       | intros _].
      apply safe_bind; [apply quiet_trans | | intros links].
      * apply extract_book_links_fields.
        intros e He. destruct e; try discriminate; reflexivity.
      * destruct links;
          (apply safe_bind; [apply quiet_trans | apply safe_emit; reflexivity
                            | intros _]);
          apply safe_ret, quiet_refl.
  - apply safe_bind; [apply quiet_trans | apply safe_emit; reflexivity
                     | intros _].
    apply safe_ret, quiet_refl.
Qed.

Lemma orderly_app (a b : list event) :
  orderly a -> orderly b -> orderly (a ++ b).
Proof.
  intros Ha Hb. induction a as [|e a IH]; [exact Hb|].
  destruct Ha as [He Ha]. cbn [app orderly]. split; [|exact (IH Ha)].
  destruct e; try exact I.
  destruct He as (rest & ->).
  exists (rest ++ b).
  cbn [app]. rewrite <- app_assoc. reflexivity.
Qed.

Lemma orderly_plain (evs : list event) :
  Forall (fun e => plain_call e = true) evs -> orderly evs.
Proof.
  induction 1 as [|e evs He _ IH]; [exact I|].
  split; [|exact IH]. destruct e; try exact I. discriminate.
Qed.

Lemma orderly_hand_over (evs : list event) :
  Forall hand_over evs -> orderly evs.
Proof.
  induction 1 as [|e evs He _ IH]; [exact I|].
  split; [|exact IH]. destruct e; try exact I. contradiction.
Qed.

Lemma field_is_plain (e : event) :
  field_call e = true -> plain_call e = true.
Proof. destruct e; simpl; congruence. Qed.

Lemma skip_is_plain (e : event) :
  skip_call e = true -> plain_call e = true.
Proof. destruct e; simpl; congruence. Qed.

Lemma listing_is_plain (e : event) :
  listing_step e = true -> plain_call e = true.
Proof. destruct e; simpl; congruence. Qed.

Lemma plain_stored (evs : list event) :
  Forall (fun e => plain_call e = true) evs -> Forall stored_row evs.
Proof.
  intros H. eapply Forall_impl; [|exact H].
  intros e He. destruct e; try exact I. discriminate.
Qed.

Section VisitFacts.
Context {W : Type} (wd : world W).

(** The calls of [scrape_book]: the page is opened, visited as soon as
    there is one, and then only read and closed. *)
Lemma scrape_book_shape (url : text) (s : state W) :
  exists evs nav,
    trace (snd (scrape_book wd url s))
    = evs ++ nav ++ NewPage :: Log DEBUG "Scraping book" :: trace s /\
    Forall (fun e => field_call e = true) evs /\
    (nav = [] \/ exists pg, nav = [Navigate pg url]).
Proof.
  unfold scrape_book, new_page. rewrite bind_log, bind_call.
  cbn [outside logged].
  destruct (fst (w_new_page wd (outside s))) as [[pg|]|].
  - unfold navigate. rewrite bind_call.
    match goal with
    | |- context [called (Navigate pg url) ?op ?s0] =>
        set (s1 := called (Navigate pg url) op s0)
    end.
    destruct (fst (w_navigate wd pg url _)) as [r|].
    + destruct (after_navigate_fields wd field_call (fun e H => H)
                  pg url r s1) as (_ & _ & evs0 & Ht & Hf).
      exists evs0, [Navigate pg url]. rewrite Ht.
      split; [reflexivity|]. split; [exact Hf|]. right. eauto.
    + exists [], [Navigate pg url].
      split; [reflexivity|]. split; [constructor|]. right. eauto.
  - exists [Log ERROR "Failed to create page"], [].
    split; [reflexivity|]. split; [repeat constructor | left; reflexivity].
  - exists [], []. split; [reflexivity|]. split; [constructor|].
    left. reflexivity.
Qed.

(** What [attempt_item] adds to the calls of [scrape_book]. *)
Lemma attempt_item_shape (url : text) (s : state W) :
  exists tail,
    trace (snd (attempt_item wd url s))
    = tail ++ trace (snd (scrape_book wd url s)) /\
    Forall hand_over tail.
Proof.
  rewrite attempt_item_run.
  destruct (scrape_book wd url s) as [[[bd|]| |] s1] eqn:E; cbn [snd].
  - destruct (truthy (title bd)).
    + assert (Hrow : hand_over (AddBook (rare_non_fiction bd))).
      { exists bd. split; [reflexivity|].
        pose proof (scrape_book_well_formed wd url s s1 bd E) as Hw.
        destruct Hw as [Hu Hw]. split; [reflexivity | exact Hw]. }
      cbv zeta.
      destruct (fst (w_add_book wd (rare_non_fiction bd) (outside s1)))
        as [book_id|]; [destruct (truthy_id book_id)|].
      * exists [Log INFO "Added book"; AddBook (rare_non_fiction bd)].
        split; [reflexivity|]. repeat constructor. exact Hrow.
      * exists [AddBook (rare_non_fiction bd)].
        split; [reflexivity|]. repeat constructor. exact Hrow.
      * exists [Log ERROR "Error processing book";
                AddBook (rare_non_fiction bd)].
        split; [reflexivity|]. repeat constructor. exact Hrow.
    + exists []. split; [reflexivity | constructor].
  - exists []. split; [reflexivity | constructor].
  - exists [Log ERROR "Error processing book"].
    split; [reflexivity | repeat constructor].
  - exists []. split; [reflexivity | constructor].
Qed.

Lemma already_known_run (url : text) (s : state W) :
  already_known wd url s
  = match _extract_sku_from_url url with
    | Some sku_ =>
        (match fst (w_get_book_by_sku wd sku_ (outside s)) with
         | Returns (Some _) => Ret true
         | Returns None => Ret false
         | Raises => Raise
         end,
         called (GetBookBySku sku_) (w_get_book_by_sku wd sku_) s)
    | None => (Ret false, s)
    end.
Proof.
  unfold already_known.
  destruct (_extract_sku_from_url url) as [sku_|] eqn:Eu; [|reflexivity].
  rewrite (extract_sku_from_url_truthy url sku_ Eu).
  unfold _is_book_in_database.
  rewrite (extract_sku_from_url_truthy url sku_ Eu). cbn [negb].
  unfold get_book_by_sku. rewrite bind_call.
  destruct (fst (w_get_book_by_sku wd sku_ (outside s))) as [[row|]|];
    reflexivity.
Qed.

(** One iteration of the item loop, case by case. *)
Lemma process_link_run (url : text) (s : state W) :
  process_link wd url s
  = match _extract_sku_from_url url with
    | Some sku_ =>
        match fst (w_get_book_by_sku wd sku_ (outside s)) with
        | Returns (Some _) => (Ret tt, after_skip wd sku_ s)
        | Returns None =>
            attempt_item wd url
              (logged (Sleep ItemDelay)
                 (called (GetBookBySku sku_) (w_get_book_by_sku wd sku_) s))
        | Raises =>
            (Raise, called (GetBookBySku sku_) (w_get_book_by_sku wd sku_) s)
        end
    | None => attempt_item wd url (logged (Sleep ItemDelay) s)
    end.
Proof.
  unfold process_link, bind at 1. rewrite already_known_run.
  destruct (_extract_sku_from_url url) as [sku_|]; [|reflexivity].
  destruct (fst (w_get_book_by_sku wd sku_ (outside s))) as [[row|]|];
    reflexivity.
Qed.

(** The calls of one iteration of the item loop. *)
Lemma process_link_shape (url : text) (s : state W) :
  (exists tail evs nav,
      trace (snd (process_link wd url s))
      = tail ++ evs ++ nav ++
        NewPage :: Log DEBUG "Scraping book" :: Sleep ItemDelay
          :: lookup_of url ++ trace s /\
      Forall hand_over tail /\
      Forall (fun e => field_call e = true) evs /\
      (nav = [] \/ exists pg, nav = [Navigate pg url])) \/
  (exists evs,
      trace (snd (process_link wd url s)) = evs ++ trace s /\
      Forall (fun e => skip_call e = true) evs).
Proof.
  assert (Hattempt : forall s0,
    trace s0 = lookup_of url ++ trace s ->
    exists tail evs nav,
      trace (snd (attempt_item wd url (logged (Sleep ItemDelay) s0)))
      = tail ++ evs ++ nav ++
        NewPage :: Log DEBUG "Scraping book" :: Sleep ItemDelay
          :: lookup_of url ++ trace s /\
      Forall hand_over tail /\
      Forall (fun e => field_call e = true) evs /\
      (nav = [] \/ exists pg, nav = [Navigate pg url])).
  { intros s0 Hs0.
    destruct (attempt_item_shape url (logged (Sleep ItemDelay) s0))
      as (tail & Ht & Htail).
    destruct (scrape_book_shape url (logged (Sleep ItemDelay) s0))
      as (evs & nav & He & Hevs & Hnav).
    exists tail, evs, nav. rewrite Ht, He. cbn [trace logged].
    rewrite Hs0. auto. }
  rewrite process_link_run. unfold lookup_of in *.
  destruct (_extract_sku_from_url url) as [sku_|] eqn:Eu.
  - destruct (fst (w_get_book_by_sku wd sku_ (outside s))) as [[row|]|].
    + right.
      exists [Log DEBUG "Book with SKU already exists. Skipping.";
              GetBookBySku sku_].
      split; [reflexivity | repeat constructor].
    + left. apply Hattempt. reflexivity.
    + right. exists [GetBookBySku sku_].
      split; [reflexivity | repeat constructor].
  - left. apply Hattempt. reflexivity.
Qed.

Lemma process_link_orderly (url : text) (s : state W) :
  sends orderly s (snd (process_link wd url s)).
Proof.
  destruct (process_link_shape url s)
    as [(tail & evs & nav & Ht & Htail & Hevs & Hnav) | (evs & Ht & Hevs)].
  - exists (tail ++ evs ++ nav ++
            NewPage :: Log DEBUG "Scraping book" :: Sleep ItemDelay
              :: lookup_of url).
    split.
    + rewrite Ht. rewrite <- !app_assoc. reflexivity.
    + apply orderly_app; [apply orderly_hand_over; exact Htail|].
      apply orderly_app.
      { apply orderly_plain. eapply Forall_impl; [|exact Hevs].
        apply field_is_plain. }
      assert (Hrest : orderly (NewPage :: Log DEBUG "Scraping book"
                                 :: Sleep ItemDelay :: lookup_of url)).
      { apply orderly_plain. repeat constructor.
        unfold lookup_of. destruct (_extract_sku_from_url url);
          repeat constructor. }
      destruct Hnav as [-> | (pg & ->)]; [exact Hrest|].
      split; [|exact Hrest].
      exists []. rewrite app_nil_r. reflexivity.
  - exists evs. split; [exact Ht|].
    apply orderly_plain. eapply Forall_impl; [|exact Hevs].
    apply skip_is_plain.
Qed.

Lemma process_link_rows (url : text) (s : state W) :
  sends (Forall stored_row) s (snd (process_link wd url s)).
Proof.
  destruct (process_link_shape url s)
    as [(tail & evs & nav & Ht & Htail & Hevs & Hnav) | (evs & Ht & Hevs)].
  - exists (tail ++ evs ++ nav ++
            NewPage :: Log DEBUG "Scraping book" :: Sleep ItemDelay
              :: lookup_of url).
    split.
    + rewrite Ht. rewrite <- !app_assoc. reflexivity.
    + apply Forall_app. split.
      { eapply Forall_impl; [|exact Htail].
        intros e He. destruct e; try exact I. exact He. }
      apply Forall_app. split.
      { apply plain_stored. eapply Forall_impl; [|exact Hevs].
        apply field_is_plain. }
      apply Forall_app. split.
      { destruct Hnav as [-> | (pg & ->)]; repeat constructor. }
      repeat constructor.
      unfold lookup_of. destruct (_extract_sku_from_url url);
        repeat constructor.
  - exists evs. split; [exact Ht|].
    apply plain_stored. eapply Forall_impl; [|exact Hevs].
    apply skip_is_plain.
Qed.
End VisitFacts.

(** A property [G] of call sequences that holds of the session's own
    calls, of the loading of a listing page and of each iteration of the
    item loop, and is kept by concatenation, holds of a whole run. *)
Section Protocol.
Context {W : Type} (wd : world W) (G : list event -> Prop).
Hypothesis G_nil : G [].
Hypothesis G_app : forall a b, G a -> G b -> G (a ++ b).
Hypothesis G_session :
  forall evs, Forall (fun e => session_call e = true) evs -> G evs.
Hypothesis G_listing :
  forall pg s, sends G s (snd (load_listing wd pg s)).
Hypothesis G_link :
  forall url s, sends G s (snd (process_link wd url s)).

Lemma sends_refl (s : state W) : sends G s s.
Proof. exists []. split; [reflexivity | exact G_nil]. Qed.

Lemma sends_trans (s1 s2 s3 : state W) :
  sends G s1 s2 -> sends G s2 s3 -> sends G s1 s3.
Proof.
  intros (e1 & H1 & F1) (e2 & H2 & F2). exists (e2 ++ e1). split.
  - rewrite H2, H1. apply app_assoc.
  - apply G_app; assumption.
Qed.

Lemma keeps_call_sends {A : Type} (e : event) (op : W -> reply A * W) :
  session_call e = true -> keeps (sends G) (call e op).
Proof.
  intros He s. exists [e]. split; [reflexivity|].
  apply G_session. repeat constructor. exact He.
Qed.

Lemma keeps_log_sends (lvl : level) (msg : string) :
  keeps (sends G) (@log W lvl msg).
Proof.
  intros s. exists [Log lvl msg]. split; [reflexivity|].
  apply G_session. repeat constructor.
Qed.

Lemma item_loop_sends (max_books : Z) (links : list text) :
  keeps (sends G) (item_loop wd max_books links).
Proof.
  induction links as [|url rest IH]; intros s; [apply sends_refl|].
  cbn [item_loop]. unfold bind at 1, get.
  destruct (max_books <=? scraped_count s); [apply sends_refl|].
  unfold bind. pose proof (G_link url s) as Hr.
  destruct (process_link wd url s) as [[[]| |] s1]; simpl in *;
    try exact Hr.
  eapply sends_trans; [exact Hr | apply IH].
Qed.

Lemma crawl_loop_sends (max_books : Z) (pg : page) (fuel : nat) :
  keeps (sends G) (crawl_loop wd fuel pg max_books).
Proof.
  induction fuel as [|fuel IH]; cbn [crawl_loop].
  - apply keeps_bind; [apply sends_trans | apply keeps_get, sends_refl
                      | intros scraped].
    destruct (scraped <? max_books); intros s; apply sends_refl.
  - apply keeps_bind; [apply sends_trans | apply keeps_get, sends_refl
                      | intros scraped].
    destruct (negb (scraped <? max_books)); [apply keeps_ret, sends_refl|].
    apply keeps_bind; [apply sends_trans | | intros listing].
    + intros s. apply G_listing.
    + destruct listing as [links|]; [|apply keeps_ret, sends_refl].
      apply keeps_bind; [apply sends_trans | apply item_loop_sends
                        | intros _].
      apply keeps_bind; [apply sends_trans
                        | apply keeps_get, sends_refl | intros sc].
      destruct (sc <? max_books); [|apply keeps_ret, sends_refl].
      apply keeps_bind; [apply sends_trans | | intros _; exact IH].
      intros s. rewrite turn_page_run.
      exists [Sleep PageDelay; Log INFO "Moving to next page"].
      split; [reflexivity|]. apply G_session. repeat constructor.
Qed.

Lemma crawl_session_sends (max_books : Z) (fuel : nat) :
  keeps (sends G) (crawl_session wd fuel max_books).
Proof.
  unfold crawl_session, new_page, close, page_close.
  apply keeps_try_finally; [apply sends_trans | |
                            apply keeps_call_sends; reflexivity].
  apply keeps_try_except; [apply sends_trans | |].
  - apply keeps_bind; [apply sends_trans | apply keeps_log_sends
                      | intros _].
    apply keeps_bind; [apply sends_trans
                      | apply keeps_call_sends; reflexivity | intros pg].
    destruct pg as [pg|].
    + apply keeps_bind; [apply sends_trans | apply keeps_log_sends
                        | intros _].
      apply keeps_bind; [apply sends_trans | apply crawl_loop_sends
                        | intros _].
      apply keeps_bind; [apply sends_trans
                        | apply keeps_call_sends; reflexivity | intros _].
      apply keeps_ret, sends_refl.
    + apply keeps_bind; [apply sends_trans | apply keeps_log_sends
                        | intros _].
      apply keeps_bind; [apply sends_trans
                        | apply keeps_call_sends; reflexivity | intros _].
      apply keeps_ret, sends_refl.
  - apply keeps_bind; [apply sends_trans | apply keeps_log_sends
                      | intros _].
    apply keeps_ret, sends_refl.
Qed.

Lemma scrape_new_arrivals_sends (max_books : Z) (fuel : nat) :
  keeps (sends G) (scrape_new_arrivals wd fuel max_books).
Proof.
  unfold scrape_new_arrivals, initialize, close.
  apply keeps_bind; [apply sends_trans | apply keeps_log_sends | intros _].
  apply keeps_bind; [apply sends_trans
                    | apply keeps_call_sends; reflexivity | intros ready].
  destruct (negb ready).
  - apply keeps_bind; [apply sends_trans | apply keeps_log_sends
                      | intros _].
    apply keeps_bind; [apply sends_trans
                      | apply keeps_call_sends; reflexivity | intros _].
    apply keeps_ret, sends_refl.
  - apply keeps_bind; [apply sends_trans | | intros _].
    + intros s. exists []. split; [reflexivity | exact G_nil].
    + apply keeps_bind; [apply sends_trans | apply crawl_session_sends
                        | intros early].
      destruct early as [v|]; [apply keeps_ret, sends_refl|].
      apply keeps_bind; [apply sends_trans | apply keeps_log_sends
                        | intros _].
      apply keeps_get, sends_refl.
Qed.
End Protocol.

Lemma sends_plain {W : Type} (G : list event -> Prop) (P : event -> bool)
  (s s' : state W) :
  (forall evs, Forall (fun e => plain_call e = true) evs -> G evs) ->
  (forall e, P e = true -> plain_call e = true) ->
  emits P s s' -> sends G s s'.
Proof.
  intros HG HP (evs & Ht & Hf). exists evs. split; [exact Ht|].
  apply HG. eapply Forall_impl; [|exact Hf]. exact HP.
Qed.

Lemma session_is_plain (evs : list event) :
  Forall (fun e => session_call e = true) evs ->
  Forall (fun e => plain_call e = true) evs.
Proof.
  apply Forall_impl. intros e He. destruct e; try reflexivity; discriminate.
Qed.

(** The calls made while a listing page is loaded. *)
Lemma load_listing_shape {W : Type} (wd : world W) (pg : page)
  (s : state W) :
  exists evs,
    trace (snd (load_listing wd pg s))
    = evs ++ Goto pg (current_page_url wd (page_num s))
          :: Log INFO "Navigating to page" :: trace s /\
    Forall (fun e => field_call e = true) evs.
Proof.
  assert (Hrest : forall response : option response,
    safe (quiet field_call)
      (match response with
       | None => log ERROR "Goto returned None - aborting" ;; ret None
       | Some r =>
           if negb (ok r) then
             log WARNING "Failed to load page. Stopping." ;; ret None
           else
             log INFO "Page loaded with status" ;;
             wait_for_load_state wd pg ;;
             log DEBUG "Page fully loaded" ;;
             book_links <- _extract_book_links wd pg ;;
             match book_links with
             | [] => log INFO "No book links found. Stopping." ;; ret None
             | _ => log INFO "Found books on page" ;; ret (Some book_links)
             end
       end)%py).
  { intros response. unfold wait_for_load_state, log.
    destruct response as [r|].
    - destruct (negb (ok r)).
      + apply safe_bind; [apply quiet_trans | apply safe_emit; reflexivity
                         | intros _].
        apply safe_ret, quiet_refl.
      + apply safe_bind; [apply quiet_trans | apply safe_emit; reflexivity
                         | intros _].
        apply safe_bind; [apply quiet_trans | apply safe_call; reflexivity
                         | intros _].
        apply safe_bind; [apply quiet_trans | apply safe_emit; reflexivity
                         | intros _].
        apply safe_bind; [apply quiet_trans | | intros links].
        * apply extract_book_links_fields. intros e He. exact He.
        * destruct links;
            (apply safe_bind; [apply quiet_trans
                              | apply safe_emit; reflexivity | intros _]);
            apply safe_ret, quiet_refl.
    - apply safe_bind; [apply quiet_trans | apply safe_emit; reflexivity
                       | intros _].
      apply safe_ret, quiet_refl. }
  unfold load_listing. unfold bind at 1, get.
  rewrite bind_log. unfold goto. rewrite bind_call.
  cbn [page_num logged].
  match goal with
  | |- context [called (Goto pg ?u) ?op ?s0] =>
      set (s1 := called (Goto pg u) op s0)
  end.
  destruct (fst (w_goto wd pg _ _)) as [response|].
  - destruct (Hrest response s1) as (_ & _ & evs & Ht & Hf).
    exists evs. rewrite Ht. split; [reflexivity | exact Hf].
  - exists []. split; [reflexivity | constructor].
Qed.

(** X19.  In every run, each visit of an item page comes directly after
    the page was opened for it, which comes directly after the pause
    between items, which comes directly after the look-up of the
    identifier of the link, when the link has one. *)
Theorem visits_are_prepared {W : Type} (wd : world W) (fuel : nat)
  (max_books : Z) (s : state W) :
  sends orderly s (snd (scrape_new_arrivals wd fuel max_books s)).
Proof.
  apply (scrape_new_arrivals_sends wd orderly).
  - exact I.
  - apply orderly_app.
  - intros evs H. apply orderly_plain, session_is_plain, H.
  - intros pg s0.
    apply (sends_plain orderly listing_step _ _
             orderly_plain listing_is_plain).
    apply (load_listing_steps wd pg s0).
  - apply process_link_orderly.
Qed.

(** X20.  In every run, each row handed to [add_book] is a record as
    [scrape_book] returns them (title, author and identifier not empty,
    the price a number with two decimals or null), filed under the
    category "Rare Non-Fiction" without a subcategory. *)
Theorem stored_rows_are_well_formed {W : Type} (wd : world W) (fuel : nat)
  (max_books : Z) (s : state W) :
  sends (Forall stored_row) s
        (snd (scrape_new_arrivals wd fuel max_books s)).
Proof.
  apply (scrape_new_arrivals_sends wd (Forall stored_row)).
  - constructor.
  - intros a b Ha Hb. apply Forall_app. split; assumption.
  - intros evs H. apply plain_stored, session_is_plain, H.
  - intros pg s0.
    apply (sends_plain (Forall stored_row) listing_step _ _
             plain_stored listing_is_plain).
    apply (load_listing_steps wd pg s0).
  - apply process_link_rows.
Qed.

Lemma process_link_on_target {W : Type} (wd : world W) (url : text)
  (s : state W) :
  sends (Forall (on_target wd)) s (snd (process_link wd url s)).
Proof.
  assert (Hlook : Forall (on_target wd) (lookup_of url)).
  { unfold lookup_of. destruct (_extract_sku_from_url url);
      repeat constructor. }
  destruct (process_link_shape wd url s)
    as [(tail & evs & nav & Ht & Htail & Hevs & Hnav) | (evs & Ht & Hevs)].
  - exists (tail ++ evs ++ nav ++
            NewPage :: Log DEBUG "Scraping book" :: Sleep ItemDelay
              :: lookup_of url).
    split.
    + rewrite Ht. rewrite <- !app_assoc. reflexivity.
    + apply Forall_app. split.
      { eapply Forall_impl; [|exact Htail].
        intros e He. destruct e; try exact I. contradiction. }
      apply Forall_app. split.
      { eapply Forall_impl; [|exact Hevs].
        intros e He. destruct e; try exact I. discriminate. }
      apply Forall_app. split.
      { destruct Hnav as [-> | (pg & ->)]; repeat constructor. }
      repeat constructor. exact Hlook.
  - exists evs. split; [exact Ht|].
    eapply Forall_impl; [|exact Hevs].
    intros e He. destruct e; try exact I. discriminate.
Qed.

(** X21.  In every run, each request of a listing page goes to the
    configured address, or to that address with a page parameter of 2 or
    more: the crawl asks for no other listing. *)
Theorem listing_requests_on_target {W : Type} (wd : world W) (fuel : nat)
  (max_books : Z) (s : state W) :
  sends (Forall (on_target wd)) s
        (snd (scrape_new_arrivals wd fuel max_books s)).
Proof.
  apply (scrape_new_arrivals_sends wd (Forall (on_target wd))).
  - constructor.
  - intros a b Ha Hb. apply Forall_app. split; assumption.
  - apply Forall_impl. intros e He. destruct e; try exact I. discriminate.
  - intros pg s0.
    destruct (load_listing_shape wd pg s0) as (evs & Ht & Hevs).
    exists (evs ++ [Goto pg (current_page_url wd (page_num s0));
                    Log INFO "Navigating to page"]).
    split; [rewrite Ht, <- app_assoc; reflexivity|].
    apply Forall_app. split.
    + eapply Forall_impl; [|exact Hevs].
      intros e He. destruct e; try exact I. discriminate.
    + repeat constructor.
      destruct (Z.le_gt_cases (page_num s0) 1) as [Hle | Hgt].
      * exists 1. split; [lia|]. unfold current_page_url.
        replace (1 <? page_num s0) with false
          by (symmetry; apply Z.ltb_ge; exact Hle).
        reflexivity.
      * exists (page_num s0). split; [lia | reflexivity].
  - apply process_link_on_target.
Qed.

(** ** Edge cases *)

(** X22.  A blank identifier element shadows everything else on the
    page: when the address carries no identifier and the element exists
    but holds only white space, the structured data and the text of the
    page are not consulted and the fallback identifier is used. *)
Theorem extract_sku_blank_element {W : Type} (wd : world W) (pg : page)
  (url : text) (s : state W) (d : dom) (t : text) :
  _extract_sku_from_url url = None ->
  fst (w_evaluate wd pg (outside s)) = Returns d ->
  sku_element d = Some t ->
  js_trim t = [] ->
  fst (_extract_sku wd pg url s)
  = Ret (JStr (fallback_sku (py_hash wd) url)).
Proof.
  intros Hu Hd He Ht.
  apply extract_sku_fallback; [exact Hu|].
  unfold no_page_sku. rewrite Hd.
  unfold sku_script. rewrite He. cbn [option_map first_of].
  rewrite Ht. reflexivity.
Qed.

Lemma extract_sku_blank_element_witness :
  fst (_extract_sku (sim_world blank_sku_shop (0, 0)) 0%nat short_url
         (sim_showing short_url []))
  = Ret (JStr (fallback_sku (py_hash (sim_world blank_sku_shop (0, 0)))
                 short_url)).
Proof.
  apply (extract_sku_blank_element (sim_world blank_sku_shop (0, 0)) 0%nat
           short_url (sim_showing short_url [])
           (page_dom blank_sku_page) (T "  ")).
  - reflexivity.
  - reflexivity.
  - reflexivity.
  - reflexivity.
Defined.

Section EdgeRuns.
Context {W : Type} (wd : world W).

(** X23.  With a budget of zero or less, the run opens and closes the
    session and the page, requests no listing and returns 0. *)
Theorem zero_budget (fuel : nat) (max_books : Z) (s : state W) (pg : page) :
  opened wd s pg ->
  close_is_safe wd -> page_close_is_safe wd ->
  max_books <= 0 ->
  scrape_new_arrivals wd fuel max_books s
  = (Ret 0,
     logged (Log INFO "Completed scraping")
       (called Close (w_close wd)
          (called (PageClose pg) (w_page_close wd pg) (loop_entry wd s)))).
Proof.
  intros [Hinit Hpage] Hclose Hpclose Hmax.
  unfold scrape_new_arrivals, initialize.
  rewrite bind_log, bind_call, Hinit. cbn [negb].
  rewrite (bind_ret _ _ _ (session_ready wd s) tt) by reflexivity.
  assert (Hloop : crawl_loop wd fuel pg max_books (loop_entry wd s)
                  = (Ret tt, loop_entry wd s)).
  { destruct fuel as [|fuel]; cbn [crawl_loop]; unfold bind at 1, get;
      change (scraped_count (loop_entry wd s)) with 0;
      replace (0 <? max_books) with false
        by (symmetry; apply Z.ltb_ge; exact Hmax);
      reflexivity. }
  assert (Hsession : crawl_session wd fuel max_books (session_ready wd s)
                     = (Ret None,
                        called Close (w_close wd)
                          (called (PageClose pg) (w_page_close wd pg)
                             (loop_entry wd s)))).
  { unfold crawl_session, try_finally, try_except.
    rewrite bind_log. unfold new_page. rewrite bind_call, Hpage.
    rewrite bind_log.
    change (logged (Log DEBUG "Page created successfully") _)
      with (loop_entry wd s).
    rewrite (bind_ret _ _ _ _ tt Hloop).
    unfold page_close. rewrite bind_call.
    pose proof (Hpclose pg (outside (loop_entry wd s))) as Hp.
    destruct (fst (w_page_close wd pg (outside (loop_entry wd s))))
      as [[]|]; [|contradiction].
    cbn [ret]. unfold close. rewrite call_run.
    pose proof (Hclose (outside (called (PageClose pg)
                                   (w_page_close wd pg)
                                   (loop_entry wd s)))) as Hc.
    destruct (fst (w_close wd _)) as [[]|]; [|contradiction].
    reflexivity. }
  rewrite (bind_ret _ _ _ _ None Hsession).
  rewrite bind_log. reflexivity.
Qed.

(** X24.  When the browser opens no page, the run returns 0 without a
    request, and the session is closed twice: once before the [return]
    and once more by the [finally] clause. *)
Theorem no_page_no_crawl (fuel : nat) (max_books : Z) (s : state W) :
  fst (w_initialize wd
         (outside (logged (Log INFO "Starting to scrape new arrivals") s)))
  = Returns true ->
  fst (w_new_page wd
         (outside (logged (Log DEBUG "Creating new page")
                     (session_ready wd s))))
  = Returns None ->
  close_is_safe wd ->
  scrape_new_arrivals wd fuel max_books s
  = (Ret 0,
     called Close (w_close wd)
       (called Close (w_close wd)
          (logged (Log ERROR "Failed to create new page")
             (called NewPage (w_new_page wd)
                (logged (Log DEBUG "Creating new page")
                   (session_ready wd s)))))).
Proof.
  intros Hinit Hpage Hclose.
  unfold scrape_new_arrivals, initialize.
  rewrite bind_log, bind_call, Hinit. cbn [negb].
  rewrite (bind_ret _ _ _ (session_ready wd s) tt) by reflexivity.
  set (s1 := logged (Log ERROR "Failed to create new page")
               (called NewPage (w_new_page wd)
                  (logged (Log DEBUG "Creating new page")
                     (session_ready wd s)))).
  assert (Hsession : crawl_session wd fuel max_books (session_ready wd s)
                     = (Ret (Some 0),
                        called Close (w_close wd)
                          (called Close (w_close wd) s1))).
  { unfold crawl_session, try_finally, try_except.
    rewrite bind_log. unfold new_page. rewrite bind_call, Hpage.
    rewrite bind_log. fold s1. unfold close. rewrite bind_call.
    pose proof (Hclose (outside s1)) as Hc1.
    destruct (fst (w_close wd (outside s1))) as [[]|]; [|contradiction].
    cbn [ret]. rewrite call_run.
    pose proof (Hclose (outside (called Close (w_close wd) s1))) as Hc2.
    destruct (fst (w_close wd _)) as [[]|]; [|contradiction].
    reflexivity. }
  rewrite (bind_ret _ _ _ _ (Some 0) Hsession). reflexivity.
Qed.
End EdgeRuns.

Lemma zero_budget_witness :
  fst (scrape_new_arrivals (sim_world three_link_shop (0, 0)) 3 0
         (sim_start [])) = Ret 0.
Proof.
  refine (f_equal fst
            (zero_budget (sim_world three_link_shop (0, 0)) 3 0
               (sim_start []) 0%nat _ _ _ _)).
  - split; reflexivity.
  - intros w. discriminate.
  - intros pg w. discriminate.
  - lia.
Defined.

Lemma no_page_no_crawl_witness :
  fst (scrape_new_arrivals (pageless (sim_world three_link_shop (0, 0))) 3 5
         (sim_start [])) = Ret 0 /\
  trace (snd (scrape_new_arrivals
                (pageless (sim_world three_link_shop (0, 0))) 3 5
                (sim_start [])))
  = [Close; Close; Log ERROR "Failed to create new page"; NewPage;
     Log DEBUG "Creating new page"; Initialize;
     Log INFO "Starting to scrape new arrivals"].
Proof.
  rewrite (no_page_no_crawl (pageless (sim_world three_link_shop (0, 0)))
             3 5 (sim_start [])).
  - split; reflexivity.
  - reflexivity.
  - reflexivity.
  - intros w. discriminate.
Defined.

(** ** The scripts of [_extract_publication_details] and
    [_extract_binding] *)

(** A match ends in a call of the continuation. *)
Lemma rx_result {A : Type} (ci : bool) (r : regex) :
  forall s cs (k : text -> caps -> option A) (m : A),
    rx ci r s cs k = Some m -> exists s' cs', k s' cs' = Some m.
Proof.
  induction r as [c|p|r1 IH1 r2 IH2|r1 IH1 r2 IH2|r IH|p|p|n p|i r IH];
    intros s cs k m H; cbn [rx] in H.
  - destruct s as [|d s]; [discriminate|].
    destruct (fold_case ci (ascii_eqb c) d); [eauto | discriminate].
  - destruct s as [|d s]; [discriminate|].
    destruct (fold_case ci p d); [eauto | discriminate].
  - apply IH1 in H. destruct H as (s1 & cs1 & H). apply IH2 in H. exact H.
  - apply orelse_inv in H. destruct H as [H | [_ H]];
      [apply IH1 in H | apply IH2 in H]; exact H.
  - apply orelse_inv in H. destruct H as [H | [_ H]];
      [apply IH in H; exact H | eauto].
  - apply star_inv in H. destruct H as (ds & rest & _ & _ & H). eauto.
  - destruct s as [|d s]; [discriminate|].
    destruct (fold_case ci p d); [|discriminate].
    apply star_inv in H. destruct H as (ds & rest & _ & _ & H). eauto.
  - apply rep_inv in H. destruct H as (ds & rest & _ & _ & _ & H). eauto.
  - apply IH in H. destruct H as (s1 & cs1 & H). eauto.
Qed.

Lemma fold_digit_inv (c : ascii) :
  fold_case true is_digit c = true -> digit c.
Proof. unfold digit. intros H. ascii_cases c. Qed.

Lemma fold_name_char (c : ascii) :
  fold_case true name_char c = name_char c.
Proof. ascii_cases c. Qed.



(** The group [(\d{4})] at the end of a pattern. *)
Lemma year_group_inv (s : text) (cs m : caps) :
  rx true (Grp 1 (Rep 4 is_digit)) s cs (fun _ m => Some m) = Some m ->
  exists ds, year_text ds /\ group 1 m = Some ds.
Proof.
  cbn [rx]. intros H. apply rep_inv in H.
  destruct H as (ds & rest & -> & Hl & Hds & H).
  rewrite firstn_consumed in H. injection H as <-.
  exists ds. split; [|reflexivity]. split; [exact Hl|].
  eapply Forall_impl; [|exact Hds]. apply fold_digit_inv.
Qed.

(** The group [([^,\n\r.]+)] at the end of a pattern. *)
Lemma name_group_inv (s : text) (cs m : caps) :
  rx true (Grp 1 (Plus name_char)) s cs (fun _ m => Some m) = Some m ->
  exists ds,
    Forall (fun c => name_char c = true) ds /\ group 1 m = Some ds.
Proof.
  cbn [rx]. intros H. destruct s as [|d s]; [discriminate|].
  destruct (fold_case true name_char d) eqn:Ed; [|discriminate].
  apply star_inv in H. destruct H as (ds & rest & -> & Hds & H).
  change (d :: ds ++ rest) with ((d :: ds) ++ rest) in H.
  rewrite firstn_consumed in H. injection H as <-.
  exists (d :: ds). split; [|reflexivity].
  constructor; [rewrite <- fold_name_char; exact Ed|].
  eapply Forall_impl; [|exact Hds].
  intros c Hc. rewrite <- fold_name_char. exact Hc.
Qed.

Lemma year_search_inv (r : regex) (txt : text) (m : caps) :
  (forall s m0,
      match_here true r s = Some m0 ->
      exists s' cs',
        rx true (Grp 1 (Rep 4 is_digit)) s' cs' (fun _ m => Some m)
        = Some m0) ->
  search true r txt = Some m ->
  year_text (group_text 1 m).
Proof.
  intros Hr H. apply search_inv in H. destruct H as (pre & s' & _ & H).
  apply Hr in H. destruct H as (s1 & cs1 & H).
  apply year_group_inv in H. destruct H as (ds & Hy & Hg).
  unfold group_text. rewrite Hg. exact Hy.
Qed.

Lemma published_in_tail (s : text) (m : caps) :
  match_here true published_in_re s = Some m ->
  exists s' cs',
    rx true (Grp 1 (Rep 4 is_digit)) s' cs' (fun _ m => Some m) = Some m.
Proof.
  unfold match_here, published_in_re. intros H.
  do 4 (rewrite rx_Cat in H; apply rx_result in H;
        destruct H as (? & ? & H)).
  eauto.
Qed.

Lemma publication_year_tail (s : text) (m : caps) :
  match_here true publication_year_re s = Some m ->
  exists s' cs',
    rx true (Grp 1 (Rep 4 is_digit)) s' cs' (fun _ m => Some m) = Some m.
Proof.
  unfold match_here, publication_year_re. intros H.
  do 4 (rewrite rx_Cat in H; apply rx_result in H;
        destruct H as (? & ? & H)).
  eauto.
Qed.

Lemma year_tail (s : text) (m : caps) :
  match_here true year_re s = Some m ->
  exists s' cs',
    rx true (Grp 1 (Rep 4 is_digit)) s' cs' (fun _ m => Some m) = Some m.
Proof.
  unfold match_here, year_re. intros H.
  do 2 (rewrite rx_Cat in H; apply rx_result in H;
        destruct H as (? & ? & H)).
  eauto.
Qed.

Lemma lstrip_by_Forall (P : ascii -> Prop) (p : ascii -> bool) (s : text) :
  Forall P s -> Forall P (lstrip_by p s).
Proof.
  induction 1 as [|c s Hc Hs IH]; simpl; [constructor|].
  destruct (p c); [exact IH | constructor; assumption].
Qed.

Lemma strip_by_Forall (P : ascii -> Prop) (p : ascii -> bool) (s : text) :
  Forall P s -> Forall P (strip_by p s).
Proof.
  intros H. unfold strip_by, rstrip_by.
  apply Forall_rev, lstrip_by_Forall, Forall_rev, lstrip_by_Forall, H.
Qed.

Lemma publication_script_shape (details : option text) :
  exists p y,
    publication_script details
    = JObj [(T "publisher", p); (T "year", y)] /\
    match p with
    | JNull => True
    | JStr t => publisher_text t
    | _ => False
    end /\
    match y with
    | JNull => True
    | JStr t => year_text t
    | _ => False
    end.
Proof.
  destruct details as [txt|]; cbn [publication_script];
    [|exists JNull, JNull; auto].
  eexists. eexists. split; [reflexivity|]. split.
  - unfold match_group1.
    destruct (search true publisher_re txt) as [m|] eqn:E; [|exact I].
    cbn [from_option].
    apply search_inv in E. destruct E as (pre & s' & _ & E).
    unfold match_here, publisher_re in E.
    do 2 (rewrite rx_Cat in E; apply rx_result in E;
          destruct E as (? & ? & E)).
    apply name_group_inv in E. destruct E as (ds & Hds & Hg).
    unfold group_text. rewrite Hg. split.
    + apply strip_by_Forall. exact Hds.
    + apply strip_by_idem.
  - destruct (search true published_in_re txt) as [m|] eqn:E1.
    { exact (year_search_inv _ _ _ published_in_tail E1). }
    destruct (search true publication_year_re txt) as [m|] eqn:E2.
    { exact (year_search_inv _ _ _ publication_year_tail E2). }
    destruct (search true year_re txt) as [m|] eqn:E3.
    { exact (year_search_inv _ _ _ year_tail E3). }
    exact I.
Qed.

(** X25.  On a page that runs the script as written,
    [_extract_publication_details] returns a publisher that is null or a
    name without comma, period or line break and without white space at
    its ends, and a year that is null or four digits. *)
Theorem extract_publication_shape {W : Type} (wd : world W) (pg : page)
  (s : state W) (d : dom) :
  fst (w_evaluate wd pg (outside s)) = Returns d ->
  runs_scripts d ->
  exists p y,
    fst (_extract_publication_details wd pg s) = Ret (p, y) /\
    match p with
    | JNull => True
    | JStr t => publisher_text t
    | _ => False
    end /\
    match y with
    | JNull => True
    | JStr t => year_text t
    | _ => False
    end.
Proof.
  intros Hd [_ Hrun].
  destruct (publication_script_shape (details_text d))
    as (p & y & Hs & Hp & Hy).
  exists p, y. split; [|split; assumption].
  cbv [_extract_publication_details try_except bind evaluate call ret
       dict_get answered].
  rewrite Hd. cbn [fst snd]. rewrite Hrun, Hs. reflexivity.
Qed.

Lemma extract_publication_shape_witness :
  exists p y,
    fst (_extract_publication_details
           (sim_world
              (described_shop
                 (T "Publisher: Penguin Books Ltd. Published in 1987"))
              (0, 0))
           0%nat (sim_showing two_isbn_url []))
    = Ret (p, y) /\
    match p with
    | JNull => True
    | JStr t => publisher_text t
    | _ => False
    end /\
    match y with
    | JNull => True
    | JStr t => year_text t
    | _ => False
    end.
Proof.
  apply (extract_publication_shape _ 0%nat (sim_showing two_isbn_url [])
           (page_dom (described_page
              (T "Publisher: Penguin Books Ltd. Published in 1987")))).
  - reflexivity.
  - split; reflexivity.
Defined.





Lemma prefix_ci_inv (term : text) :
  forall s rest,
    prefix_ci term s = Some rest ->
    exists w,
      s = w ++ rest /\
      Forall2 (fun t c => fold_case true (ascii_eqb t) c = true) term w.
Proof.
  induction term as [|t term IH]; intros s rest H.
  - simpl in H. injection H as <-. exists []. split; [reflexivity|].
    constructor.
  - destruct s as [|c s]; [discriminate|]. cbn [prefix_ci] in H.
    destruct (fold_case true (ascii_eqb t) c) eqn:E; [|discriminate].
    apply IH in H. destruct H as (w & -> & Hw).
    exists (c :: w). split; [reflexivity|]. constructor; assumption.
Qed.

Lemma prefix_ci_here (term w rest : text) :
  Forall2 (fun t c => fold_case true (ascii_eqb t) c = true) term w ->
  prefix_ci term (w ++ rest) = Some rest.
Proof.
  induction 1 as [|t c term w Htc _ IH]; [destruct rest; reflexivity|].
  cbn [app prefix_ci]. rewrite Htc. exact IH.
Qed.

Lemma test_word_eq (term : text) (prev_word : bool) (s : text) :
  test_word term prev_word s
  = (negb prev_word
     && match prefix_ci term s with
        | Some rest => word_end rest
        | None => false
        end
     || match s with
        | [] => false
        | c :: s' => test_word term (is_word c) s'
        end)%bool.
Proof. destruct s; reflexivity. Qed.

Lemma word_start_cons (prev_word : bool) (c : ascii) (pre : text) :
  word_start prev_word (c :: pre) <-> word_start (is_word c) pre.
Proof.
  unfold word_start. cbn [rev].
  destruct (rev pre) as [|c' r]; simpl; tauto.
Qed.

Lemma test_word_sound (term : text) :
  forall s prev_word,
    test_word term prev_word s = true ->
    exists pre w post,
      s = pre ++ w ++ post /\
      Forall2 (fun t c => fold_case true (ascii_eqb t) c = true) term w /\
      word_start prev_word pre /\ word_end post = true.
Proof.
  induction s as [|c s IH]; intros prev_word H;
    rewrite test_word_eq in H; apply orb_true_iff in H;
    destruct H as [H | H]; try discriminate.
  - apply andb_true_iff in H. destruct H as [Hp H].
    destruct (prefix_ci term []) as [rest|] eqn:E; [|discriminate].
    apply prefix_ci_inv in E. destruct E as (w & E & Hw).
    exists [], w, rest. split; [exact E|]. split; [exact Hw|].
    split; [|exact H]. unfold word_start. simpl.
    destruct prev_word; [discriminate | reflexivity].
  - apply andb_true_iff in H. destruct H as [Hp H].
    destruct (prefix_ci term (c :: s)) as [rest|] eqn:E; [|discriminate].
    apply prefix_ci_inv in E. destruct E as (w & E & Hw).
    exists [], w, rest. split; [exact E|]. split; [exact Hw|].
    split; [|exact H]. unfold word_start. simpl.
    destruct prev_word; [discriminate | reflexivity].
  - apply IH in H. destruct H as (pre & w & post & -> & Hw & Hs & He).
    exists (c :: pre), w, post. split; [reflexivity|].
    split; [exact Hw|]. split; [|exact He].
    apply word_start_cons. exact Hs.
Qed.

Lemma test_word_complete (term w post : text) :
  Forall2 (fun t c => fold_case true (ascii_eqb t) c = true) term w ->
  word_end post = true ->
  forall pre prev_word,
    word_start prev_word pre ->
    test_word term prev_word (pre ++ w ++ post) = true.
Proof.
  intros Hw He. induction pre as [|c pre IH]; intros prev_word Hs;
    rewrite test_word_eq; apply orb_true_iff.
  - left. unfold word_start in Hs. simpl in Hs. subst prev_word.
    cbn [app negb andb]. rewrite (prefix_ci_here term w post Hw). exact He.
  - right. cbn [app]. apply IH. apply word_start_cons in Hs. exact Hs.
Qed.

Lemma test_word_whole (term txt : text) :
  test_word term false txt = true <-> whole_word term txt.
Proof.
  split.
  - intros H. apply test_word_sound in H.
    destruct H as (pre & w & post & -> & Hw & Hs & He).
    exists pre, w, post. split; [reflexivity|]. split; [exact Hw|].
    split; [|exact He].
    unfold word_start in Hs. unfold word_end.
    destruct (rev pre) as [|c r]; [reflexivity|]. rewrite Hs. reflexivity.
  - intros (pre & w & post & -> & Hw & Hs & He).
    apply test_word_complete; [exact Hw | exact He|].
    unfold word_start. unfold word_end in Hs.
    destruct (rev pre) as [|c r]; [reflexivity|].
    destruct (is_word c); [discriminate | reflexivity].
Qed.

Lemma find_split {A : Type} (f : A -> bool) (l : list A) (x : A) :
  find f l = Some x ->
  exists l1 l2,
    l = l1 ++ x :: l2 /\ f x = true /\ forall y, In y l1 -> f y = false.
Proof.
  induction l as [|a l IH]; [discriminate|]. simpl.
  destruct (f a) eqn:E.
  - intros H. injection H as <-. exists [], l.
    split; [reflexivity|]. split; [exact E|]. intros y [].
  - intros H. apply IH in H. destruct H as (l1 & l2 & -> & Hx & Hl1).
    exists (a :: l1), l2. split; [reflexivity|]. split; [exact Hx|].
    intros y [<- | Hy]; [exact E | apply Hl1; exact Hy].
Qed.

Lemma binding_script_spec (txt : text) :
  binding_of txt (binding_script (Some txt)).
Proof.
  cbn [binding_script].
  destruct (find (fun term => test_word term false txt) binding_terms)
    as [term|] eqn:E; cbn [binding_of].
  - apply find_split in E. destruct E as (l1 & l2 & Hl & Ht & Hl1).
    exists l1, term, l2. split; [exact Hl|]. split; [reflexivity|].
    split; [apply test_word_whole; exact Ht|].
    intros term' Hin Hw. apply test_word_whole in Hw.
    rewrite (Hl1 term' Hin) in Hw. discriminate.
  - intros term Hin Hw. apply test_word_whole in Hw.
    pose proof (find_none _ _ E term Hin) as Hn. cbv beta in Hn.
    rewrite Hw in Hn. discriminate.
Qed.

(** X27.  On a page that runs the script as written and has a details
    container, [_extract_binding] returns the first term of the list of
    the script that stands in the details as a whole word, in whatever
    case, written with a capital first letter and the rest in lower case;
    it returns null when no term does.  The order of the list decides,
    not the order in the text. *)
Theorem extract_binding_spec {W : Type} (wd : world W) (pg : page)
  (s : state W) (d : dom) (txt : text) :
  fst (w_evaluate wd pg (outside s)) = Returns d ->
  runs_scripts d ->
  details_text d = Some txt ->
  exists b,
    fst (_extract_binding wd pg s) = Ret b /\ binding_of txt b.
Proof.
  intros Hd [Hrun _] Hdet.
  exists (binding_script (Some txt)). split; [|apply binding_script_spec].
  cbv [_extract_binding try_except bind evaluate call ret answered].
  rewrite Hd. cbn [fst snd]. rewrite Hrun, Hdet. reflexivity.
Qed.

Lemma extract_binding_spec_witness :
  exists b,
    fst (_extract_binding
           (sim_world
              (described_shop (T "Paperback; also sold as HARD COVER."))
              (0, 0))
           0%nat (sim_showing two_isbn_url []))
    = Ret b /\
    binding_of (T "Paperback; also sold as HARD COVER.") b.
Proof.
  apply (extract_binding_spec _ 0%nat (sim_showing two_isbn_url [])
           (page_dom (described_page
              (T "Paperback; also sold as HARD COVER.")))).
  - reflexivity.
  - split; reflexivity.
  - reflexivity.
Defined.
